(** * Spotify + Last.fm auto-skipper: a shallow embedding of
      [spotify_skip_recently_played_song.py] and its verified properties.

    The Python module is a single-threaded polling loop with module-level
    mutable state and synchronous HTTP calls.  It is embedded as a
    state-and-exception monad over an explicit record of the globals; the
    outside world (clock, HTTP peers, external stop signal) is an oracle
    indexed by the number of effects performed so far.  Every effect is
    appended to a trace, so that "a skip was issued" or "the loop slept a
    full interval" are statements about that trace. *)

From Stdlib Require Import ZArith List String Ascii Bool Lia Arith.
Import ListNotations.
Set Warnings "-register-all".
Local Open Scope string_scope.
Local Open Scope Z_scope.

(* ================================================================= *)
(** ** Python values *)

(** The exceptions the modelled code can meet.  [KeyboardInterrupt] is the
    only one that is not an [Exception] subclass. *)
Inductive exn : Type :=
| ValueError | TypeError | KeyError | IndexError | AttributeError
| OverflowError | OSError | RuntimeError
| RequestException | JSONDecodeError
| KeyboardInterrupt.

Definition is_Exception (e : exn) : bool :=
  match e with KeyboardInterrupt => false | _ => true end.

(** [requests.exceptions.JSONDecodeError] derives from
    [requests.RequestException]. *)
Definition is_RequestException (e : exn) : bool :=
  match e with RequestException | JSONDecodeError => true | _ => false end.

Definition is_ValueError (e : exn) : bool :=
  match e with ValueError | JSONDecodeError => true | _ => false end.

Inductive res (A : Type) : Type :=
| Ok (a : A)
| Exc (e : exn).
Arguments Ok {A} a.
Arguments Exc {A} e.

(** Decoded JSON, which is also the shape of every Python value the loop
    handles ([JNull] is [None]).  Numbers are integers: JSON numbers with a
    fractional part are outside the model. *)
Inductive json : Type :=
| JNull
| JBool (b : bool)
| JNum (z : Z)
| JStr (s : string)
| JList (l : list json)
| JObj (m : list (string * json)).

(** Python truthiness ([if x:], [not x], [x or y]). *)
Definition truthy (v : json) : bool :=
  match v with
  | JNull => false
  | JBool b => b
  | JNum z => negb (z =? 0)
  | JStr s => negb (String.eqb s "")
  | JList l => match l with [] => false | _ => true end
  | JObj m => match m with [] => false | _ => true end
  end.

(** [x or d] *)
Definition py_or (v d : json) : json := if truthy v then v else d.

Fixpoint assoc (k : string) (m : list (string * json)) : option json :=
  match m with
  | [] => None
  | (k', v) :: m' => if String.eqb k k' then Some v else assoc k m'
  end.

(** [d.get(k, default)]: only dicts have [get]. *)
Definition py_get (d : json) (k : string) (default : json) : res json :=
  match d with
  | JObj m => Ok (match assoc k m with Some v => v | None => default end)
  | _ => Exc AttributeError
  end.

(** [k in d] for a string key. *)
Definition py_contains (d : json) (k : string) : res bool :=
  match d with
  | JObj m => Ok (match assoc k m with Some _ => true | None => false end)
  | JList l =>
      Ok (existsb (fun v => match v with JStr s => String.eqb s k | _ => false end) l)
  | JStr s => Ok (match index 0 k s with Some _ => true | None => false end)
  | _ => Exc TypeError
  end.

(** [x[0]] *)
Definition py_index0 (v : json) : res json :=
  match v with
  | JList l => match l with [] => Exc IndexError | x :: _ => Ok x end
  | JStr s => match s with
              | EmptyString => Exc IndexError
              | String c _ => Ok (JStr (String c EmptyString))
              end
  | JObj _ => Exc KeyError
  | _ => Exc TypeError
  end.

(** [x["k"]] *)
Definition py_getitem (v : json) (k : string) : res json :=
  match v with
  | JObj m => match assoc k m with Some x => Ok x | None => Exc KeyError end
  | _ => Exc TypeError
  end.

Definition b2z (b : bool) : Z := if b then 1 else 0.

(** [a == b] on decoded JSON: [bool] is a subclass of [int], lists compare
    element-wise, dicts compare as maps. *)
Fixpoint py_eq (a b : json) {struct a} : bool :=
  match a, b with
  | JNull, JNull => true
  | JBool x, JBool y => Bool.eqb x y
  | JBool x, JNum n => b2z x =? n
  | JNum n, JBool y => n =? b2z y
  | JNum x, JNum y => x =? y
  | JStr x, JStr y => String.eqb x y
  | JList x, JList y =>
      (fix eql (x y : list json) {struct x} : bool :=
         match x, y with
         | [], [] => true
         | u :: x', v :: y' => py_eq u v && eql x' y'
         | _, _ => false
         end) x y
  | JObj x, JObj y =>
      (List.length x =? List.length y)%nat &&
      (fix sub (x : list (string * json)) {struct x} : bool :=
         match x with
         | [] => true
         | (k, u) :: x' =>
             match assoc k y with
             | Some v => py_eq u v
             | None => false
             end && sub x'
         end) x
  | _, _ => false
  end.

(* ================================================================= *)
(** ** Python strings
    Text is a sequence of code points below 256 (Latin-1). *)

Definition code (c : ascii) : Z := Z.of_N (N_of_ascii c).

(** [str.isspace] on one character. *)
Definition is_space (c : ascii) : bool :=
  let n := code c in
  ((9 <=? n) && (n <=? 13)) || ((28 <=? n) && (n <=? 32))
  || (n =? 133) || (n =? 160).

(** The line boundaries of [str.splitlines]. *)
Definition is_linebreak (c : ascii) : bool :=
  let n := code c in
  ((10 <=? n) && (n <=? 13)) || ((28 <=? n) && (n <=? 30)) || (n =? 133).

Fixpoint lstrip (s : list ascii) : list ascii :=
  match s with
  | [] => []
  | c :: r => if is_space c then lstrip r else s
  end.

Fixpoint rstrip (s : list ascii) : list ascii :=
  match s with
  | [] => []
  | c :: r =>
      match rstrip r with
      | [] => if is_space c then [] else [c]
      | r' => c :: r'
      end
  end.

(** [s.strip()] *)
Definition py_strip (s : list ascii) : list ascii := rstrip (lstrip s).

(** [s.splitlines()]: a carriage return directly followed by a line feed is
    one boundary; a boundary at the very end opens no further line. *)
Fixpoint splitlines (s : list ascii) : list (list ascii) :=
  match s with
  | [] => []
  | c :: r =>
      if is_linebreak c then
        [] :: match r with
              | c' :: r' =>
                  if (code c =? 13) && (code c' =? 10) then splitlines r'
                  else splitlines r
              | [] => []
              end
      else
        match splitlines r with
        | [] => [[c]]
        | l :: ls => (c :: l) :: ls
        end
  end.

Definition lower_char (c : ascii) : ascii :=
  let n := code c in
  if ((65 <=? n) && (n <=? 90))
     || ((192 <=? n) && (n <=? 222) && negb (n =? 215))
  then ascii_of_N (Z.to_N (n + 32)) else c.

(** [s.lower()] *)
Definition py_lower (s : list ascii) : list ascii := map lower_char s.

Definition chars (s : string) : list ascii := list_ascii_of_string s.

Definition list_ascii_eqb (a b : list ascii) : bool :=
  String.eqb (string_of_list_ascii a) (string_of_list_ascii b).

(** [int(s)] for a [str]: surrounding whitespace, an optional sign, decimal
    digits, single underscores between digits.  The whitespace [int] skips
    is not that of [str.strip]: the separators U+001C to U+001F are not part
    of it.  A literal of more than [INT_MAX_STR_DIGITS] digits is refused
    (the interpreter's default limit, which the program does not change). *)
Definition is_digit (c : ascii) : bool := (48 <=? code c) && (code c <=? 57).

Definition is_int_space (c : ascii) : bool :=
  let n := code c in
  ((9 <=? n) && (n <=? 13)) || (n =? 32) || (n =? 133) || (n =? 160).

Fixpoint int_lstrip (s : list ascii) : list ascii :=
  match s with
  | [] => []
  | c :: r => if is_int_space c then int_lstrip r else s
  end.

Fixpoint int_rstrip (s : list ascii) : list ascii :=
  match s with
  | [] => []
  | c :: r =>
      match int_rstrip r with
      | [] => if is_int_space c then [] else [c]
      | r' => c :: r'
      end
  end.

Definition INT_MAX_STR_DIGITS : Z := 4300.

Definition count_digits (s : list ascii) : Z :=
  Z.of_nat (List.length (filter is_digit s)).

Fixpoint parse_digits (acc : Z) (prev_digit : bool) (s : list ascii) : option Z :=
  match s with
  | [] => if prev_digit then Some acc else None
  | c :: r =>
      if is_digit c then parse_digits (10 * acc + (code c - 48)) true r
      else if code c =? 95 then
             if prev_digit then parse_digits acc false r else None
           else None
  end.

Definition int_of_str (s : string) : option Z :=
  match int_rstrip (int_lstrip (chars s)) with
  | c :: r =>
      if INT_MAX_STR_DIGITS <? count_digits (c :: r) then None
      else if code c =? 45 then option_map Z.opp (parse_digits 0 false r)
      else if code c =? 43 then parse_digits 0 false r
      else parse_digits 0 false (c :: r)
  | [] => None
  end.

(** [int(v)] *)
Definition py_int (v : json) : res Z :=
  match v with
  | JNum z => Ok z
  | JBool b => Ok (b2z b)
  | JStr s => match int_of_str s with Some z => Ok z | None => Exc ValueError end
  | _ => Exc TypeError
  end.

(* ================================================================= *)
(** ** Dates and durations *)

(** A [datetime]: microseconds since the Unix epoch of its calendar fields
    read as UTC, and whether it carries [tzinfo] (aware) or not (naive). *)
Record datetime : Type := mkDatetime { micros : Z; aware : bool }.

Definition US_PER_SECOND : Z := 1000000.
Definition US_PER_DAY : Z := 86400 * US_PER_SECOND.

(** 0001-01-01T00:00:00 and 9999-12-31T23:59:59.999999 *)
Definition DATETIME_MIN : Z := -62135596800 * US_PER_SECOND.
Definition DATETIME_MAX : Z := 253402300799 * US_PER_SECOND + 999999.
Definition TIMEDELTA_MAX_DAYS : Z := 999999999.

Definition datetime_in_range (us : Z) : bool :=
  (DATETIME_MIN <=? us) && (us <=? DATETIME_MAX).

(** [timedelta(seconds=s)] and [timedelta(days=d)], in microseconds. *)
Definition timedelta_us (us : Z) : res Z :=
  if (- TIMEDELTA_MAX_DAYS <=? us / US_PER_DAY) && (us / US_PER_DAY <=? TIMEDELTA_MAX_DAYS)
  then Ok us else Exc OverflowError.

(** [dt + td] *)
Definition datetime_add (dt : datetime) (td : Z) : res datetime :=
  if datetime_in_range (micros dt + td)
  then Ok (mkDatetime (micros dt + td) (aware dt))
  else Exc OverflowError.

(** [a - b] for two datetimes: mixing naive and aware is a [TypeError]. *)
Definition datetime_sub (a b : datetime) : res Z :=
  if Bool.eqb (aware a) (aware b) then Ok (micros a - micros b) else Exc TypeError.

(** [a > b] and [a >= b] *)
Definition datetime_gt (a b : datetime) : res bool :=
  if Bool.eqb (aware a) (aware b) then Ok (micros b <? micros a) else Exc TypeError.
Definition datetime_ge (a b : datetime) : res bool :=
  if Bool.eqb (aware a) (aware b) then Ok (micros b <=? micros a) else Exc TypeError.

(** [td.days] *)
Definition timedelta_days (td : Z) : Z := td / US_PER_DAY.

(** The longest [time.sleep] in whole seconds whose length in nanoseconds
    fits a signed 64-bit integer: (2^63 - 1) / 10^9, rounded towards zero. *)
Definition SLEEP_MAX : Z := 9223372036.

(* ================================================================= *)
(** ** Configuration ([config.ini]) *)

Record Config : Type := mkConfig {
  LASTFM_API_KEY : string;
  LASTFM_USER : string;
  CLIENT_ID : string;
  CLIENT_SECRET : string;
  REFRESH_TOKEN : string;
  SKIP_WINDOW_DAYS : Z;
  POLL_INTERVAL_SECONDS : Z;
  ENABLE_RESTART_PATTERN : bool;
  RESTART_PATTERN_SONG_COUNT : Z;
  RESTART_PATTERN_DAY_DIFF : Z;
  DUMMY_PLAYLIST_ID : string;
  REMOTE_CONTROL_URL : string
}.

(* ================================================================= *)
(** ** The outside world *)

(** The HTTP requests the program sends.  Spotify calls carry the bearer
    token they were sent with. *)
Inductive request : Type :=
| ReqToken (refresh_token : string)                (* POST accounts.spotify.com/api/token *)
| ReqCurrentlyPlaying (token : json)               (* GET  /v1/me/player/currently-playing *)
| ReqPlayer (token : json)                         (* GET  /v1/me/player *)
| ReqNext (token : json)                           (* POST /v1/me/player/next *)
| ReqPause (token : json)                          (* PUT  /v1/me/player/pause *)
| ReqPlay (token : json) (context_uri : json)      (* PUT  /v1/me/player/play *)
| ReqShuffle (token : json)                        (* PUT  /v1/me/player/shuffle?state=true *)
| ReqRemoteControl (url : string)                  (* GET  REMOTE_CONTROL_URL *)
| ReqLastfm (user : string) (artist track : json). (* GET  ws.audioscrobbler.com/2.0/ *)

(** A [requests.Response]: the status, the body as text, and what
    [r.json()] gives ([None] when the body does not decode). *)
Record response : Type := mkResponse {
  status_code : Z;
  text : string;
  json_body : option json
}.

(** What a call into [requests] can come back with. *)
Inductive outcome : Type :=
| Resp (r : response)      (* a response arrived *)
| NetFail                  (* a [requests.RequestException]: timeout, refused, bad URL *)
| Interrupted.             (* the external stop signal arrived during the call *)

(** The world answers the [n]-th effect of the run.  [gmtime_fail] is the
    platform's own limit on timestamp conversion and [sleep_refused] its
    own limit on the length of a wait; both differ between operating
    systems. *)
Record World : Type := mkWorld {
  clock : nat -> Z;                       (* [datetime.now(timezone.utc)], in microseconds *)
  http : nat -> request -> outcome;
  stop_signal : nat -> bool;              (* [KeyboardInterrupt] during a [time.sleep] *)
  gmtime_fail : Z -> option exn;
  sleep_refused : Z -> bool               (* the system call behind [time.sleep] fails *)
}.

Inductive log_msg : Type :=
| LogTokenRefreshed
| LogSpotifyUnexpectedStatus (status : Z)
| LogSkipFailed (status : Z)
| LogPauseFailed (status : Z)
| LogNoPlaybackContext (status : Z)
| LogNoPlaylistContext
| LogRestartingPlaylist (context_uri : json)
| LogPlaylistRestarted
| LogRestartFailed (e : exn)
| LogNoRemoteControlUrl
| LogRemoteControlFailed (e : exn)
| LogLastfmNetworkError
| LogLastfmUnexpectedStatus (status : Z)
| LogManuallyPaused
| LogRemoteDisabled
| LogNothingPlaying
| LogSameSong (name : json)
| LogClearingTemporaryPause
| LogCurrentlyPlaying (artist name : json)
| LogTemporarilyPaused
| LogLastScrobble (last_played : datetime) (days_since : Z)
| LogAlreadyListened (days_since : Z)
| LogPatternDetected
| LogCheckingNext
| LogOlderThanWindow
| LogNoScrobble
| LogAutoSkipperEnabled
| LogStoppedByUser
| LogUnexpectedError (e : exn).

(** What the program does to the world, newest first in the trace. *)
Inductive event : Type :=
| EvRequest (r : request)
| EvSleep (seconds : Z)
| EvLog (m : log_msg).

(* ================================================================= *)
(** ** Program state: the module globals and the loop's local ledger *)

Record St : Type := mkSt {
  tick : nat;                          (* effects performed so far *)
  trace : list event;
  SPOTIFY_TOKEN : json;
  TOKEN_EXPIRES_AT : Z;               (* always timezone-aware: microseconds, UTC *)
  skipping_paused : bool;
  temp_pause_track_id : json;
  last_checked_track_id : json;
  last_checked_timestamp : option datetime;
  recent_skip_days : list Z
}.

Definition set_tick (n : nat) (s : St) : St :=
  mkSt n (trace s) (SPOTIFY_TOKEN s) (TOKEN_EXPIRES_AT s) (skipping_paused s)
       (temp_pause_track_id s) (last_checked_track_id s) (last_checked_timestamp s)
       (recent_skip_days s).
Definition set_trace (t : list event) (s : St) : St :=
  mkSt (tick s) t (SPOTIFY_TOKEN s) (TOKEN_EXPIRES_AT s) (skipping_paused s)
       (temp_pause_track_id s) (last_checked_track_id s) (last_checked_timestamp s)
       (recent_skip_days s).
Definition set_SPOTIFY_TOKEN (v : json) (s : St) : St :=
  mkSt (tick s) (trace s) v (TOKEN_EXPIRES_AT s) (skipping_paused s)
       (temp_pause_track_id s) (last_checked_track_id s) (last_checked_timestamp s)
       (recent_skip_days s).
Definition set_TOKEN_EXPIRES_AT (d : Z) (s : St) : St :=
  mkSt (tick s) (trace s) (SPOTIFY_TOKEN s) d (skipping_paused s)
       (temp_pause_track_id s) (last_checked_track_id s) (last_checked_timestamp s)
       (recent_skip_days s).
Definition set_temp_pause_track_id (v : json) (s : St) : St :=
  mkSt (tick s) (trace s) (SPOTIFY_TOKEN s) (TOKEN_EXPIRES_AT s) (skipping_paused s)
       v (last_checked_track_id s) (last_checked_timestamp s) (recent_skip_days s).
Definition set_last_checked_track_id (v : json) (s : St) : St :=
  mkSt (tick s) (trace s) (SPOTIFY_TOKEN s) (TOKEN_EXPIRES_AT s) (skipping_paused s)
       (temp_pause_track_id s) v (last_checked_timestamp s) (recent_skip_days s).
Definition set_last_checked_timestamp (d : datetime) (s : St) : St :=
  mkSt (tick s) (trace s) (SPOTIFY_TOKEN s) (TOKEN_EXPIRES_AT s) (skipping_paused s)
       (temp_pause_track_id s) (last_checked_track_id s) (Some d) (recent_skip_days s).
Definition set_recent_skip_days (l : list Z) (s : St) : St :=
  mkSt (tick s) (trace s) (SPOTIFY_TOKEN s) (TOKEN_EXPIRES_AT s) (skipping_paused s)
       (temp_pause_track_id s) (last_checked_track_id s) (last_checked_timestamp s) l.

(* ================================================================= *)
(** ** The monad: state threaded through, exceptions as results *)

Definition M (A : Type) : Type := St -> res A * St.

Definition ret {A} (a : A) : M A := fun s => (Ok a, s).
Definition raise {A} (e : exn) : M A := fun s => (Exc e, s).
Definition bind {A B} (m : M A) (k : A -> M B) : M B :=
  fun s => match m s with
           | (Ok a, s') => k a s'
           | (Exc e, s') => (Exc e, s')
           end.
Definition lift {A} (r : res A) : M A := fun s => (r, s).
Definition gets {A} (f : St -> A) : M A := fun s => (Ok (f s), s).
Definition modify (f : St -> St) : M unit := fun s => (Ok tt, f s).

(** [try: m  except <caught> as e: h e] *)
Definition try_except {A} (m : M A) (caught : exn -> bool) (h : exn -> M A) : M A :=
  fun s => match m s with
           | (Ok a, s') => (Ok a, s')
           | (Exc e, s') => if caught e then h e s' else (Exc e, s')
           end.

Declare Scope monad_scope.
Delimit Scope monad_scope with monad.
Notation "x <- m ;; k" := (bind m (fun x => k))
  (at level 61, m at next level, right associativity) : monad_scope.
Notation "m ;; k" := (bind m (fun _ => k))
  (at level 61, right associativity) : monad_scope.
Local Open Scope monad_scope.

Definition emit (e : event) : M unit :=
  modify (fun s => set_trace (e :: trace s) s).
Definition step : M nat :=
  fun s => (Ok (tick s), set_tick (S (tick s)) s).

(** [print(...)]: the timestamp prefix of the wrapped [print] is left out. *)
Definition print (m : log_msg) : M unit := emit (EvLog m).

(** The dict [get_current_track] builds: exactly these three keys. *)
Record track : Type := mkTrack {
  track_id : json;       (* ["id"] *)
  track_name : json;     (* ["name"] *)
  artist_name : json     (* ["artist"] *)
}.

(** How one pass through the [try] block of the loop ends. *)
Inductive body_exit : Type :=
| ViaContinue       (* a [continue] statement: straight to the next cycle *)
| FallThrough.      (* the end of the [try] block: the standard pause follows *)

Inductive loop_ctl : Type := Continue | Break.

Inductive loop_end : Type :=
| Stopped           (* the loop left through [break] *)
| StillRunning.     (* the cycles asked for have run and the loop goes on *)

(** [max(l) - min(l)], which raises on an empty list. *)
Definition list_max (x : Z) (l : list Z) : Z := fold_left Z.max l x.
Definition list_min (x : Z) (l : list Z) : Z := fold_left Z.min l x.
Definition spread (l : list Z) : res Z :=
  match l with
  | [] => Exc ValueError
  | x :: r => Ok (list_max x r - list_min x r)
  end.

Section Program.

Variable w : World.
Variable cfg : Config.

(* ----------------------------------------------------------------- *)
(** *** Effects *)

(** [datetime.now(timezone.utc)] *)
Definition now : M datetime :=
  n <- step ;; ret (mkDatetime (clock w n) true).

(** [requests.get/post/put(..., timeout=...)] *)
Definition http_call (req : request) : M response :=
  emit (EvRequest req) ;;
  n <- step ;;
  match http w n req with
  | Resp r => ret r
  | NetFail => raise RequestException
  | Interrupted => raise KeyboardInterrupt
  end.

(** [time.sleep(seconds)] for an [int]: the event records the call.  The
    length is first converted to a signed 64-bit count of nanoseconds
    ([OverflowError] when it does not fit), then a negative length is
    rejected ([ValueError]); the wait itself can be refused by the platform
    ([OSError]) or be cut short by the stop signal. *)
Definition sleep (seconds : Z) : M unit :=
  emit (EvSleep seconds) ;;
  if (seconds <? - SLEEP_MAX) || (SLEEP_MAX <? seconds) then raise OverflowError
  else if seconds <? 0 then raise ValueError
  else if sleep_refused w seconds then raise OSError
  else n <- step ;;
       if stop_signal w n then raise KeyboardInterrupt else ret tt.

(** [r.json()] *)
Definition resp_json (r : response) : M json :=
  match json_body r with
  | Some v => ret v
  | None => raise JSONDecodeError
  end.

(** [datetime.fromtimestamp(ts, tz=timezone.utc)] and
    [datetime.utcfromtimestamp(ts)]: the same calendar fields, with and
    without [tzinfo]. *)
Definition fromtimestamp (ts : Z) (tz_utc : bool) : M datetime :=
  match gmtime_fail w ts with
  | Some e => raise e
  | None =>
      if datetime_in_range (ts * US_PER_SECOND)
      then ret (mkDatetime (ts * US_PER_SECOND) tz_utc)
      else raise ValueError
  end.
Definition datetime_fromtimestamp_utc (ts : Z) : M datetime := fromtimestamp ts true.
Definition datetime_utcfromtimestamp (ts : Z) : M datetime := fromtimestamp ts false.

Definition status_ok (st : Z) : bool := (st =? 200) || (st =? 202) || (st =? 204).

(* ----------------------------------------------------------------- *)
(** *** Token manager (lines 267-324) *)

Definition refresh_access_token : M unit :=
  r <- http_call (ReqToken (REFRESH_TOKEN cfg)) ;;
  if negb (status_code r =? 200) then raise RuntimeError
  else
    data <- resp_json r ;;
    has <- lift (py_contains data "access_token") ;;
    if negb has then raise RuntimeError
    else
      tok <- lift (py_getitem data "access_token") ;;
      modify (set_SPOTIFY_TOKEN tok) ;;
      e <- lift (py_get data "expires_in" (JNum 3600)) ;;
      expires_in <- lift (py_int e) ;;
      n <- now ;;
      td <- lift (timedelta_us (Z.max 0 (expires_in - 100) * US_PER_SECOND)) ;;
      exp <- lift (datetime_add n td) ;;
      modify (set_TOKEN_EXPIRES_AT (micros exp)) ;;
      print LogTokenRefreshed.

Definition is_None (v : json) : bool :=
  match v with JNull => true | _ => false end.

Definition get_spotify_token : M json :=
  tok <- gets SPOTIFY_TOKEN ;;
  expired <- (if is_None tok then ret true
              else n <- now ;;
                   exp <- gets TOKEN_EXPIRES_AT ;;
                   ret (exp <=? micros n)) ;;
  (if expired then refresh_access_token else ret tt) ;;
  gets SPOTIFY_TOKEN.

(** [spotify_get], [spotify_post], [spotify_put]: a token first, then the
    call.  The endpoint is the request constructor. *)
Definition spotify_get (endpoint : json -> request) : M response :=
  token <- get_spotify_token ;; http_call (endpoint token).
Definition spotify_post (endpoint : json -> request) : M response :=
  token <- get_spotify_token ;; http_call (endpoint token).
Definition spotify_put (endpoint : json -> request) : M response :=
  token <- get_spotify_token ;; http_call (endpoint token).

(* ----------------------------------------------------------------- *)
(** *** Playback client (lines 373-467) *)

Definition get_current_track : M (option track) :=
  r <- spotify_get ReqCurrentlyPlaying ;;
  if status_code r =? 204 then ret None
  else if negb (status_code r =? 200) then
    print (LogSpotifyUnexpectedStatus (status_code r)) ;; ret None
  else
    j <- resp_json r ;;
    let data := py_or j (JObj []) in
    item <- lift (py_get data "item" JNull) ;;
    if negb (truthy item) then ret None
    else
      a <- lift (py_get item "artists" JNull) ;;
      let artists := py_or a (JList []) in
      artist_name <- (if truthy artists
                      then a0 <- lift (py_index0 artists) ;; lift (py_getitem a0 "name")
                      else ret JNull) ;;
      track_name <- lift (py_get item "name" JNull) ;;
      track_id <- lift (py_get item "id" JNull) ;;
      if truthy track_id && truthy artist_name && truthy track_name
      then ret (Some (mkTrack track_id track_name artist_name))
      else ret None.

Definition skip_current_track : M unit :=
  r <- spotify_post ReqNext ;;
  if negb (status_ok (status_code r))
  then print (LogSkipFailed (status_code r))
  else ret tt.

Definition is_spotify_paused : M bool :=
  r <- spotify_get ReqPlayer ;;
  if negb (status_code r =? 200) then ret false
  else
    j <- resp_json r ;;
    let data := py_or j (JObj []) in
    playing <- lift (py_get data "is_playing" (JBool true)) ;;
    ret (negb (truthy playing)).

Definition pause_spotify_playback : M unit :=
  token <- get_spotify_token ;;
  r <- http_call (ReqPause token) ;;
  if negb (status_ok (status_code r))
  then print (LogPauseFailed (status_code r))
  else ret tt.

Definition restart_playlist : M unit :=
  try_except
    (r <- spotify_get ReqCurrentlyPlaying ;;
     if negb (status_code r =? 200) then print (LogNoPlaybackContext (status_code r))
     else
       data <- resp_json r ;;
       context <- lift (py_get data "context" (JObj [])) ;;
       context_uri <- lift (py_get context "uri" JNull) ;;
       if negb (truthy context_uri) then print LogNoPlaylistContext
       else
         print (LogRestartingPlaylist context_uri) ;;
         spotify_put (fun token =>
           ReqPlay token (JStr ("spotify:playlist:" ++ DUMMY_PLAYLIST_ID cfg))) ;;
         sleep 1 ;;
         spotify_put ReqShuffle ;;
         sleep 1 ;;
         spotify_put (fun token => ReqPlay token context_uri) ;;
         print LogPlaylistRestarted)
    is_Exception
    (fun e => print (LogRestartFailed e)).

(* ----------------------------------------------------------------- *)
(** *** Remote-control gate (lines 469-480) *)

Definition is_skipping_enabled : M bool :=
  if String.eqb (REMOTE_CONTROL_URL cfg) "" then
    print LogNoRemoteControlUrl ;; ret true
  else
    try_except
      (r <- http_call (ReqRemoteControl (REMOTE_CONTROL_URL cfg)) ;;
       match splitlines (py_strip (chars (text r))) with
       | [] => raise IndexError
       | line :: _ =>
           let first_line := py_lower (py_strip line) in
           ret (list_ascii_eqb first_line (chars "on"))
       end)
      is_Exception
      (fun e => print (LogRemoteControlFailed e) ;; ret true).

(* ----------------------------------------------------------------- *)
(** *** History client (lines 486-546) *)

(** One of the two timestamp branches: [Some result] when the branch
    returns, [None] when control falls out of it. *)
Definition parse_uts (record : json) (convert : Z -> M datetime)
  : M (option (option datetime)) :=
  date_obj <- lift (py_get record "date" (JObj [])) ;;
  uts <- lift (py_get date_obj "uts" JNull) ;;
  if truthy uts then
    try_except
      (ts <- lift (py_int uts) ;; d <- convert ts ;; ret (Some (Some d)))
      is_ValueError
      (fun _ => ret (Some None))
  else ret None.

Definition isinstance_list (v : json) : bool :=
  match v with JList _ => true | _ => false end.
Definition isinstance_dict (v : json) : bool :=
  match v with JObj _ => true | _ => false end.

Definition get_last_play_date (artist track : json) : M (option datetime) :=
  got <- try_except
           (r <- http_call (ReqLastfm (LASTFM_USER cfg) artist track) ;; ret (Some r))
           is_RequestException
           (fun _ => print LogLastfmNetworkError ;; ret None) ;;
  match got with
  | None => ret None
  | Some r =>
      if negb (status_code r =? 200) then
        print (LogLastfmUnexpectedStatus (status_code r)) ;; ret None
      else
        j <- resp_json r ;;
        let data := py_or j (JObj []) in
        trackscrobbles <- lift (py_get data "trackscrobbles" (JObj [])) ;;
        scrobbles <- lift (py_get trackscrobbles "track" JNull) ;;
        if negb (truthy scrobbles) then ret None
        else
          from_list <- (if isinstance_list scrobbles then
                          latest <- lift (py_index0 scrobbles) ;;
                          parse_uts latest datetime_fromtimestamp_utc
                        else ret None) ;;
          match from_list with
          | Some result => ret result
          | None =>
              from_dict <- (if isinstance_dict scrobbles then
                              parse_uts scrobbles datetime_utcfromtimestamp
                            else ret None) ;;
              match from_dict with
              | Some result => ret result
              | None => ret None
              end
          end
  end.

(* ----------------------------------------------------------------- *)
(** *** Pattern detector (lines 636-648) *)

(** [recent_skip_days.append(days_since)], then [pop(0)] past capacity. *)
Definition ledger_push (ledger : list Z) (days_since : Z) : list Z :=
  let l := (ledger ++ [days_since])%list in
  if Z.of_nat (List.length l) >? RESTART_PATTERN_SONG_COUNT cfg then tl l else l.

(** The detection test of lines 642-645; [and] does not evaluate its
    right-hand side when the length differs. *)
Definition is_repeating (ledger : list Z) : res bool :=
  if Z.of_nat (List.length ledger) =? RESTART_PATTERN_SONG_COUNT cfg then
    match spread ledger with
    | Ok d => Ok (d <=? RESTART_PATTERN_DAY_DIFF cfg)
    | Exc e => Exc e
    end
  else Ok false.

Definition track_skip_pattern (days_since : Z) : M unit :=
  if ENABLE_RESTART_PATTERN cfg then
    modify (fun s => set_recent_skip_days (ledger_push (recent_skip_days s) days_since) s) ;;
    ledger <- gets recent_skip_days ;;
    repeating <- lift (is_repeating ledger) ;;
    if repeating then
      print LogPatternDetected ;;
      restart_playlist ;;
      modify (set_recent_skip_days [])
    else ret tt
  else ret tt.

(* ----------------------------------------------------------------- *)
(** *** Decision loop (lines 552-670) *)

(** Line 584: [not track or not track.get('artist') or not track.get('id')] *)
Definition nothing_playing (t : option track) : bool :=
  match t with
  | None => true
  | Some tr => negb (truthy (artist_name tr)) || negb (truthy (track_id tr))
  end.

(** Line 590: [not track['artist'] or not track['id']] *)
Definition invalid_track (tr : track) : bool :=
  negb (truthy (artist_name tr)) || negb (truthy (track_id tr)).

(** Lines 569-615, up to the history lookup.  [None]: the cycle ended in
    one of the [continue] statements, after its sleep.  [Some tr]: [tr] is
    a newly observed track that goes on to the lookup. *)
Definition poll_track : M (option track) :=
  let POLL := POLL_INTERVAL_SECONDS cfg in
  paused <- gets skipping_paused ;;
  if paused then
    print LogManuallyPaused ;; sleep POLL ;; ret None
  else
    enabled <- is_skipping_enabled ;;
    if negb enabled then
      print LogRemoteDisabled ;; sleep POLL ;; ret None
    else
      t <- get_current_track ;;
      if nothing_playing t then
        print LogNothingPlaying ;; sleep POLL ;; ret None
      else
        match t with
        | None => raise TypeError
        | Some tr =>
            if invalid_track tr then sleep POLL ;; ret None
            else
              last <- gets last_checked_track_id ;;
              if py_eq (track_id tr) last then
                print (LogSameSong (track_name tr)) ;; sleep POLL ;; ret None
              else
                modify (set_last_checked_track_id (track_id tr)) ;;
                n <- now ;;
                modify (set_last_checked_timestamp n) ;;
                tp <- gets temp_pause_track_id ;;
                (if truthy tp && negb (py_eq tp (track_id tr)) then
                   print LogClearingTemporaryPause ;;
                   modify (set_temp_pause_track_id JNull)
                 else ret tt) ;;
                print (LogCurrentlyPlaying (artist_name tr) (track_name tr)) ;;
                tp' <- gets temp_pause_track_id ;;
                if py_eq tp' (track_id tr) then
                  print LogTemporarilyPaused ;; sleep POLL ;; ret None
                else ret (Some tr)
        end.

(** Lines 628-653: the skip branch. *)
Definition skip_branch (days_since : Z) : M body_exit :=
  print (LogAlreadyListened days_since) ;;
  was_paused <- is_spotify_paused ;;
  skip_current_track ;;
  (if was_paused then sleep 1 ;; pause_spotify_playback else ret tt) ;;
  track_skip_pattern days_since ;;
  sleep 5 ;;
  print LogCheckingNext ;;
  ret ViaContinue.

(** Lines 619-657: the decision on the result of the lookup. *)
Definition evaluate_track (last_played : option datetime) : M body_exit :=
  match last_played with
  | Some lp =>
      n1 <- now ;;
      since <- lift (datetime_sub n1 lp) ;;
      let days_since := timedelta_days since in
      print (LogLastScrobble lp days_since) ;;
      n2 <- now ;;
      window <- lift (timedelta_us (SKIP_WINDOW_DAYS cfg * US_PER_DAY)) ;;
      cutoff <- lift (datetime_add n2 (- window)) ;;
      recent <- lift (datetime_gt lp cutoff) ;;
      if recent then skip_branch days_since
      else print LogOlderThanWindow ;; ret FallThrough
  | None => print LogNoScrobble ;; ret FallThrough
  end.

(** The [try] block of one cycle. *)
Definition loop_body : M body_exit :=
  observed <- poll_track ;;
  match observed with
  | None => ret ViaContinue
  | Some tr =>
      last_played <- get_last_play_date (artist_name tr) (track_name tr) ;;
      evaluate_track last_played
  end.

(** One cycle of [while True]: the [try] block, its two handlers, and the
    standard pause of line 670, which a [continue] bypasses. *)
Definition main_loop_cycle : M loop_ctl :=
  fun s =>
    match loop_body s with
    | (Ok ViaContinue, s') => (Ok Continue, s')
    | (Ok FallThrough, s') =>
        (sleep (POLL_INTERVAL_SECONDS cfg) ;; ret Continue) s'
    | (Exc KeyboardInterrupt, s') =>
        (print LogStoppedByUser ;; ret Break) s'
    | (Exc e, s') =>
        (print (LogUnexpectedError e) ;;
         sleep (POLL_INTERVAL_SECONDS cfg) ;;
         sleep (POLL_INTERVAL_SECONDS cfg) ;;
         ret Continue) s'
    end.

Fixpoint run_cycles (cycles : nat) : M loop_end :=
  match cycles with
  | O => ret StillRunning
  | S n =>
      c <- main_loop_cycle ;;
      match c with
      | Break => ret Stopped
      | Continue => run_cycles n
      end
  end.

(** [main_loop], observed for a number of cycles. *)
Definition main_loop (cycles : nat) : M loop_end :=
  modify (set_recent_skip_days []) ;;
  print LogAutoSkipperEnabled ;;
  run_cycles cycles.

End Program.

(* ================================================================= *)
(** ** Vocabulary of the statements *)

(** The part of the state the decision loop decides with: everything but
    the token cache, the effect counter and the trace. *)
Definition decision (s : St) :=
  (skipping_paused s, temp_pause_track_id s, last_checked_track_id s,
   last_checked_timestamp s, recent_skip_days s).

(** The events issued between [s] and a later state [s'], newest first. *)
Definition new_events (s s' : St) : list event :=
  firstn (List.length (trace s') - List.length (trace s)) (trace s').

(** Between [s] and [s'] only events in [allowed] were issued and, when
    [frozen], the decision state did not change. *)
Definition rel (allowed : event -> bool) (frozen : bool) (s s' : St) : Prop :=
  (exists evs, trace s' = (evs ++ trace s)%list /\ forallb allowed evs = true)
  /\ (frozen = true -> decision s' = decision s).

Definition keeps (allowed : event -> bool) (frozen : bool) {A} (m : M A) : Prop :=
  forall s, rel allowed frozen s (snd (m s)).

(** The trace of [s'] extends the trace of [s]. *)
Definition grows (s s' : St) : Prop :=
  exists evs, trace s' = (evs ++ trace s)%list.

Definition is_skip_request (e : event) : bool :=
  match e with EvRequest (ReqNext _) => true | _ => false end.
Definition is_lookup_request (e : event) : bool :=
  match e with EvRequest (ReqLastfm _ _ _) => true | _ => false end.
Definition is_pause_request (e : event) : bool :=
  match e with EvRequest (ReqPause _) => true | _ => false end.
Definition is_refresh_request (e : event) : bool :=
  match e with EvRequest (ReqToken _) => true | _ => false end.
Definition is_skip_decision (e : event) : bool :=
  match e with EvLog (LogAlreadyListened _) => true | _ => false end.
Definition is_pattern_alarm (e : event) : bool :=
  match e with EvLog LogPatternDetected => true | _ => false end.

(** The two events that mark a skip: the decision message of line 628 and
    the skip command itself. *)
Definition no_skip_event (e : event) : bool :=
  negb (is_skip_request e) && negb (is_skip_decision e).

Definition not_pause (e : event) : bool := negb (is_pause_request e).

(** Footprints: the events each function can issue. *)
Definition fp_none (e : event) : bool := false.
Definition fp_all (e : event) : bool := true.
Definition fp_token (e : event) : bool :=
  match e with
  | EvRequest (ReqToken _) | EvLog LogTokenRefreshed => true
  | _ => false
  end.
Definition fp_current_track (e : event) : bool :=
  fp_token e ||
  match e with
  | EvRequest (ReqCurrentlyPlaying _) | EvLog (LogSpotifyUnexpectedStatus _) => true
  | _ => false
  end.
Definition fp_skip (e : event) : bool :=
  fp_token e ||
  match e with
  | EvRequest (ReqNext _) | EvLog (LogSkipFailed _) => true
  | _ => false
  end.
Definition fp_player (e : event) : bool :=
  fp_token e || match e with EvRequest (ReqPlayer _) => true | _ => false end.
Definition fp_pause (e : event) : bool :=
  fp_token e ||
  match e with
  | EvRequest (ReqPause _) | EvLog (LogPauseFailed _) => true
  | _ => false
  end.
Definition fp_restart (e : event) : bool :=
  fp_token e ||
  match e with
  | EvRequest (ReqCurrentlyPlaying _) | EvRequest (ReqPlay _ _)
  | EvRequest (ReqShuffle _) | EvSleep _
  | EvLog (LogNoPlaybackContext _) | EvLog LogNoPlaylistContext
  | EvLog (LogRestartingPlaylist _) | EvLog LogPlaylistRestarted
  | EvLog (LogRestartFailed _) => true
  | _ => false
  end.
Definition fp_remote (e : event) : bool :=
  match e with
  | EvRequest (ReqRemoteControl _) | EvLog LogNoRemoteControlUrl
  | EvLog (LogRemoteControlFailed _) => true
  | _ => false
  end.
Definition fp_lastfm (e : event) : bool :=
  match e with
  | EvRequest (ReqLastfm _ _ _) | EvLog LogLastfmNetworkError
  | EvLog (LogLastfmUnexpectedStatus _) => true
  | _ => false
  end.
Definition fp_poll (e : event) : bool :=
  fp_remote e || fp_current_track e ||
  match e with
  | EvSleep _
  | EvLog LogManuallyPaused | EvLog LogRemoteDisabled | EvLog LogNothingPlaying
  | EvLog (LogSameSong _) | EvLog LogClearingTemporaryPause
  | EvLog (LogCurrentlyPlaying _ _) | EvLog LogTemporarilyPaused => true
  | _ => false
  end.
Definition fp_pattern (e : event) : bool :=
  fp_restart e || is_pattern_alarm e.


(** Recording a run of skips one after the other, as a chain of skipped
    tracks does. *)
Fixpoint feed_skips (w : World) (cfg : Config) (days : list Z) : M unit :=
  match days with
  | [] => ret tt
  | d :: rest => bind (track_skip_pattern w cfg d) (fun _ => feed_skips w cfg rest)
  end.

(** The detector fired while recording one skip: the pattern alarm is among
    the events of that step (it is printed right before the restart). *)
Definition pattern_fired (w : World) (cfg : Config) (d : Z) (s : St) : bool :=
  existsb is_pattern_alarm (new_events s (snd (track_skip_pattern w cfg d s))).

(** The text up to the first line boundary. *)
Fixpoint first_line (s : list ascii) : list ascii :=
  match s with
  | [] => []
  | c :: r => if is_linebreak c then [] else c :: first_line r
  end.

Definition is_blank (line : list ascii) : bool :=
  match py_strip line with [] => true | _ => false end.

(** Following the specification's words for the remote-control gate: "the
    first non-empty line of the response body".  A line counts as empty when
    it holds nothing but whitespace, and it is read without the whitespace
    around it. *)
Definition first_nonempty_line (body : list ascii) : option (list ascii) :=
  match filter (fun line => negb (is_blank line)) (splitlines body) with
  | [] => None
  | line :: _ => Some (py_strip line)
  end.

(** Following the specification's words: that line, lowercased, must equal
    [on] to permit skipping; a response without such a line cannot be read
    and is treated as enabled. *)
Definition gate_permits (body : string) : bool :=
  match first_nonempty_line (chars body) with
  | Some line => list_ascii_eqb (py_lower line) (chars "on")
  | None => true
  end.

(** The scrobble field of a decoded Last.fm answer, as lines 517-519 read
    it. *)
Definition scrobbles_of (j : json) : res json :=
  match py_get (py_or j (JObj [])) "trackscrobbles" (JObj []) with
  | Ok trackscrobbles => py_get trackscrobbles "track" JNull
  | Exc e => Exc e
  end.

(** The decision of lines 619-627, for a lookup that returned at state
    [s2]: the clock is read once for [days_since] and once more for the
    cutoff. *)
Definition days_since_at (w : World) (s2 : St) (lp : datetime) : Z :=
  timedelta_days (clock w (tick s2) - micros lp).
Definition cutoff_us (w : World) (cfg : Config) (s2 : St) : Z :=
  clock w (S (tick s2)) - SKIP_WINDOW_DAYS cfg * US_PER_DAY.

(** The state in which the comparison of line 627 is made, and the state
    in which the skip branch starts its playback calls. *)
Definition scrobble_logged (w : World) (s2 : St) (lp : datetime) : St :=
  set_trace (EvLog (LogLastScrobble lp (days_since_at w s2 lp)) :: trace s2)
            (set_tick (S (S (tick s2))) s2).
Definition skip_branch_entry (w : World) (s2 : St) (lp : datetime) : St :=
  set_trace (EvLog (LogAlreadyListened (days_since_at w s2 lp))
               :: trace (scrobble_logged w s2 lp))
            (scrobble_logged w s2 lp).

(** C1 as the specification states it: whenever the lookup returns a
    timestamp, a skip is issued in that cycle iff the timestamp is strictly
    after now minus the window. *)
Definition claim_skip_iff_recent (w : World) (cfg : Config) (s : St) : Prop :=
  forall tr s1 lp s2,
    poll_track w cfg s = (Ok (Some tr), s1) ->
    get_last_play_date w cfg (artist_name tr) (track_name tr) s1 = (Ok (Some lp), s2) ->
    (existsb is_skip_request (new_events s (snd (main_loop_cycle w cfg s))) = true
     <-> cutoff_us w cfg s2 < micros lp).

(** C8 as the specification states it: in the skip branch the pause
    command is issued iff playback was observed paused before the skip. *)
Definition claim_repause_iff_paused (w : World) (cfg : Config) (d : Z) (s : St) : Prop :=
  forall paused s1,
    bind (print (LogAlreadyListened d)) (fun _ => is_spotify_paused w cfg) s
      = (Ok paused, s1) ->
    (existsb is_pause_request (new_events s (snd (skip_branch w cfg d s))) = true
     <-> paused = true).

(** A field that a response does not carry: the key is missing, or its
    value is [null] or empty. *)
Definition lacks (o : option json) : bool :=
  match o with
  | Some v => negb (truthy v)
  | None => true
  end.

(** The artist of a currently-playing item, as the response carries it:
    the name of the first listed artist. *)
Definition listed_artist (item : list (string * json)) : option json :=
  match assoc "artists" item with
  | Some (JList (JObj first :: _)) => assoc "name" first
  | _ => None
  end.

(** The parenthesis of C10 as the specification states it: a 200 answer
    whose item is missing its id, its name or its artist yields [None]. *)
Definition claim_missing_field_yields_none (w : World) (cfg : Config) (s : St) : Prop :=
  forall tok s1 r m item,
    get_spotify_token w cfg s = (Ok tok, s1) ->
    http w (tick s1) (ReqCurrentlyPlaying tok) = Resp r ->
    status_code r = 200 ->
    json_body r = Some (JObj m) ->
    assoc "item" m = Some (JObj item) ->
    (lacks (assoc "id" item) || lacks (assoc "name" item) || lacks (listed_artist item)) = true ->
    fst (get_current_track w cfg s) = Ok None.

(** What stops [time.sleep(n)] before it starts to wait, if anything. *)
Definition sleep_error (w : World) (n : Z) : option exn :=
  if (n <? - SLEEP_MAX) || (SLEEP_MAX <? n) then Some OverflowError
  else if n <? 0 then Some ValueError
  else if sleep_refused w n then Some OSError
  else None.

(** [time.sleep(n)] starts to wait: the interpreter accepts the length
    (not negative, at most [SLEEP_MAX]) and the platform does not refuse
    it. *)
Definition sleepable (w : World) (n : Z) : Prop :=
  0 <= n <= SLEEP_MAX /\ sleep_refused w n = false.

(* ================================================================= *)
(** ** Sample configuration, worlds and states
    Concrete inputs at which the theorems below are exercised. *)

(** The fallbacks of [config.ini], with a remote-control URL set. *)
Definition sample_config : Config :=
  mkConfig "api-key" "listener" "client-id" "client-secret" "refresh-token"
           60 120 true 5 2 "37i9dQZF1DX0XUsuxWHRQd"
           "https://example.org/remote_control.txt".

Definition json_response (j : json) : outcome := Resp (mkResponse 200 "" (Some j)).
Definition text_response (t : string) : outcome := Resp (mkResponse 200 t None).
Definition no_content : outcome := Resp (mkResponse 204 "" None).

(** 2023-11-14T22:13:20Z *)
Definition SAMPLE_NOW : Z := 1700000000 * US_PER_SECOND.

Definition sample_playing : json :=
  JObj [("item", JObj [("artists", JList [JObj [("name", JStr "Skyforest")]]);
                       ("name", JStr "Heart of the Forest");
                       ("id", JStr "6HD0bX8N8Yd7Ij3mAjI93y")])].

Definition sample_track : track :=
  mkTrack (JStr "6HD0bX8N8Yd7Ij3mAjI93y") (JStr "Heart of the Forest") (JStr "Skyforest").

(** The two shapes in which Last.fm delivers one scrobble. *)
Definition scrobble_record (uts : json) : json := JObj [("date", JObj [("uts", uts)])].
Definition scrobbles_as_list (uts : json) : json :=
  JObj [("trackscrobbles", JObj [("track", JList [scrobble_record uts])])].
Definition scrobbles_as_dict (uts : json) : json :=
  JObj [("trackscrobbles", JObj [("track", scrobble_record uts)])].

(** What each peer answers in a sample world. *)
Record script : Type := mkScript {
  on_token : outcome;
  on_remote_control : outcome;
  on_currently_playing : outcome;
  on_player : outcome;
  on_next : outcome;
  on_lastfm : outcome
}.

Definition scripted_world (sc : script) : World :=
  mkWorld (fun _ => SAMPLE_NOW)
          (fun _ req =>
             match req with
             | ReqToken _ => on_token sc
             | ReqRemoteControl _ => on_remote_control sc
             | ReqCurrentlyPlaying _ => on_currently_playing sc
             | ReqPlayer _ => on_player sc
             | ReqNext _ => on_next sc
             | ReqLastfm _ _ _ => on_lastfm sc
             | _ => no_content
             end)
          (fun _ => false)
          (fun _ => None)
          (fun _ => false).

(** Everything answers; the player is paused; the track was scrobbled
    [1000000] seconds (eleven days) ago. *)
Definition calm_script : script :=
  mkScript (json_response (JObj [("access_token", JStr "BQD-token"); ("expires_in", JNum 3600)]))
           (text_response "on")
           (json_response sample_playing)
           (json_response (JObj [("is_playing", JBool false)]))
           no_content
           (json_response (scrobbles_as_list (JStr "1699000000"))).

Definition with_lastfm (o : outcome) (sc : script) : script :=
  mkScript (on_token sc) (on_remote_control sc) (on_currently_playing sc)
           (on_player sc) (on_next sc) o.
Definition with_player (o : outcome) (sc : script) : script :=
  mkScript (on_token sc) (on_remote_control sc) (on_currently_playing sc)
           o (on_next sc) (on_lastfm sc).
Definition with_next (o : outcome) (sc : script) : script :=
  mkScript (on_token sc) (on_remote_control sc) (on_currently_playing sc)
           (on_player sc) o (on_lastfm sc).
Definition with_currently_playing (o : outcome) (sc : script) : script :=
  mkScript (on_token sc) (on_remote_control sc) o
           (on_player sc) (on_next sc) (on_lastfm sc).

Definition calm_world : World := scripted_world calm_script.

(** The first listed artist comes without a name. *)
Definition nameless_artist_playing : json :=
  JObj [("item", JObj [("artists", JList [JObj [("id", JStr "0OdUWJ0sBjDrqHygGUXeCF")]]);
                       ("name", JStr "Heart of the Forest");
                       ("id", JStr "6HD0bX8N8Yd7Ij3mAjI93y")])].
Definition nameless_artist_world : World :=
  scripted_world (with_currently_playing (json_response nameless_artist_playing) calm_script).

(** A local file is playing: the item carries [null] for its id. *)
Definition local_file_playing : json :=
  JObj [("item", JObj [("artists", JList [JObj [("name", JStr "Skyforest")]]);
                       ("name", JStr "Heart of the Forest");
                       ("id", JNull)])].
Definition local_file_world : World :=
  scripted_world (with_currently_playing (json_response local_file_playing) calm_script).

(** The state right after start-up: no token, nothing checked yet. *)
Definition fresh_state : St := mkSt 0 [] JNull SAMPLE_NOW false JNull JNull None [].

(** A state holding a token that is good for another hour. *)
Definition warm_state : St :=
  mkSt 0 [] (JStr "BQD-token") (SAMPLE_NOW + 3500 * US_PER_SECOND)
       false JNull JNull None [].

(** A ledger one short of the default capacity, all within two days. *)
Definition nearly_full_state : St :=
  mkSt 0 [] (JStr "BQD-token") (SAMPLE_NOW + 3500 * US_PER_SECOND)
       false JNull JNull None [3; 4; 5; 4].

Definition with_remote_control (o : outcome) (sc : script) : script :=
  mkScript (on_token sc) o (on_currently_playing sc)
           (on_player sc) (on_next sc) (on_lastfm sc).

(** A control file that says OFF after a blank line, with Windows line
    ends. *)
Definition remote_off_body : string :=
  String "013" (String "010" ("  Off " ++ String "013" (String "010" "on"))).

Definition remote_off_world : World :=
  scripted_world (with_remote_control (text_response remote_off_body) calm_script).

Definition remote_down_world : World :=
  scripted_world (with_remote_control NetFail calm_script).

(** The state after one cycle on the sample track: it is now the last
    checked one. *)
Definition after_first_poll : St :=
  mkSt 0 [] (JStr "BQD-token") (SAMPLE_NOW + 3500 * US_PER_SECOND)
       false JNull (JStr "6HD0bX8N8Yd7Ij3mAjI93y") None [].

(** Last.fm knows no scrobble of the track. *)
Definition never_played_world : World :=
  scripted_world
    (with_lastfm (json_response (JObj [("trackscrobbles", JObj [("track", JList [])])]))
       calm_script).

(** Last.fm delivers the same scrobble as a single object instead of a
    list. *)
Definition single_object_world : World :=
  scripted_world
    (with_lastfm (json_response (scrobbles_as_dict (JStr "1699000000"))) calm_script).

(** The playback API cannot be reached when the current track is asked
    for. *)
Definition unreachable_player_world : World :=
  scripted_world (with_currently_playing NetFail calm_script).

(** The pause-state query cannot be reached. *)
Definition pause_query_down_world : World :=
  scripted_world (with_player NetFail calm_script).

(** The skip command itself times out. *)
Definition skip_times_out_world : World :=
  scripted_world (with_next NetFail calm_script).

(** A window wide enough to mean "anything ever scrobbled". *)
Definition forever_config : Config :=
  mkConfig "api-key" "listener" "client-id" "client-secret" "refresh-token"
           800000 120 true 5 2 "37i9dQZF1DX0XUsuxWHRQd"
           "https://example.org/remote_control.txt".

(* ================================================================= *)
(** ** Vocabulary for the loop as a whole *)

(** Every exception [m] can raise satisfies [ok]. *)
Definition raises_only (ok : exn -> bool) {A} (m : M A) : Prop :=
  forall s e s', m s = (Exc e, s') -> ok e = true.

Definition pure_ok (ok : exn -> bool) {A} (r : res A) : Prop :=
  forall e, r = Exc e -> ok e = true.

(** A world in which the external stop signal never arrives. *)
Definition never_stopped (w : World) : Prop :=
  (forall n req, http w n req <> Interrupted)
  /\ (forall n, stop_signal w n = false)
  /\ (forall ts, gmtime_fail w ts <> Some KeyboardInterrupt).

(** [m] keeps the state property [P]. *)
Definition inv (P : St -> Prop) {A} (m : M A) : Prop :=
  forall s, P s -> P (snd (m s)).

(** The skip ledger holds at most the configured number of entries. *)
Definition ledger_bounded (cfg : Config) (s : St) : Prop :=
  Z.of_nat (List.length (recent_skip_days s)) <= RESTART_PATTERN_SONG_COUNT cfg.

(** The cached token is there and stays valid whenever the clock is read. *)
Definition token_warm (w : World) (s : St) : Prop :=
  is_None (SPOTIFY_TOKEN s) = false /\ forall n, clock w n < TOKEN_EXPIRES_AT s.

Definition is_http_request (e : event) : bool :=
  match e with EvRequest _ => true | _ => false end.

(** Requests to the playback API or to Last.fm: everything but the
    remote-control file. *)
Definition is_service_request (e : event) : bool :=
  match e with
  | EvRequest (ReqRemoteControl _) => false
  | EvRequest _ => true
  | _ => false
  end.

Definition is_playback_command (e : event) : bool :=
  match e with
  | EvRequest (ReqPlay _ _) | EvRequest (ReqShuffle _)
  | EvRequest (ReqNext _) | EvRequest (ReqPause _) => true
  | _ => false
  end.

(** The token cache. *)
Definition token_cache (s : St) : json * Z := (SPOTIFY_TOKEN s, TOKEN_EXPIRES_AT s).

(** The tray has paused skipping. *)
Definition manually_paused_state : St :=
  mkSt 0 [] (JStr "BQD-token") (SAMPLE_NOW + 3500 * US_PER_SECOND)
       true JNull JNull None [].

(** Spotify reports that nothing is playing. *)
Definition silent_world : World :=
  scripted_world (with_currently_playing no_content calm_script).

(** The user asked not to skip the sample track before the loop saw it. *)
Definition marked_state : St :=
  mkSt 0 [] (JStr "BQD-token") (SAMPLE_NOW + 3500 * US_PER_SECOND)
       false (JStr "6HD0bX8N8Yd7Ij3mAjI93y") JNull None [].

(** The mark is on another track than the one now playing. *)
Definition stale_mark_state : St :=
  mkSt 0 [] (JStr "BQD-token") (SAMPLE_NOW + 3500 * US_PER_SECOND)
       false (JStr "0000000000000000000000") JNull None [].

(** The state right after lines 601-602 have recorded the track observed
    at state [s2]. *)
Definition recorded (w : World) (tr : track) (s2 : St) : St :=
  set_last_checked_timestamp (mkDatetime (clock w (tick s2)) true)
    (set_tick (S (tick s2)) (set_last_checked_track_id (track_id tr) s2)).

(** The stop signal arrives during the first sleep of the run. *)
Definition stop_while_asleep_world : World :=
  mkWorld (clock never_played_world) (http never_played_world)
          (fun _ => true) (gmtime_fail never_played_world)
          (sleep_refused never_played_world).

(** A poll interval of ten thousand million seconds, more than
    [time.sleep] takes. *)
Definition oversized_poll_config : Config :=
  mkConfig "api-key" "listener" "client-id" "client-secret" "refresh-token"
           60 10000000000 true 5 2 "37i9dQZF1DX0XUsuxWHRQd"
           "https://example.org/remote_control.txt".

(** The pattern restart switched off. *)
Definition no_pattern_config : Config :=
  mkConfig "api-key" "listener" "client-id" "client-secret" "refresh-token"
           60 120 false 5 2 "37i9dQZF1DX0XUsuxWHRQd"
           "https://example.org/remote_control.txt".

(** The playback API refuses the skip command. *)
Definition forbidden_skip_world : World :=
  scripted_world (with_next (Resp (mkResponse 403 "Premium required" None)) calm_script).

(** No active device: the player endpoint answers 204. *)
Definition no_device_world : World :=
  scripted_world (with_player no_content calm_script).

(** A track credited to two artists. *)
Definition duet_playing : json :=
  JObj [("item", JObj [("artists", JList [JObj [("name", JStr "Skyforest")];
                                          JObj [("name", JStr "Unreqvited")]]);
                       ("name", JStr "Heart of the Forest");
                       ("id", JStr "6HD0bX8N8Yd7Ij3mAjI93y")])].
Definition duet_world : World :=
  scripted_world (with_currently_playing (json_response duet_playing) calm_script).

Definition with_token (o : outcome) (sc : script) : script :=
  mkScript o (on_remote_control sc) (on_currently_playing sc)
           (on_player sc) (on_next sc) (on_lastfm sc).

(** The token endpoint rejects the refresh grant. *)
Definition revoked_world : World :=
  scripted_world (with_token (Resp (mkResponse 400 "invalid_grant" None)) calm_script).

(** The token endpoint answers without a lifetime. *)
Definition no_lifetime_world : World :=
  scripted_world
    (with_token (json_response (JObj [("access_token", JStr "BQD-new")])) calm_script).

(** The token endpoint answers with a lifetime that is not a number. *)
Definition bad_lifetime_world : World :=
  scripted_world
    (with_token (json_response (JObj [("access_token", JStr "BQD-new");
                                      ("expires_in", JNull)])) calm_script).

(** What [data.get("expires_in", 3600)] reads from a token response. *)
Definition lifetime_field (m : list (string * json)) : json :=
  match assoc "expires_in" m with Some e => e | None => JNum 3600 end.

(** No remote-control URL configured. *)
Definition no_remote_config : Config :=
  mkConfig "api-key" "listener" "client-id" "client-secret" "refresh-token"
           60 120 true 5 2 "37i9dQZF1DX0XUsuxWHRQd" "".

(** The four spellings that lowercase to [on]. *)
Definition spells_on (line : list ascii) : Prop :=
  line = chars "on" \/ line = chars "On" \/ line = chars "oN" \/ line = chars "ON".

(** Last.fm reports a scrobble in the year 33658, and a list of two
    scrobbles. *)
Definition far_future_world : World :=
  scripted_world
    (with_lastfm (json_response (scrobbles_as_list (JStr "1000000000000"))) calm_script).
Definition two_scrobbles : json :=
  JObj [("trackscrobbles",
         JObj [("track", JList [scrobble_record (JStr "1699000000");
                                scrobble_record (JStr "1500000000")])])].
Definition two_scrobbles_world : World :=
  scripted_world (with_lastfm (json_response two_scrobbles) calm_script).

(** Every request gets some response, of whatever status. *)
Definition responsive (w : World) : Prop :=
  forall n req, exists r, http w n req = Resp r.

(** The sample track is playing from a playlist; every command is refused
    with a 403. *)
Definition playlist_playing : json :=
  JObj [("context", JObj [("uri", JStr "spotify:playlist:5ABHKGoOzxkaa28ttQV9sE")]);
        ("item", JObj [("artists", JList [JObj [("name", JStr "Skyforest")]]);
                       ("name", JStr "Heart of the Forest");
                       ("id", JStr "6HD0bX8N8Yd7Ij3mAjI93y")])].
Definition refusing_world : World :=
  mkWorld (fun _ => SAMPLE_NOW)
          (fun _ req =>
             match req with
             | ReqCurrentlyPlaying _ => json_response playlist_playing
             | _ => Resp (mkResponse 403 "Forbidden" None)
             end)
          (fun _ => false)
          (fun _ => None)
          (fun _ => false).

(** The track is playing outside any context (radio, queue). *)
Definition no_context_world : World :=
  scripted_world
    (with_currently_playing
       (json_response (JObj [("context", JNull); ("item", JNull)])) calm_script).
(* ================================================================= *)
(** ** Reasoning about the monad *)

Lemma bind_Ok {A B} (m : M A) (k : A -> M B) s a s1 :
  m s = (Ok a, s1) -> bind m k s = k a s1.
Proof. intros H. unfold bind. now rewrite H. Qed.

Lemma bind_Exc {A B} (m : M A) (k : A -> M B) s e s1 :
  m s = (Exc e, s1) -> bind m k s = (Exc e, s1).
Proof. intros H. unfold bind. now rewrite H. Qed.

Lemma bind_inv_Ok {A B} (m : M A) (k : A -> M B) s b s' :
  bind m k s = (Ok b, s') ->
  exists a s1, m s = (Ok a, s1) /\ k a s1 = (Ok b, s').
Proof.
  unfold bind. destruct (m s) as [[a|e] s1]; intros H.
  - now exists a, s1.
  - discriminate.
Qed.

Lemma new_events_app s s' evs :
  trace s' = (evs ++ trace s)%list -> new_events s s' = evs.
Proof.
  intros H. unfold new_events. rewrite H, length_app.
  replace (List.length evs + List.length (trace s) - List.length (trace s))%nat
    with (List.length evs + 0)%nat by lia.
  rewrite firstn_app_2. simpl. apply app_nil_r.
Qed.

Lemma rel_refl allowed frozen s : rel allowed frozen s s.
Proof. split; [exists []; split; reflexivity | reflexivity]. Qed.

Lemma rel_trans allowed frozen s1 s2 s3 :
  rel allowed frozen s1 s2 -> rel allowed frozen s2 s3 -> rel allowed frozen s1 s3.
Proof.
  intros [[e1 [T1 F1]] D1] [[e2 [T2 F2]] D2]. split.
  - exists (e2 ++ e1)%list. split.
    + rewrite T2, T1. apply app_assoc.
    + rewrite forallb_app, F1, F2. reflexivity.
  - intros Hf. rewrite (D2 Hf). apply (D1 Hf).
Qed.

Lemma rel_weaken a1 a2 f1 f2 s s' :
  (forall e, a1 e = true -> a2 e = true) -> (f2 = true -> f1 = true) ->
  rel a1 f1 s s' -> rel a2 f2 s s'.
Proof.
  intros Ha Hf [[evs [T F]] D]. split.
  - exists evs. split; [assumption|].
    rewrite forallb_forall in *. intros e He. apply Ha, F, He.
  - intros H. apply D, Hf, H.
Qed.

Lemma rel_new_events allowed frozen s s' :
  rel allowed frozen s s' -> forallb allowed (new_events s s') = true.
Proof. intros [[evs [T F]] _]. now rewrite (new_events_app _ _ _ T). Qed.

Section Keeps.
Variable allowed : event -> bool.
Variable frozen : bool.
Local Abbreviation K := (keeps allowed frozen).

Lemma keeps_ret {A} (a : A) : K (ret a).
Proof. intros s. apply rel_refl. Qed.

Lemma keeps_raise {A} e : K (@raise A e).
Proof. intros s. apply rel_refl. Qed.

Lemma keeps_lift {A} (r : res A) : K (lift r).
Proof. intros s. apply rel_refl. Qed.

Lemma keeps_gets {A} (f : St -> A) : K (gets f).
Proof. intros s. apply rel_refl. Qed.

Lemma keeps_bind {A B} (m : M A) (k : A -> M B) :
  K m -> (forall a, K (k a)) -> K (bind m k).
Proof.
  intros Hm Hk s. unfold bind. specialize (Hm s).
  destruct (m s) as [[a|e] s1]; simpl in *.
  - eapply rel_trans; [exact Hm | apply Hk].
  - exact Hm.
Qed.

Lemma keeps_try_except {A} (m : M A) caught (h : exn -> M A) :
  K m -> (forall e, K (h e)) -> K (try_except m caught h).
Proof.
  intros Hm Hh s. unfold try_except. specialize (Hm s).
  destruct (m s) as [[a|e] s1]; simpl in *.
  - exact Hm.
  - destruct (caught e); [eapply rel_trans; [exact Hm | apply Hh] | exact Hm].
Qed.

Lemma keeps_modify (f : St -> St) :
  (forall s, trace (f s) = trace s) ->
  (frozen = true -> forall s, decision (f s) = decision s) ->
  K (modify f).
Proof.
  intros Ht Hd s. split.
  - exists []. simpl. split; [apply Ht | reflexivity].
  - intros Hf. apply Hd, Hf.
Qed.

Lemma keeps_step : K step.
Proof. intros s. split; [exists []; split; reflexivity | reflexivity]. Qed.

Lemma keeps_emit e : allowed e = true -> K (emit e).
Proof.
  intros He s. split.
  - exists [e]. simpl. rewrite He. split; reflexivity.
  - reflexivity.
Qed.
End Keeps.

Lemma keeps_weaken a1 a2 f1 f2 {A} (m : M A) :
  keeps a1 f1 m ->
  (forall e, a1 e = true -> a2 e = true) -> (f2 = true -> f1 = true) ->
  keeps a2 f2 m.
Proof. intros H Ha Hf s. eapply rel_weaken; eauto. Qed.

(* ----------------------------------------------------------------- *)
(** *** Footprints of the effects and of the client functions *)

Lemma keeps_print a f m : a (EvLog m) = true -> keeps a f (print m).
Proof. intros H. apply keeps_emit, H. Qed.

Lemma keeps_now a f w : keeps a f (now w).
Proof.
  unfold now. apply keeps_bind; [apply keeps_step | intro; apply keeps_ret].
Qed.

Lemma keeps_http_call a f w req :
  a (EvRequest req) = true -> keeps a f (http_call w req).
Proof.
  intros H. unfold http_call.
  apply keeps_bind; [apply keeps_emit, H | intros _].
  apply keeps_bind; [apply keeps_step | intros n].
  destruct (http w n req); [apply keeps_ret | apply keeps_raise | apply keeps_raise].
Qed.

Lemma keeps_sleep a f w n : a (EvSleep n) = true -> keeps a f (sleep w n).
Proof.
  intros H. unfold sleep.
  apply keeps_bind; [apply keeps_emit, H | intros _].
  destruct (_ || _); [apply keeps_raise|].
  destruct (n <? 0); [apply keeps_raise|].
  destruct (sleep_refused w n); [apply keeps_raise|].
  apply keeps_bind; [apply keeps_step | intros k].
  destruct (stop_signal w k); [apply keeps_raise | apply keeps_ret].
Qed.

Lemma keeps_resp_json a f r : keeps a f (resp_json r).
Proof. unfold resp_json. destruct (json_body r); [apply keeps_ret | apply keeps_raise]. Qed.

Lemma keeps_fromtimestamp a f w ts tz : keeps a f (fromtimestamp w ts tz).
Proof.
  unfold fromtimestamp. destruct (gmtime_fail w ts); [apply keeps_raise|].
  destruct (datetime_in_range _); [apply keeps_ret | apply keeps_raise].
Qed.

Create HintDb keeps.

Ltac fp_incl :=
  let e := fresh "e" in
  let H := fresh "H" in
  intros e H;
  destruct e as [[] | | []]; simpl in *;
  solve [reflexivity | discriminate | assumption].

Ltac keeps_known :=
  eapply keeps_weaken;
  [ solve [eauto with keeps] | fp_incl | solve [trivial | intros; reflexivity] ].

Ltac keeps_walk :=
  repeat
    match goal with
    | |- keeps _ _ (ret _) => apply keeps_ret
    | |- keeps _ _ (raise _) => apply keeps_raise
    | |- keeps _ _ (lift _) => apply keeps_lift
    | |- keeps _ _ (gets _) => apply keeps_gets
    | |- keeps _ _ (bind _ _) => apply keeps_bind; [| intro]
    | |- keeps _ _ (try_except _ _ _) => apply keeps_try_except; [| intro]
    | |- keeps _ _ (modify _) =>
        apply keeps_modify;
        [ intro; reflexivity
        | let Hf := fresh in intros Hf; first [discriminate Hf | intro; reflexivity] ]
    | |- keeps _ _ (print _) => apply keeps_print; reflexivity
    | |- keeps _ _ (http_call _ _) => apply keeps_http_call; reflexivity
    | |- keeps _ _ (sleep _ _) => apply keeps_sleep; reflexivity
    | |- keeps _ _ (now _) => apply keeps_now
    | |- keeps _ _ (resp_json _) => apply keeps_resp_json
    | |- keeps _ _ (fromtimestamp _ _ _) => apply keeps_fromtimestamp
    | |- keeps _ _ (if ?b then _ else _) => destruct b
    | |- keeps _ _ (match ?x with _ => _ end) => destruct x
    | |- keeps _ _ _ => progress cbv zeta
    | |- keeps _ _ _ => keeps_known
    end.

Lemma keeps_refresh_access_token w cfg :
  keeps fp_token true (refresh_access_token w cfg).
Proof. unfold refresh_access_token. keeps_walk. Qed.
#[local] Hint Resolve keeps_refresh_access_token : keeps.

Lemma keeps_get_spotify_token w cfg :
  keeps fp_token true (get_spotify_token w cfg).
Proof. unfold get_spotify_token. keeps_walk. Qed.
#[local] Hint Resolve keeps_get_spotify_token : keeps.

Lemma keeps_get_current_track w cfg :
  keeps fp_current_track true (get_current_track w cfg).
Proof. unfold get_current_track, spotify_get. keeps_walk. Qed.
#[local] Hint Resolve keeps_get_current_track : keeps.

Lemma keeps_skip_current_track w cfg :
  keeps fp_skip true (skip_current_track w cfg).
Proof. unfold skip_current_track, spotify_post. keeps_walk. Qed.
#[local] Hint Resolve keeps_skip_current_track : keeps.

Lemma keeps_is_spotify_paused w cfg :
  keeps fp_player true (is_spotify_paused w cfg).
Proof. unfold is_spotify_paused, spotify_get. keeps_walk. Qed.
#[local] Hint Resolve keeps_is_spotify_paused : keeps.

Lemma keeps_pause_spotify_playback w cfg :
  keeps fp_pause true (pause_spotify_playback w cfg).
Proof. unfold pause_spotify_playback. keeps_walk. Qed.
#[local] Hint Resolve keeps_pause_spotify_playback : keeps.

Lemma keeps_restart_playlist w cfg :
  keeps fp_restart true (restart_playlist w cfg).
Proof. unfold restart_playlist, spotify_get, spotify_put. keeps_walk. Qed.
#[local] Hint Resolve keeps_restart_playlist : keeps.

Lemma keeps_is_skipping_enabled w cfg :
  keeps fp_remote true (is_skipping_enabled w cfg).
Proof. unfold is_skipping_enabled. keeps_walk. Qed.
#[local] Hint Resolve keeps_is_skipping_enabled : keeps.

Lemma keeps_get_last_play_date w cfg artist track :
  keeps fp_lastfm true (get_last_play_date w cfg artist track).
Proof.
  unfold get_last_play_date, parse_uts, datetime_fromtimestamp_utc,
    datetime_utcfromtimestamp.
  keeps_walk.
Qed.
#[local] Hint Resolve keeps_get_last_play_date : keeps.

Lemma keeps_poll_track w cfg : keeps fp_poll false (poll_track w cfg).
Proof. unfold poll_track. keeps_walk. Qed.
#[local] Hint Resolve keeps_poll_track : keeps.

Lemma keeps_track_skip_pattern w cfg d :
  keeps fp_pattern false (track_skip_pattern w cfg d).
Proof. unfold track_skip_pattern. keeps_walk. Qed.
#[local] Hint Resolve keeps_track_skip_pattern : keeps.

Lemma keeps_skip_branch w cfg d : keeps fp_all false (skip_branch w cfg d).
Proof. unfold skip_branch. keeps_walk. Qed.
#[local] Hint Resolve keeps_skip_branch : keeps.

Lemma keeps_evaluate_track w cfg lp : keeps fp_all false (evaluate_track w cfg lp).
Proof. unfold evaluate_track. keeps_walk. Qed.
#[local] Hint Resolve keeps_evaluate_track : keeps.

Lemma keeps_loop_body w cfg : keeps fp_all false (loop_body w cfg).
Proof. unfold loop_body. keeps_walk. Qed.
#[local] Hint Resolve keeps_loop_body : keeps.

(* ================================================================= *)
(** ** Inversion of monadic runs *)

Lemma ret_inv {A} (a b : A) s s' : ret a s = (Ok b, s') -> a = b /\ s = s'.
Proof. unfold ret. intros H. inversion H. auto. Qed.

Lemma lift_inv {A} (r : res A) b s s' : lift r s = (Ok b, s') -> r = Ok b /\ s = s'.
Proof. unfold lift. intros H. inversion H. auto. Qed.

Ltac bind_inv H :=
  let a := fresh "a" in
  let s := fresh "s" in
  let E := fresh "E" in
  apply bind_inv_Ok in H; destruct H as (a & s & E & H).

Ltac run_inv H :=
  repeat
    match type of H with
    | bind _ _ _ = (Ok _, _) => bind_inv H
    | ret _ _ = (Ok _, _) => apply ret_inv in H; destruct H; subst
    | (if ?b then _ else _) _ = (Ok _, _) => destruct b eqn:?
    | raise _ _ = (Ok _, _) => discriminate H
    end.

(* ================================================================= *)
(** ** Playback client: what a returned track looks like *)

Lemma truthy_nonempty v : truthy v = true -> v <> JNull /\ v <> JStr "".
Proof. destruct v; simpl; intros H; split; congruence || (intros E; inversion E; subst; discriminate). Qed.

Lemma get_current_track_truthy w cfg s tr s' :
  get_current_track w cfg s = (Ok (Some tr), s') ->
  truthy (track_id tr) = true /\ truthy (track_name tr) = true
  /\ truthy (artist_name tr) = true.
Proof.
  intros H. unfold get_current_track in H.
  bind_inv H. destruct (status_code a =? 204); [apply ret_inv in H as [? _]; discriminate|].
  destruct (negb (status_code a =? 200)).
  { bind_inv H. apply ret_inv in H as [? _]; discriminate. }
  bind_inv H. bind_inv H. destruct (negb (truthy a1)).
  { apply ret_inv in H as [? _]; discriminate. }
  bind_inv H. bind_inv H. bind_inv H. bind_inv H.
  destruct (truthy a5 && truthy a3 && truthy a4) eqn:T.
  - apply ret_inv in H as [H _]. inversion H; subst; simpl.
    apply andb_prop in T as [T T3]. apply andb_prop in T as [T1 T2]. auto.
  - apply ret_inv in H as [? _]; discriminate.
Qed.

Lemma truthy_track_passes tr :
  truthy (track_id tr) = true -> truthy (artist_name tr) = true ->
  nothing_playing (Some tr) = false /\ invalid_track tr = false.
Proof. intros T1 T3. unfold invalid_track. simpl. now rewrite T1, T3. Qed.

(* ================================================================= *)
(** ** Token manager *)

Lemma bind_rel {A B} allowed frozen (m : M A) (k : A -> M B) s :
  (forall a, keeps allowed frozen (k a)) ->
  rel allowed frozen (snd (m s)) (snd (bind m k s)).
Proof.
  intros H. unfold bind. destruct (m s) as [[a|e] s1]; simpl.
  - apply H.
  - apply rel_refl.
Qed.

Lemma http_call_trace w req s :
  trace (snd (http_call w req s)) = EvRequest req :: trace s.
Proof.
  unfold http_call, bind, emit, modify, step; simpl.
  destruct (http w (tick s) req); reflexivity.
Qed.

Lemma http_call_run w req s :
  http_call w req s
  = (match http w (tick s) req with
     | Resp r => Ok r
     | NetFail => Exc RequestException
     | Interrupted => Exc KeyboardInterrupt
     end,
     set_tick (S (tick s)) (set_trace (EvRequest req :: trace s) s)).
Proof.
  unfold http_call, bind, emit, modify, step; simpl.
  destruct (http w (tick s) req); reflexivity.
Qed.

Lemma spotify_call_run w cfg (endpoint : json -> request) s tok s1 :
  get_spotify_token w cfg s = (Ok tok, s1) ->
  bind (get_spotify_token w cfg) (fun token => http_call w (endpoint token)) s
  = (match http w (tick s1) (endpoint tok) with
     | Resp r => Ok r
     | NetFail => Exc RequestException
     | Interrupted => Exc KeyboardInterrupt
     end,
     set_tick (S (tick s1)) (set_trace (EvRequest (endpoint tok) :: trace s1) s1)).
Proof. intros H. rewrite (bind_Ok _ _ _ _ _ H). apply http_call_run. Qed.

(** How [get_current_track] goes on once the answer has arrived. *)
Lemma get_current_track_read w cfg s tok s1 r :
  get_spotify_token w cfg s = (Ok tok, s1) ->
  http w (tick s1) (ReqCurrentlyPlaying tok) = Resp r ->
  forall k : response -> M (option track),
    bind (spotify_get w cfg ReqCurrentlyPlaying) k s
    = k r (set_tick (S (tick s1))
             (set_trace (EvRequest (ReqCurrentlyPlaying tok) :: trace s1) s1)).
Proof.
  intros Ht F k. unfold spotify_get. unfold bind at 1.
  rewrite (spotify_call_run w cfg ReqCurrentlyPlaying s tok s1 Ht), F. reflexivity.
Qed.

Lemma lacks_default o : lacks o = true -> truthy (match o with Some v => v | None => JNull end) = false.
Proof. destruct o as [v|]; simpl; [apply negb_true_iff | reflexivity]. Qed.

(** C10, corrected: whenever [get_current_track] returns a track, its id,
    name and artist are all truthy (neither [None] nor the empty string),
    so the two validity re-checks of the decision loop (lines 584 and 590)
    are both false for it.  A 200 answer yields [None] when its item is
    missing or empty, when the item lists no artist, and when the id, the
    name or the name of the first listed artist is missing, [null] or
    empty, provided that first artist has a [name] key at all; when it has
    none, line 401 raises [KeyError] and nothing is returned. *)
Theorem current_track_complete_or_none w cfg s :
  (forall tr s',
      get_current_track w cfg s = (Ok (Some tr), s') ->
      (truthy (track_id tr) = true /\ truthy (track_name tr) = true
       /\ truthy (artist_name tr) = true)
      /\ (track_id tr <> JNull /\ track_id tr <> JStr "")
      /\ (track_name tr <> JNull /\ track_name tr <> JStr "")
      /\ (artist_name tr <> JNull /\ artist_name tr <> JStr "")
      /\ nothing_playing (Some tr) = false
      /\ invalid_track tr = false)
  /\ (forall tok s1 r m,
        get_spotify_token w cfg s = (Ok tok, s1) ->
        http w (tick s1) (ReqCurrentlyPlaying tok) = Resp r ->
        status_code r = 200 ->
        json_body r = Some (JObj m) ->
        (lacks (assoc "item" m) = true ->
         fst (get_current_track w cfg s) = Ok None)
        /\ (forall item,
              assoc "item" m = Some (JObj item) ->
              (lacks (assoc "artists" item) = true ->
               fst (get_current_track w cfg s) = Ok None)
              /\ (forall first others,
                    assoc "artists" item = Some (JList (JObj first :: others)) ->
                    (forall artist,
                        assoc "name" first = Some artist ->
                        (lacks (assoc "id" item) || lacks (assoc "name" item)
                         || negb (truthy artist)) = true ->
                        fst (get_current_track w cfg s) = Ok None)
                    /\ (assoc "name" first = None ->
                        fst (get_current_track w cfg s) = Exc KeyError)))).
Proof.
  split.
  { intros tr s' H.
    destruct (get_current_track_truthy w cfg s tr s' H) as (T1 & T2 & T3).
    destruct (truthy_track_passes tr T1 T3) as [N V].
    repeat split; try assumption; try (apply truthy_nonempty; assumption). }
  intros tok s1 r m Ht F St J.
  pose proof (get_current_track_read w cfg s tok s1 r Ht F) as E.
  assert (D : py_get (py_or (JObj m) (JObj [])) "item" JNull
              = Ok (match assoc "item" m with Some v => v | None => JNull end)).
  { unfold py_or. destruct m as [|p m']; reflexivity. }
  assert (Open : get_current_track w cfg s
                 = (fun item =>
                      if negb (truthy item) then ret None
                      else
                        a <- lift (py_get item "artists" JNull) ;;
                        artist_name <- (if truthy (py_or a (JList []))
                                        then a0 <- lift (py_index0 (py_or a (JList []))) ;;
                                             lift (py_getitem a0 "name")
                                        else ret JNull) ;;
                        track_name <- lift (py_get item "name" JNull) ;;
                        track_id <- lift (py_get item "id" JNull) ;;
                        if truthy track_id && truthy artist_name && truthy track_name
                        then ret (Some (mkTrack track_id track_name artist_name))
                        else ret None)
                     (match assoc "item" m with Some v => v | None => JNull end)
                     (set_tick (S (tick s1))
                        (set_trace (EvRequest (ReqCurrentlyPlaying tok) :: trace s1) s1))).
  { unfold get_current_track. rewrite E, St.
    change (200 =? 204) with false. change (negb (200 =? 200)) with false. cbv iota.
    unfold resp_json. rewrite J.
    unfold bind at 1. unfold ret at 1. cbv beta iota.
    unfold bind at 1. unfold lift at 1. rewrite D. reflexivity. }
  rewrite Open. clear Open E D. cbv beta.
  split.
  { intros L. rewrite (lacks_default _ L). reflexivity. }
  intros item Hitem. rewrite Hitem.
  destruct (truthy (JObj item)) eqn:Ti; cbn [negb]; cbv iota.
  2:{ split; [reflexivity|].
      intros first others Ha. destruct item; [discriminate Ha | discriminate Ti]. }
  split.
  { intros L. apply lacks_default in L.
    unfold bind, lift, py_get, py_or, ret. rewrite L.
    cbn [truthy]. cbv beta iota. rewrite andb_false_r. reflexivity. }
  intros first others Ha.
  split.
  - intros artist Hn Missing.
    unfold bind, lift, py_get, py_or, ret. rewrite Ha.
    cbn [truthy py_index0 py_getitem]. cbv beta iota. rewrite Hn. cbv beta iota.
    apply orb_prop in Missing as [Missing | Tartist].
    + apply orb_prop in Missing as [Lid | Lname].
      * rewrite (lacks_default _ Lid). reflexivity.
      * rewrite (lacks_default _ Lname). rewrite andb_false_r. reflexivity.
    + apply negb_true_iff in Tartist. rewrite Tartist.
      rewrite andb_false_r. reflexivity.
  - intros Hn.
    unfold bind, lift, py_get, py_or, ret. rewrite Ha.
    cbn [truthy py_index0 py_getitem]. cbv beta iota. rewrite Hn. reflexivity.
Qed.

Lemma current_track_complete_or_none_witness :
  invalid_track sample_track = false
  /\ fst (get_current_track local_file_world sample_config warm_state) = Ok None
  /\ fst (get_current_track nameless_artist_world sample_config warm_state) = Exc KeyError.
Proof.
  pose (s1 := snd (get_spotify_token local_file_world sample_config warm_state)).
  assert (Ht : get_spotify_token local_file_world sample_config warm_state
               = (Ok (JStr "BQD-token"), s1)) by (vm_compute; reflexivity).
  pose (s1' := snd (get_spotify_token nameless_artist_world sample_config warm_state)).
  assert (Ht' : get_spotify_token nameless_artist_world sample_config warm_state
                = (Ok (JStr "BQD-token"), s1')) by (vm_compute; reflexivity).
  split; [|split].
  - apply (proj1 (current_track_complete_or_none calm_world sample_config warm_state)
             sample_track (snd (get_current_track calm_world sample_config warm_state))).
    reflexivity.
  - destruct (proj2 (current_track_complete_or_none local_file_world sample_config warm_state)
                (JStr "BQD-token") s1 (mkResponse 200 "" (Some local_file_playing))
                _ Ht eq_refl eq_refl eq_refl) as [_ Item].
    destruct (Item _ eq_refl) as [_ Artists].
    destruct (Artists _ _ eq_refl) as [Missing _].
    apply (Missing (JStr "Skyforest")); reflexivity.
  - destruct (proj2 (current_track_complete_or_none nameless_artist_world sample_config
                       warm_state)
                (JStr "BQD-token") s1' (mkResponse 200 "" (Some nameless_artist_playing))
                _ Ht' eq_refl eq_refl eq_refl) as [_ Item].
    destruct (Item _ eq_refl) as [_ Artists].
    destruct (Artists _ _ eq_refl) as [_ Nameless].
    apply Nameless. reflexivity.
Defined.

(** The parenthesis of the claim as stated fails for an answer whose first
    artist has no [name] key: the artist is missing, yet the call raises
    [KeyError] where the claim has it return [None]. *)
Lemma missing_field_yields_none_fails :
  ~ claim_missing_field_yields_none nameless_artist_world sample_config warm_state.
Proof.
  intros Claim.
  pose (s1 := snd (get_spotify_token nameless_artist_world sample_config warm_state)).
  assert (Ht : get_spotify_token nameless_artist_world sample_config warm_state
               = (Ok (JStr "BQD-token"), s1)) by (vm_compute; reflexivity).
  specialize (Claim (JStr "BQD-token") s1 (mkResponse 200 "" (Some nameless_artist_playing))
                _ _ Ht eq_refl eq_refl eq_refl eq_refl eq_refl).
  vm_compute in Claim. discriminate Claim.
Qed.

(** The exception is not lost: the cycle in which it is raised logs it as
    an unexpected error, sends neither a lookup nor a playback command, and
    the loop goes on. *)
Lemma nameless_artist_cycle :
  new_events warm_state
    (snd (main_loop_cycle nameless_artist_world sample_config warm_state))
  = [EvSleep 120; EvSleep 120; EvLog (LogUnexpectedError KeyError);
     EvRequest (ReqCurrentlyPlaying (JStr "BQD-token"));
     EvRequest (ReqRemoteControl "https://example.org/remote_control.txt")]
  /\ fst (main_loop_cycle nameless_artist_world sample_config warm_state) = Ok Continue.
Proof. split; vm_compute; reflexivity. Qed.

Lemma filter_none {A} (p : A -> bool) l :
  forallb (fun x => negb (p x)) l = true -> filter p l = [].
Proof.
  induction l as [|x l IH]; simpl; [reflexivity|].
  intros H. apply andb_prop in H as [Hx Hl].
  destruct (p x); [discriminate | auto].
Qed.

(** A refresh sends the token request first and nothing like it after. *)
Lemma refresh_access_token_trace w cfg s :
  exists evs,
    trace (snd (refresh_access_token w cfg s))
      = (evs ++ EvRequest (ReqToken (REFRESH_TOKEN cfg)) :: trace s)%list
    /\ forallb (fun e => negb (is_refresh_request e)) evs = true.
Proof.
  unfold refresh_access_token.
  match goal with
  | |- context [bind (http_call w ?q) ?k] =>
      assert (K : forall r, keeps (fun e => negb (is_refresh_request e)) true (k r))
        by (intro r; keeps_walk);
      destruct (bind_rel _ _ (http_call w q) k s K) as [[evs [T F]] _]
  end.
  exists evs. rewrite http_call_trace in T. auto.
Qed.

Lemma refresh_then_read w cfg s :
  trace (snd (bind (refresh_access_token w cfg) (fun _ => gets SPOTIFY_TOKEN) s))
  = trace (snd (refresh_access_token w cfg s)).
Proof.
  unfold bind. destruct (refresh_access_token w cfg s) as [[[]|e] s1]; reflexivity.
Qed.

(** C3: a call made while a token is cached and the clock is before
    [TOKEN_EXPIRES_AT] sends nothing, returns the cached token and leaves
    the state as it was (the clock was read once); so the second of two
    consecutive calls inside the validity window performs no refresh.  A
    call made with no token cached, or once the clock has reached
    [TOKEN_EXPIRES_AT], performs exactly one refresh exchange. *)
Theorem token_refresh_only_when_stale w cfg s :
  (is_None (SPOTIFY_TOKEN s) = false ->
   clock w (tick s) < TOKEN_EXPIRES_AT s ->
   get_spotify_token w cfg s = (Ok (SPOTIFY_TOKEN s), set_tick (S (tick s)) s)
   /\ new_events s (snd (get_spotify_token w cfg s)) = [])
  /\ (forall r1 s1,
        get_spotify_token w cfg s = (r1, s1) ->
        is_None (SPOTIFY_TOKEN s1) = false ->
        clock w (tick s1) < TOKEN_EXPIRES_AT s1 ->
        get_spotify_token w cfg s1 = (Ok (SPOTIFY_TOKEN s1), set_tick (S (tick s1)) s1)
        /\ filter is_refresh_request (new_events s1 (snd (get_spotify_token w cfg s1))) = []
        /\ (forall tok, r1 = Ok tok -> fst (get_spotify_token w cfg s1) = Ok tok))
  /\ (is_None (SPOTIFY_TOKEN s) = true \/ TOKEN_EXPIRES_AT s <= clock w (tick s) ->
      List.length (filter is_refresh_request
                     (new_events s (snd (get_spotify_token w cfg s)))) = 1%nat).
Proof.
  assert (Cached : forall s0,
             is_None (SPOTIFY_TOKEN s0) = false ->
             clock w (tick s0) < TOKEN_EXPIRES_AT s0 ->
             get_spotify_token w cfg s0
             = (Ok (SPOTIFY_TOKEN s0), set_tick (S (tick s0)) s0)).
  { intros s0 Hn Hc. unfold get_spotify_token, bind, gets, now, step, ret; simpl.
    rewrite Hn. simpl.
    replace (TOKEN_EXPIRES_AT s0 <=? clock w (tick s0)) with false
      by (symmetry; apply Z.leb_gt; exact Hc).
    reflexivity. }
  split; [|split].
  - intros Hn Hc. rewrite (Cached s Hn Hc). split; [reflexivity|].
    apply new_events_app. reflexivity.
  - intros r1 s1 H1 Hn Hc. rewrite (Cached s1 Hn Hc). simpl. repeat split.
    + rewrite (new_events_app s1 _ []); reflexivity.
    + intros tok ->. revert H1.
      unfold get_spotify_token at 1.
      intros H1. bind_inv H1. bind_inv H1. bind_inv H1.
      unfold gets in H1. inversion H1; subst. reflexivity.
  - intros Hstale.
    assert (T : exists evs,
               trace (snd (get_spotify_token w cfg s))
               = (evs ++ EvRequest (ReqToken (REFRESH_TOKEN cfg)) :: trace s)%list
               /\ forallb (fun e => negb (is_refresh_request e)) evs = true).
    { unfold get_spotify_token.
      destruct (is_None (SPOTIFY_TOKEN s)) eqn:Hn.
      - unfold bind at 1 2. unfold gets at 1. simpl. rewrite Hn.
        unfold ret at 1. cbv beta iota.
        rewrite refresh_then_read. apply refresh_access_token_trace.
      - destruct Hstale as [Hs|Hs]; [discriminate|].
        unfold bind at 1 2. unfold gets at 1. simpl. rewrite Hn.
        unfold bind at 1 2. unfold now, step, bind, ret, gets. simpl.
        replace (TOKEN_EXPIRES_AT s <=? clock w (tick s)) with true
          by (symmetry; apply Z.leb_le; exact Hs).
        fold (@bind unit json (refresh_access_token w cfg) (fun _ => gets SPOTIFY_TOKEN)).
        pose proof (refresh_then_read w cfg (set_tick (S (tick s)) s)) as R.
        unfold bind, gets in R. rewrite R.
        apply (refresh_access_token_trace w cfg (set_tick (S (tick s)) s)). }
    destruct T as (evs & T & F).
    change (evs ++ EvRequest (ReqToken (REFRESH_TOKEN cfg)) :: trace s)%list
      with (evs ++ [EvRequest (ReqToken (REFRESH_TOKEN cfg))] ++ trace s)%list in T.
    rewrite app_assoc in T. rewrite (new_events_app _ _ _ T).
    rewrite filter_app, (filter_none _ _ F). reflexivity.
Qed.

Lemma token_refresh_only_when_stale_witness :
  get_spotify_token calm_world sample_config warm_state
    = (Ok (JStr "BQD-token"), set_tick 1 warm_state)
  /\ List.length (filter is_refresh_request
                    (new_events fresh_state
                       (snd (get_spotify_token calm_world sample_config fresh_state))))
     = 1%nat.
Proof.
  destruct (token_refresh_only_when_stale calm_world sample_config warm_state) as [A _].
  destruct (token_refresh_only_when_stale calm_world sample_config fresh_state)
    as [_ [_ C]].
  split.
  - apply A; reflexivity.
  - apply C. left. reflexivity.
Defined.

(* ================================================================= *)
(** ** Pattern detector *)

Lemma is_repeating_true cfg ledger :
  is_repeating cfg ledger = Ok true <->
  Z.of_nat (List.length ledger) = RESTART_PATTERN_SONG_COUNT cfg
  /\ exists sp, spread ledger = Ok sp /\ sp <= RESTART_PATTERN_DAY_DIFF cfg.
Proof.
  unfold is_repeating.
  destruct (Z.of_nat (List.length ledger) =? RESTART_PATTERN_SONG_COUNT cfg) eqn:E.
  - apply Z.eqb_eq in E. destruct (spread ledger) as [sp|e].
    + split.
      * intros H. inversion H as [H1]. split; [exact E|].
        exists sp. split; [reflexivity | now apply Z.leb_le].
      * intros [_ (sp' & Hs & Hle)]. inversion Hs; subst.
        f_equal. now apply Z.leb_le.
    + split; [discriminate|]. intros [_ (sp' & Hs & _)]. discriminate.
  - apply Z.eqb_neq in E. split; [discriminate|]. intros [H _]. contradiction.
Qed.

(** Only the external stop signal leaves [restart_playlist] as an
    exception. *)
Lemma restart_playlist_raises w cfg s e s1 :
  restart_playlist w cfg s = (Exc e, s1) -> e = KeyboardInterrupt.
Proof.
  unfold restart_playlist, try_except.
  match goal with |- context [match ?m s with _ => _ end] => destruct (m s) as [[[]|e0] s0] end.
  - discriminate.
  - destruct (is_Exception e0) eqn:Ex.
    + unfold print, emit, modify. discriminate.
    + intros H. inversion H; subst. destruct e; simpl in Ex; congruence.
Qed.

(** What one recorded skip does, by the outcome of the detection test. *)
Lemma track_skip_pattern_quiet w cfg d s :
  ENABLE_RESTART_PATTERN cfg = true ->
  is_repeating cfg (ledger_push cfg (recent_skip_days s) d) <> Ok true ->
  snd (track_skip_pattern w cfg d s)
    = set_recent_skip_days (ledger_push cfg (recent_skip_days s) d) s
  /\ (is_repeating cfg (ledger_push cfg (recent_skip_days s) d) = Ok false ->
      fst (track_skip_pattern w cfg d s) = Ok tt).
Proof.
  intros En Hr. unfold track_skip_pattern. rewrite En.
  unfold bind, modify, gets, lift; simpl.
  destruct (is_repeating cfg (ledger_push cfg (recent_skip_days s) d)) as [[|]|e].
  - congruence.
  - split; reflexivity.
  - split; [reflexivity | discriminate].
Qed.

Lemma track_skip_pattern_fire_eq w cfg d s :
  ENABLE_RESTART_PATTERN cfg = true ->
  is_repeating cfg (ledger_push cfg (recent_skip_days s) d) = Ok true ->
  track_skip_pattern w cfg d s
  = bind (restart_playlist w cfg) (fun _ => modify (set_recent_skip_days []))
         (set_trace (EvLog LogPatternDetected :: trace s)
            (set_recent_skip_days (ledger_push cfg (recent_skip_days s) d) s)).
Proof.
  intros En Hr. unfold track_skip_pattern. rewrite En.
  unfold bind, modify, gets, lift, print, emit. simpl. rewrite Hr. reflexivity.
Qed.

Lemma track_skip_pattern_fires w cfg d s :
  ENABLE_RESTART_PATTERN cfg = true ->
  is_repeating cfg (ledger_push cfg (recent_skip_days s) d) = Ok true ->
  existsb is_pattern_alarm (new_events s (snd (track_skip_pattern w cfg d s))) = true
  /\ (recent_skip_days (snd (track_skip_pattern w cfg d s)) = []
      \/ fst (track_skip_pattern w cfg d s) = Exc KeyboardInterrupt).
Proof.
  intros En Hr. rewrite (track_skip_pattern_fire_eq w cfg d s En Hr).
  set (s2 := set_trace _ _).
  split.
  - assert (K : keeps fp_all false
                  (bind (restart_playlist w cfg)
                        (fun _ => modify (set_recent_skip_days []))))
      by (apply keeps_bind;
          [keeps_known | intro; apply keeps_modify; [intro; reflexivity | discriminate]]).
    destruct (K s2) as [[evs [T _]] _].
    change (trace s2) with ([EvLog LogPatternDetected] ++ trace s)%list in T.
    rewrite app_assoc in T.
    rewrite (new_events_app _ _ _ T).
    rewrite existsb_app. simpl. apply orb_true_r.
  - unfold bind. destruct (restart_playlist w cfg s2) as [[[]|e] s3] eqn:R; simpl.
    + left. reflexivity.
    + right. f_equal. eapply restart_playlist_raises, R.
Qed.

Lemma feed_skips_quiet w cfg ds :
  ENABLE_RESTART_PATTERN cfg = true ->
  forall s,
    Z.of_nat (List.length (recent_skip_days s ++ ds)) <= RESTART_PATTERN_SONG_COUNT cfg ->
    (Z.of_nat (List.length (recent_skip_days s ++ ds)) = RESTART_PATTERN_SONG_COUNT cfg ->
     exists sp, spread (recent_skip_days s ++ ds) = Ok sp
                /\ RESTART_PATTERN_DAY_DIFF cfg < sp) ->
    feed_skips w cfg ds s = (Ok tt, set_recent_skip_days (recent_skip_days s ++ ds) s).
Proof.
  intros En. induction ds as [|d ds IH]; intros s Hlen Hfull.
  - simpl. rewrite app_nil_r. destruct s; reflexivity.
  - simpl.
    assert (L : (List.length (recent_skip_days s ++ d :: ds)
                 = List.length (recent_skip_days s ++ [d]) + List.length ds)%nat)
      by (rewrite !length_app; simpl; lia).
    assert (P : ledger_push cfg (recent_skip_days s) d = (recent_skip_days s ++ [d])%list).
    { unfold ledger_push.
      destruct (Z.of_nat (List.length (recent_skip_days s ++ [d]))
                >? RESTART_PATTERN_SONG_COUNT cfg) eqn:G; [|reflexivity].
      apply Z.gtb_lt in G. lia. }
    assert (R : is_repeating cfg (recent_skip_days s ++ [d])%list = Ok false).
    { unfold is_repeating.
      destruct (Z.of_nat (List.length (recent_skip_days s ++ [d]))
                =? RESTART_PATTERN_SONG_COUNT cfg) eqn:G; [|reflexivity].
      apply Z.eqb_eq in G.
      assert (ds = []) by (destruct ds; [reflexivity | simpl in L; lia]). subst ds.
      destruct Hfull as (sp & Hs & Hgt); [lia|].
      rewrite Hs. f_equal. apply Z.leb_gt. exact Hgt. }
    destruct (track_skip_pattern_quiet w cfg d s En) as [Hs Hr].
    { rewrite P, R. discriminate. }
    rewrite P in Hs, Hr. specialize (Hr R).
    unfold bind. destruct (track_skip_pattern w cfg d s) as [r s1]. simpl in Hs, Hr. subst.
    assert (A : (recent_skip_days s ++ d :: ds = (recent_skip_days s ++ [d]) ++ ds)%list)
      by (rewrite <- app_assoc; reflexivity).
    rewrite IH.
    + simpl. rewrite <- A. reflexivity.
    + simpl. rewrite <- A. exact Hlen.
    + simpl. rewrite <- A. exact Hfull.
Qed.

(** C4: with the pattern restart enabled, recording a skip fires the
    detector iff the ledger, after the new value is pushed and the oldest
    evicted past capacity, holds exactly [RESTART_PATTERN_SONG_COUNT]
    entries whose maximum and minimum differ by at most
    [RESTART_PATTERN_DAY_DIFF].  When it fires the ledger is cleared (unless
    the external stop signal cuts the restart short), and when it does not
    the step only updates the ledger.  Hence, from an empty ledger, fewer
    than N recorded skips never fire it whatever their spread, and N values
    spread wider than the tolerance do not fire it either; after a firing
    the ledger is empty, so N further skips are needed before the next. *)
Theorem pattern_detector_fires_iff w cfg :
  ENABLE_RESTART_PATTERN cfg = true ->
  (forall s d,
      let ledger := ledger_push cfg (recent_skip_days s) d in
      let s' := snd (track_skip_pattern w cfg d s) in
      (pattern_fired w cfg d s = true <->
       Z.of_nat (List.length ledger) = RESTART_PATTERN_SONG_COUNT cfg
       /\ exists sp, spread ledger = Ok sp /\ sp <= RESTART_PATTERN_DAY_DIFF cfg)
      /\ (pattern_fired w cfg d s = true ->
          recent_skip_days s' = []
          \/ fst (track_skip_pattern w cfg d s) = Exc KeyboardInterrupt)
      /\ (pattern_fired w cfg d s = false ->
          recent_skip_days s' = ledger /\ new_events s s' = []))
  /\ (forall s ds,
        recent_skip_days s = [] ->
        Z.of_nat (List.length ds) < RESTART_PATTERN_SONG_COUNT cfg ->
        feed_skips w cfg ds s = (Ok tt, set_recent_skip_days ds s)
        /\ new_events s (snd (feed_skips w cfg ds s)) = [])
  /\ (forall s ds sp,
        recent_skip_days s = [] ->
        Z.of_nat (List.length ds) = RESTART_PATTERN_SONG_COUNT cfg ->
        spread ds = Ok sp ->
        RESTART_PATTERN_DAY_DIFF cfg < sp ->
        feed_skips w cfg ds s = (Ok tt, set_recent_skip_days ds s)
        /\ new_events s (snd (feed_skips w cfg ds s)) = []).
Proof.
  intros En.
  assert (Step : forall s d,
             (is_repeating cfg (ledger_push cfg (recent_skip_days s) d) = Ok true
              /\ pattern_fired w cfg d s = true)
             \/ (is_repeating cfg (ledger_push cfg (recent_skip_days s) d) <> Ok true
                 /\ pattern_fired w cfg d s = false
                 /\ snd (track_skip_pattern w cfg d s)
                    = set_recent_skip_days (ledger_push cfg (recent_skip_days s) d) s)).
  { intros s d.
    destruct (is_repeating cfg (ledger_push cfg (recent_skip_days s) d)) as [[|]|e] eqn:R.
    - left. split; [reflexivity|].
      apply (track_skip_pattern_fires w cfg d s En R).
    - right. destruct (track_skip_pattern_quiet w cfg d s En) as [Hs _];
        [rewrite R; discriminate|].
      repeat split; [discriminate | | exact Hs].
      unfold pattern_fired. rewrite Hs. rewrite (new_events_app s _ []); reflexivity.
    - right. destruct (track_skip_pattern_quiet w cfg d s En) as [Hs _];
        [rewrite R; discriminate|].
      repeat split; [discriminate | | exact Hs].
      unfold pattern_fired. rewrite Hs. rewrite (new_events_app s _ []); reflexivity. }
  split; [|split].
  - intros s d ledger s'. subst ledger s'.
    destruct (Step s d) as [[R F] | (R & F & E)].
    + split; [|split].
      * split; [intros _; apply (proj1 (is_repeating_true cfg _) R) | intros _; exact F].
      * intros _. apply (track_skip_pattern_fires w cfg d s En R).
      * rewrite F. discriminate.
    + split; [|split].
      * split; [rewrite F; discriminate|].
        intros H. exfalso. apply R. apply is_repeating_true. exact H.
      * rewrite F. discriminate.
      * intros _. rewrite E. split; [reflexivity|].
        apply new_events_app. reflexivity.
  - intros s ds Hempty Hlen.
    pose proof (feed_skips_quiet w cfg ds En s) as Q. rewrite Hempty in Q. simpl in Q.
    rewrite Q; [|lia|lia]. split; [reflexivity|].
    apply new_events_app. reflexivity.
  - intros s ds sp Hempty Hlen Hsp Hgt.
    pose proof (feed_skips_quiet w cfg ds En s) as Q. rewrite Hempty in Q. simpl in Q.
    rewrite Q; [|lia|intros _; exists sp; auto]. split; [reflexivity|].
    apply new_events_app. reflexivity.
Qed.

(** The scenario of the specification: skips after 3, 4, 5, 4 and 3 days
    with a tolerance of 2 fire the detector on the fifth. *)
Lemma pattern_detector_fires_iff_witness :
  ENABLE_RESTART_PATTERN sample_config = true
  /\ pattern_fired calm_world sample_config 3 nearly_full_state = true
  /\ feed_skips calm_world sample_config [3; 40; 5; 4] warm_state
     = (Ok tt, set_recent_skip_days [3; 40; 5; 4] warm_state).
Proof.
  destruct (pattern_detector_fires_iff calm_world sample_config eq_refl)
    as (One & Few & _).
  split; [reflexivity|]. split.
  - apply (One nearly_full_state 3). split; [reflexivity|].
    exists 2. split; [reflexivity | simpl; lia].
  - apply (Few warm_state [3; 40; 5; 4]); [reflexivity | reflexivity].
Defined.

(* ================================================================= *)
(** ** Remote-control gate *)

Lemma linebreak_is_space c : is_linebreak c = true -> is_space c = true.
Proof.
  unfold is_linebreak, is_space. set (n := code c).
  rewrite !orb_true_iff, !andb_true_iff, !Z.leb_le, !Z.eqb_eq. lia.
Qed.

Lemma not_space_not_linebreak c : is_space c = false -> is_linebreak c = false.
Proof.
  intros H. destruct (is_linebreak c) eqn:E; [|reflexivity].
  apply linebreak_is_space in E. congruence.
Qed.

Lemma rstrip_cons_congr a x y : rstrip x = rstrip y -> rstrip (a :: x) = rstrip (a :: y).
Proof. intros H. simpl. now rewrite H. Qed.

Lemma rstrip_cons_solid a x : is_space a = false -> rstrip (a :: x) = a :: rstrip x.
Proof. intros H. simpl. rewrite H. destruct (rstrip x); reflexivity. Qed.

Lemma py_strip_cons_space a x : is_space a = true -> py_strip (a :: x) = py_strip x.
Proof. intros H. unfold py_strip. simpl. now rewrite H. Qed.

Lemma py_strip_cons_solid a x : is_space a = false -> py_strip (a :: x) = a :: rstrip x.
Proof. intros H. unfold py_strip. simpl. rewrite H. now apply rstrip_cons_solid. Qed.

Lemma is_blank_cons_space a x : is_space a = true -> is_blank (a :: x) = is_blank x.
Proof. intros H. unfold is_blank. now rewrite py_strip_cons_space. Qed.

(** Trailing whitespace does not change what the first line holds. *)
Lemma rstrip_first_line s : rstrip (first_line (rstrip s)) = rstrip (first_line s).
Proof.
  induction s as [|a r IH]; [reflexivity|].
  destruct (is_linebreak a) eqn:L.
  - simpl (first_line (a :: r)). rewrite L.
    simpl (rstrip (a :: r)).
    destruct (rstrip r); [destruct (is_space a)|]; simpl; rewrite ?L; reflexivity.
  - simpl (first_line (a :: r)). rewrite L.
    simpl (rstrip (a :: r)).
    destruct (rstrip r) as [|b r'] eqn:R.
    + simpl in IH.
      destruct (is_space a) eqn:Sp.
      * simpl. rewrite <- IH, Sp. reflexivity.
      * simpl (first_line [a]). rewrite L.
        rewrite !(rstrip_cons_solid a _ Sp), <- IH. reflexivity.
    + change (first_line (a :: b :: r')) with
        (if is_linebreak a then [] else a :: first_line (b :: r')).
      rewrite L. apply rstrip_cons_congr. exact IH.
Qed.

Lemma splitlines_head s :
  s <> [] -> exists ls, splitlines s = first_line s :: ls.
Proof.
  induction s as [|a r IH]; [congruence|]. intros _.
  simpl. destruct (is_linebreak a) eqn:L.
  - eexists. reflexivity.
  - destruct r as [|b r'].
    + simpl. eexists. reflexivity.
    + destruct IH as [ls E]; [discriminate|]. rewrite E. eexists. reflexivity.
Qed.

Lemma first_nonempty_line_cons_space a r :
  is_space a = true -> first_nonempty_line (a :: r) = first_nonempty_line r.
Proof.
  intros Sp. unfold first_nonempty_line.
  simpl (splitlines (a :: r)). destruct (is_linebreak a) eqn:L.
  - simpl (filter _ ([] :: _)).
    destruct r as [|b r']; [reflexivity|].
    destruct ((code a =? 13) && (code b =? 10)) eqn:CRLF; [|reflexivity].
    apply andb_prop in CRLF as [_ LF]. apply Z.eqb_eq in LF.
    assert (Lb : is_linebreak b = true) by (unfold is_linebreak; rewrite LF; reflexivity).
    simpl (splitlines (b :: r')). rewrite Lb.
    assert (NoCR : (code b =? 13) = false) by (rewrite LF; reflexivity).
    simpl (filter _ ([] :: _)).
    destruct r' as [|c r'']; [reflexivity|]. rewrite NoCR. reflexivity.
  - destruct (splitlines r) as [|l ls].
    + simpl. rewrite (is_blank_cons_space a [] Sp). reflexivity.
    + simpl. rewrite (is_blank_cons_space a l Sp).
      destruct (negb (is_blank l)); [|reflexivity].
      now rewrite py_strip_cons_space.
Qed.

Lemma first_nonempty_line_lstrip s :
  first_nonempty_line s = first_nonempty_line (lstrip s).
Proof.
  induction s as [|a r IH]; [reflexivity|].
  simpl. destruct (is_space a) eqn:Sp; [|reflexivity].
  now rewrite first_nonempty_line_cons_space.
Qed.

Lemma lstrip_solid s : match lstrip s with [] => True | c :: _ => is_space c = false end.
Proof.
  induction s as [|a r IH]; simpl; [exact I|].
  destruct (is_space a) eqn:Sp; [exact IH | exact Sp].
Qed.

(** The line the code reads is the first non-empty line of the body; the
    code finds no line exactly when the body has none. *)
Lemma gate_line_refines body :
  match splitlines (py_strip body) with
  | [] => first_nonempty_line body = None
  | line :: _ => first_nonempty_line body = Some (py_strip line)
  end.
Proof.
  rewrite (first_nonempty_line_lstrip body). unfold py_strip at 1.
  pose proof (lstrip_solid body) as Solid.
  destruct (lstrip body) as [|c r]; [reflexivity|].
  pose proof (not_space_not_linebreak c Solid) as L.
  rewrite (rstrip_cons_solid c r Solid).
  destruct (splitlines_head (c :: rstrip r)) as [ls E]; [discriminate|].
  rewrite E.
  unfold first_nonempty_line.
  destruct (splitlines_head (c :: r)) as [ls' E']; [discriminate|].
  rewrite E'. simpl (first_line (c :: r)). rewrite L.
  simpl (filter _ _).
  unfold is_blank. rewrite (py_strip_cons_solid c _ Solid). simpl (negb _).
  cbv iota. f_equal.
  simpl (first_line (c :: rstrip r)). rewrite L.
  rewrite !(py_strip_cons_solid c _ Solid). f_equal.
  symmetry. apply rstrip_first_line.
Qed.

(** C7: with a remote-control URL configured, the gate permits skipping
    exactly when the first non-empty line of the fetched body, lowercased,
    is [on]; any other text there disables skipping; a failed request, and
    a body with no non-empty line to read, leave skipping enabled. *)
Theorem remote_gate_first_line w cfg s :
  REMOTE_CONTROL_URL cfg <> "" ->
  (http w (tick s) (ReqRemoteControl (REMOTE_CONTROL_URL cfg)) = NetFail ->
   fst (is_skipping_enabled w cfg s) = Ok true)
  /\ (forall r,
        http w (tick s) (ReqRemoteControl (REMOTE_CONTROL_URL cfg)) = Resp r ->
        fst (is_skipping_enabled w cfg s) = Ok (gate_permits (text r))).
Proof.
  intros Url.
  assert (U : String.eqb (REMOTE_CONTROL_URL cfg) "" = false).
  { destruct (String.eqb (REMOTE_CONTROL_URL cfg) "") eqn:E; [|reflexivity].
    apply String.eqb_eq in E. contradiction. }
  unfold is_skipping_enabled. rewrite U.
  unfold try_except, bind. rewrite http_call_run.
  split.
  - intros F. rewrite F. reflexivity.
  - intros r F. rewrite F.
    pose proof (gate_line_refines (chars (text r))) as G.
    unfold gate_permits.
    destruct (splitlines (py_strip (chars (text r)))) as [|line rest].
    + rewrite G. reflexivity.
    + rewrite G. reflexivity.
Qed.

Lemma remote_gate_first_line_witness :
  fst (is_skipping_enabled calm_world sample_config warm_state) = Ok true
  /\ fst (is_skipping_enabled remote_off_world sample_config warm_state) = Ok false
  /\ fst (is_skipping_enabled remote_down_world sample_config warm_state) = Ok true.
Proof.
  assert (Url : REMOTE_CONTROL_URL sample_config <> "") by discriminate.
  split; [|split].
  - exact (proj2 (remote_gate_first_line calm_world sample_config warm_state Url)
             (mkResponse 200 "on" None) eq_refl).
  - exact (proj2 (remote_gate_first_line remote_off_world sample_config warm_state Url)
             (mkResponse 200 remote_off_body None) eq_refl).
  - exact (proj1 (remote_gate_first_line remote_down_world sample_config warm_state Url)
             eq_refl).
Defined.

(* ================================================================= *)
(** ** Decision loop: the paths that never reach a skip *)

Lemma print_run m s : print m s = (Ok tt, set_trace (EvLog m :: trace s) s).
Proof. reflexivity. Qed.

Lemma sleep_run w n s :
  sleep w n s
  = match sleep_error w n with
    | Some e => (Exc e, set_trace (EvSleep n :: trace s) s)
    | None => (if stop_signal w (tick s) then Exc KeyboardInterrupt else Ok tt,
               set_tick (S (tick s)) (set_trace (EvSleep n :: trace s) s))
    end.
Proof.
  unfold sleep, sleep_error, bind, emit, modify, step, raise, ret; simpl.
  destruct (_ || _); [reflexivity|].
  destruct (n <? 0); [reflexivity|].
  destruct (sleep_refused w n); [reflexivity|].
  change (tick (set_trace (EvSleep n :: trace s) s)) with (tick s).
  destruct (stop_signal w (tick s)); reflexivity.
Qed.

Lemma sleepable_no_error w n : sleepable w n -> sleep_error w n = None.
Proof.
  intros [[Lo Hi] R]. unfold sleep_error. rewrite R.
  replace (n <? - SLEEP_MAX) with false
    by (symmetry; apply Z.ltb_ge; unfold SLEEP_MAX in *; lia).
  replace (SLEEP_MAX <? n) with false by (symmetry; apply Z.ltb_ge; exact Hi).
  replace (n <? 0) with false by (symmetry; apply Z.ltb_ge; exact Lo).
  reflexivity.
Qed.

Ltac sleepable_here := split; [split; vm_compute; discriminate | reflexivity].

Lemma sleep_error_Exception w n e : sleep_error w n = Some e -> is_Exception e = true.
Proof.
  unfold sleep_error.
  destruct (_ || _); [intros H; inversion H; reflexivity|].
  destruct (n <? 0); [intros H; inversion H; reflexivity|].
  destruct (sleep_refused w n); intros H; inversion H; reflexivity.
Qed.

Lemma sleep_trace w n s : trace (snd (sleep w n s)) = EvSleep n :: trace s.
Proof. rewrite sleep_run. destruct (sleep_error w n); reflexivity. Qed.

Lemma sleep_decision w n s : decision (snd (sleep w n s)) = decision s.
Proof. rewrite sleep_run. destruct (sleep_error w n); reflexivity. Qed.

Lemma existsb_none {A} (p : A -> bool) l :
  forallb (fun x => negb (p x)) l = true -> existsb p l = false.
Proof.
  induction l as [|x l IH]; simpl; [reflexivity|].
  intros H. apply andb_prop in H as [Hx Hl].
  destruct (p x); [discriminate | auto].
Qed.

Lemma keeps_run {A} allowed frozen (m : M A) s r s' :
  keeps allowed frozen m -> m s = (r, s') -> rel allowed frozen s s'.
Proof. intros K E. specialize (K s). now rewrite E in K. Qed.

(** The handlers and the standard pause add only sleeps and the two
    handler messages to what the [try] block did. *)
Lemma main_loop_cycle_rel w cfg allowed s :
  (forall n, allowed (EvSleep n) = true) ->
  allowed (EvLog LogStoppedByUser) = true ->
  (forall e, allowed (EvLog (LogUnexpectedError e)) = true) ->
  rel allowed false (snd (loop_body w cfg s)) (snd (main_loop_cycle w cfg s)).
Proof.
  intros Sl St Un. unfold main_loop_cycle.
  destruct (loop_body w cfg s) as [[[]|e] s1]; simpl.
  - apply rel_refl.
  - apply (keeps_bind allowed false); [apply keeps_sleep, Sl | intro; apply keeps_ret].
  - assert (K1 : keeps allowed false
                   (bind (print LogStoppedByUser) (fun _ => ret Break)))
      by (apply keeps_bind; [apply keeps_print, St | intro; apply keeps_ret]).
    assert (K2 : keeps allowed false
                   (bind (print (LogUnexpectedError e))
                      (fun _ => bind (sleep w (POLL_INTERVAL_SECONDS cfg))
                         (fun _ => bind (sleep w (POLL_INTERVAL_SECONDS cfg))
                            (fun _ => ret Continue)))))
      by (apply keeps_bind; [apply keeps_print, Un | intro];
          apply keeps_bind; [apply keeps_sleep, Sl | intro];
          apply keeps_bind; [apply keeps_sleep, Sl | intro; apply keeps_ret]).
    destruct e; first [apply K1 | apply K2].
Qed.

Lemma poll_track_same_song w cfg s s1 s2 tr :
  skipping_paused s = false ->
  is_skipping_enabled w cfg s = (Ok true, s1) ->
  get_current_track w cfg s1 = (Ok (Some tr), s2) ->
  py_eq (track_id tr) (last_checked_track_id s) = true ->
  decision s2 = decision s
  /\ poll_track w cfg s
     = bind (print (LogSameSong (track_name tr)))
         (fun _ => bind (sleep w (POLL_INTERVAL_SECONDS cfg)) (fun _ => ret None)) s2.
Proof.
  intros Hp He Ht Hsame.
  assert (D : decision s2 = decision s).
  { destruct (keeps_run _ _ _ _ _ _ (keeps_is_skipping_enabled w cfg) He) as [_ D1].
    destruct (keeps_run _ _ _ _ _ _ (keeps_get_current_track w cfg) Ht) as [_ D2].
    rewrite (D2 eq_refl). apply (D1 eq_refl). }
  split; [exact D|].
  destruct (get_current_track_truthy w cfg s1 tr s2 Ht) as (T1 & _ & T3).
  destruct (truthy_track_passes tr T1 T3) as [N V].
  unfold poll_track. unfold bind at 1. unfold gets at 1. rewrite Hp.
  rewrite (bind_Ok _ _ _ _ _ He). change (negb true) with false. cbv iota.
  rewrite (bind_Ok _ _ _ _ _ Ht). rewrite N, V.
  unfold bind at 1. unfold gets at 1.
  assert (L : last_checked_track_id s2 = last_checked_track_id s)
    by (unfold decision in D; congruence).
  rewrite L, Hsame. reflexivity.
Qed.

(** C5: when the poll observes the track that is already recorded as last
    checked, the cycle logs it, sleeps one full interval and ends: no
    history lookup is sent, no skip is decided or sent, and the decision
    state (pause flags, temporary-pause mark, last checked track, ledger) is
    what it was. *)
Theorem same_track_skips_the_check w cfg s s1 s2 tr :
  skipping_paused s = false ->
  is_skipping_enabled w cfg s = (Ok true, s1) ->
  get_current_track w cfg s1 = (Ok (Some tr), s2) ->
  py_eq (track_id tr) (last_checked_track_id s) = true ->
  trace (snd (loop_body w cfg s))
    = EvSleep (POLL_INTERVAL_SECONDS cfg) :: EvLog (LogSameSong (track_name tr)) :: trace s2
  /\ existsb is_lookup_request (new_events s (snd (loop_body w cfg s))) = false
  /\ existsb is_skip_request (new_events s (snd (loop_body w cfg s))) = false
  /\ existsb is_skip_decision (new_events s (snd (loop_body w cfg s))) = false
  /\ decision (snd (loop_body w cfg s)) = decision s
  /\ (sleepable w (POLL_INTERVAL_SECONDS cfg) -> stop_signal w (tick s2) = false ->
      main_loop_cycle w cfg s = (Ok Continue, snd (loop_body w cfg s))).
Proof.
  intros Hp He Ht Hsame.
  destruct (poll_track_same_song w cfg s s1 s2 tr Hp He Ht Hsame) as [D P].
  set (s3 := set_trace (EvLog (LogSameSong (track_name tr)) :: trace s2) s2).
  assert (B : loop_body w cfg s
              = match sleep w (POLL_INTERVAL_SECONDS cfg) s3 with
                | (Ok _, s4) => (Ok ViaContinue, s4)
                | (Exc e, s4) => (Exc e, s4)
                end).
  { unfold loop_body. unfold bind at 1. rewrite P.
    unfold bind, print, emit, modify, ret. fold s3.
    destruct (sleep w (POLL_INTERVAL_SECONDS cfg) s3) as [[[]|e] s4]; reflexivity. }
  assert (S4 : snd (loop_body w cfg s) = snd (sleep w (POLL_INTERVAL_SECONDS cfg) s3)).
  { rewrite B. destruct (sleep w (POLL_INTERVAL_SECONDS cfg) s3) as [[[]|e] s4]; reflexivity. }
  assert (T : trace (snd (loop_body w cfg s))
              = EvSleep (POLL_INTERVAL_SECONDS cfg)
                  :: EvLog (LogSameSong (track_name tr)) :: trace s2).
  { rewrite S4, sleep_trace. reflexivity. }
  assert (R : rel (fun e => negb (is_lookup_request e) && negb (is_skip_request e)
                            && negb (is_skip_decision e))
                  false s (snd (loop_body w cfg s))).
  { eapply rel_trans; [|eapply rel_trans].
    - eapply rel_weaken; [| |exact (keeps_run _ _ _ _ _ _ (keeps_is_skipping_enabled w cfg) He)];
        [fp_incl | trivial].
    - eapply rel_weaken; [| |exact (keeps_run _ _ _ _ _ _ (keeps_get_current_track w cfg) Ht)];
        [fp_incl | trivial].
    - split; [|discriminate].
      exists [EvSleep (POLL_INTERVAL_SECONDS cfg); EvLog (LogSameSong (track_name tr))].
      split; [exact T | reflexivity]. }
  apply rel_new_events in R. rewrite forallb_forall in R.
  assert (Q : forall p : event -> bool,
             (forall e, negb (is_lookup_request e) && negb (is_skip_request e)
                        && negb (is_skip_decision e) = true -> p e = false) ->
             existsb p (new_events s (snd (loop_body w cfg s))) = false).
  { intros p Hp'. apply existsb_none. apply forallb_forall.
    intros e In. rewrite (Hp' e (R e In)). reflexivity. }
  split; [exact T|]. split; [|split; [|split; [|split]]].
  - apply Q. intros e H. apply andb_prop in H as [H _]. apply andb_prop in H as [H _].
    now apply negb_true_iff.
  - apply Q. intros e H. apply andb_prop in H as [H _]. apply andb_prop in H as [_ H].
    now apply negb_true_iff.
  - apply Q. intros e H. apply andb_prop in H as [_ H]. now apply negb_true_iff.
  - rewrite S4, sleep_decision. exact D.
  - intros Pos Stop. unfold main_loop_cycle. rewrite B, sleep_run.
    rewrite (sleepable_no_error _ _ Pos).
    change (tick s3) with (tick s2). rewrite Stop. reflexivity.
Qed.

Lemma same_track_skips_the_check_witness :
  existsb is_lookup_request
    (new_events after_first_poll (snd (loop_body calm_world sample_config after_first_poll)))
  = false
  /\ main_loop_cycle calm_world sample_config after_first_poll
     = (Ok Continue, snd (loop_body calm_world sample_config after_first_poll)).
Proof.
  destruct (same_track_skips_the_check calm_world sample_config after_first_poll
              (snd (is_skipping_enabled calm_world sample_config after_first_poll))
              (snd (get_current_track calm_world sample_config
                      (snd (is_skipping_enabled calm_world sample_config after_first_poll))))
              sample_track eq_refl eq_refl eq_refl eq_refl)
    as (_ & NoLookup & _ & _ & _ & Cycle).
  split; [exact NoLookup|].
  apply Cycle; [sleepable_here | reflexivity].
Defined.

Lemma no_skip_events s s' :
  rel no_skip_event false s s' ->
  existsb is_skip_request (new_events s s') = false
  /\ existsb is_skip_decision (new_events s s') = false.
Proof.
  intros R. apply rel_new_events in R. rewrite forallb_forall in R.
  split; apply existsb_none, forallb_forall; intros e In;
    specialize (R e In); unfold no_skip_event in R;
    apply andb_prop in R as [R1 R2]; assumption.
Qed.

Lemma cycle_without_skip w cfg s :
  rel no_skip_event false s (snd (loop_body w cfg s)) ->
  rel no_skip_event false s (snd (main_loop_cycle w cfg s)).
Proof.
  intros R. eapply rel_trans; [exact R|].
  apply main_loop_cycle_rel; reflexivity.
Qed.

Lemma get_last_play_date_netfail w cfg artist track s :
  http w (tick s) (ReqLastfm (LASTFM_USER cfg) artist track) = NetFail ->
  fst (get_last_play_date w cfg artist track s) = Ok None.
Proof.
  intros F. unfold get_last_play_date, try_except. unfold bind at 1 2.
  rewrite http_call_run, F. reflexivity.
Qed.

Lemma get_last_play_date_status w cfg artist track s r :
  http w (tick s) (ReqLastfm (LASTFM_USER cfg) artist track) = Resp r ->
  status_code r <> 200 ->
  fst (get_last_play_date w cfg artist track s) = Ok None.
Proof.
  intros F St. unfold get_last_play_date, try_except. unfold bind at 1 2.
  rewrite http_call_run, F. unfold ret at 1. cbv beta iota.
  replace (status_code r =? 200) with false by (symmetry; now apply Z.eqb_neq).
  reflexivity.
Qed.

Lemma get_last_play_date_empty w cfg artist track s r j v :
  http w (tick s) (ReqLastfm (LASTFM_USER cfg) artist track) = Resp r ->
  status_code r = 200 ->
  json_body r = Some j ->
  scrobbles_of j = Ok v ->
  truthy v = false ->
  fst (get_last_play_date w cfg artist track s) = Ok None.
Proof.
  intros F St J Sc Tv. unfold get_last_play_date, try_except. unfold bind at 1 2.
  rewrite http_call_run, F. unfold ret at 1. cbv beta iota.
  rewrite St. change (negb (200 =? 200)) with false. cbv iota.
  unfold resp_json. rewrite J. unfold scrobbles_of in Sc.
  unfold bind, ret, lift.
  destruct (py_get (py_or j (JObj [])) "trackscrobbles" (JObj [])) as [ts|e];
    [|discriminate].
  rewrite Sc, Tv. reflexivity.
Qed.

Lemma get_last_play_date_malformed w cfg artist track s r uts :
  http w (tick s) (ReqLastfm (LASTFM_USER cfg) artist track) = Resp r ->
  status_code r = 200 ->
  json_body r = Some (scrobbles_as_list uts)
  \/ json_body r = Some (scrobbles_as_dict uts) ->
  py_int uts = Exc ValueError ->
  fst (get_last_play_date w cfg artist track s) = Ok None.
Proof.
  intros F St J Bad. unfold get_last_play_date, try_except. unfold bind at 1 2.
  rewrite http_call_run, F. unfold ret at 1. cbv beta iota.
  rewrite St. change (negb (200 =? 200)) with false. cbv iota.
  unfold resp_json, parse_uts, try_except.
  destruct J as [J|J]; rewrite J; unfold bind, ret, lift; simpl;
    destruct (truthy uts); try reflexivity; rewrite Bad; reflexivity.
Qed.

(** C2: in a cycle whose history lookup comes back absent, the loop logs
    that there is no scrobble and falls through to the standard pause; no
    skip is decided and no skip command is sent anywhere in that cycle.
    The lookup comes back absent, in particular, when the request fails at
    transport level, when the status is not 200, when the scrobble field is
    missing or empty, and when the timestamp does not parse. *)
Theorem absent_history_never_skips w cfg :
  (forall s tr s1 s2,
      poll_track w cfg s = (Ok (Some tr), s1) ->
      get_last_play_date w cfg (artist_name tr) (track_name tr) s1 = (Ok None, s2) ->
      loop_body w cfg s
        = (Ok FallThrough, set_trace (EvLog LogNoScrobble :: trace s2) s2)
      /\ existsb is_skip_request (new_events s (snd (main_loop_cycle w cfg s))) = false
      /\ existsb is_skip_decision (new_events s (snd (main_loop_cycle w cfg s))) = false)
  /\ (forall artist track s,
        (http w (tick s) (ReqLastfm (LASTFM_USER cfg) artist track) = NetFail ->
         fst (get_last_play_date w cfg artist track s) = Ok None)
        /\ (forall r,
              http w (tick s) (ReqLastfm (LASTFM_USER cfg) artist track) = Resp r ->
              status_code r <> 200 ->
              fst (get_last_play_date w cfg artist track s) = Ok None)
        /\ (forall r j v,
              http w (tick s) (ReqLastfm (LASTFM_USER cfg) artist track) = Resp r ->
              status_code r = 200 ->
              json_body r = Some j ->
              scrobbles_of j = Ok v ->
              truthy v = false ->
              fst (get_last_play_date w cfg artist track s) = Ok None)
        /\ (forall r uts,
              http w (tick s) (ReqLastfm (LASTFM_USER cfg) artist track) = Resp r ->
              status_code r = 200 ->
              json_body r = Some (scrobbles_as_list uts)
              \/ json_body r = Some (scrobbles_as_dict uts) ->
              py_int uts = Exc ValueError ->
              fst (get_last_play_date w cfg artist track s) = Ok None)).
Proof.
  split.
  - intros s tr s1 s2 Hp Hl.
    assert (B : loop_body w cfg s
                = (Ok FallThrough, set_trace (EvLog LogNoScrobble :: trace s2) s2)).
    { unfold loop_body. rewrite (bind_Ok _ _ _ _ _ Hp).
      rewrite (bind_Ok _ _ _ _ _ Hl). reflexivity. }
    split; [exact B|].
    apply no_skip_events, cycle_without_skip. rewrite B. simpl.
    eapply rel_trans; [|eapply rel_trans].
    + eapply rel_weaken; [| |exact (keeps_run _ _ _ _ _ _ (keeps_poll_track w cfg) Hp)];
        [fp_incl | trivial].
    + eapply rel_weaken;
        [| |exact (keeps_run _ _ _ _ _ _
                     (keeps_get_last_play_date w cfg (artist_name tr) (track_name tr)) Hl)];
        [fp_incl | trivial].
    + split; [|discriminate]. exists [EvLog LogNoScrobble]. split; reflexivity.
  - intros artist track s. split; [|split; [|split]].
    + apply get_last_play_date_netfail.
    + apply get_last_play_date_status.
    + apply get_last_play_date_empty.
    + apply get_last_play_date_malformed.
Qed.

Lemma absent_history_never_skips_witness :
  loop_body never_played_world sample_config warm_state
    = (Ok FallThrough,
       snd (loop_body never_played_world sample_config warm_state))
  /\ existsb is_skip_request
       (new_events warm_state (snd (main_loop_cycle never_played_world sample_config warm_state)))
     = false.
Proof.
  pose (s1 := snd (poll_track never_played_world sample_config warm_state)).
  pose (s2 := snd (get_last_play_date never_played_world sample_config
                     (artist_name sample_track) (track_name sample_track) s1)).
  assert (Hp : poll_track never_played_world sample_config warm_state
               = (Ok (Some sample_track), s1)) by (vm_compute; reflexivity).
  assert (Hl : get_last_play_date never_played_world sample_config
                 (artist_name sample_track) (track_name sample_track) s1
               = (Ok None, s2)) by (vm_compute; reflexivity).
  destruct (proj1 (absent_history_never_skips never_played_world sample_config)
              warm_state sample_track s1 s2 Hp Hl)
    as (B & NoSkip & _).
  split; [rewrite B; reflexivity | exact NoSkip].
Defined.

(* ================================================================= *)
(** ** History client: the two response shapes *)

Lemma get_last_play_date_timestamp w cfg artist track s r uts ts :
  http w (tick s) (ReqLastfm (LASTFM_USER cfg) artist track) = Resp r ->
  status_code r = 200 ->
  truthy uts = true ->
  py_int uts = Ok ts ->
  gmtime_fail w ts = None ->
  datetime_in_range (ts * US_PER_SECOND) = true ->
  (json_body r = Some (scrobbles_as_list uts) ->
   fst (get_last_play_date w cfg artist track s)
   = Ok (Some (mkDatetime (ts * US_PER_SECOND) true)))
  /\ (json_body r = Some (scrobbles_as_dict uts) ->
      fst (get_last_play_date w cfg artist track s)
      = Ok (Some (mkDatetime (ts * US_PER_SECOND) false))).
Proof.
  intros F St Tu Pi Gm Rg.
  split; intros J;
    unfold get_last_play_date, try_except; unfold bind at 1 2;
    rewrite http_call_run, F; unfold ret at 1; cbv beta iota;
    rewrite St; change (negb (200 =? 200)) with false; cbv iota;
    unfold resp_json, parse_uts, try_except, datetime_fromtimestamp_utc,
      datetime_utcfromtimestamp, fromtimestamp;
    rewrite J; unfold bind, ret, lift; simpl;
    rewrite Tu, Pi, Gm, Rg; reflexivity.
Qed.

(** A naive timestamp stops the decision at line 621, before the window is
    looked at. *)
Lemma evaluate_track_naive w cfg lp s :
  aware lp = false ->
  evaluate_track w cfg (Some lp) s = (Exc TypeError, set_tick (S (tick s)) s).
Proof.
  intros N. unfold evaluate_track, now, step, bind, ret, lift, datetime_sub. simpl.
  rewrite N. reflexivity.
Qed.

(** C9: for one and the same [uts] value the list-shaped answer yields a
    timezone-aware datetime and the single-object answer a naive one: the
    calendar fields agree, the values do not, and with the naive one the
    decision loop raises at the subtraction of line 621 instead of
    evaluating the window. *)
Theorem history_shapes_disagree w cfg artist track s r_list r_dict uts ts :
  status_code r_list = 200 -> json_body r_list = Some (scrobbles_as_list uts) ->
  status_code r_dict = 200 -> json_body r_dict = Some (scrobbles_as_dict uts) ->
  truthy uts = true ->
  py_int uts = Ok ts ->
  gmtime_fail w ts = None ->
  datetime_in_range (ts * US_PER_SECOND) = true ->
  (http w (tick s) (ReqLastfm (LASTFM_USER cfg) artist track) = Resp r_list ->
   fst (get_last_play_date w cfg artist track s)
   = Ok (Some (mkDatetime (ts * US_PER_SECOND) true)))
  /\ (http w (tick s) (ReqLastfm (LASTFM_USER cfg) artist track) = Resp r_dict ->
      fst (get_last_play_date w cfg artist track s)
      = Ok (Some (mkDatetime (ts * US_PER_SECOND) false)))
  /\ mkDatetime (ts * US_PER_SECOND) true <> mkDatetime (ts * US_PER_SECOND) false
  /\ (forall s', fst (evaluate_track w cfg (Some (mkDatetime (ts * US_PER_SECOND) false)) s')
                 = Exc TypeError).
Proof.
  intros St1 J1 St2 J2 Tu Pi Gm Rg. split; [|split; [|split]].
  - intros F.
    apply (proj1 (get_last_play_date_timestamp w cfg artist track s r_list uts ts
                    F St1 Tu Pi Gm Rg) J1).
  - intros F.
    apply (proj2 (get_last_play_date_timestamp w cfg artist track s r_dict uts ts
                    F St2 Tu Pi Gm Rg) J2).
  - discriminate.
  - intros s'. now rewrite evaluate_track_naive.
Qed.

Lemma history_shapes_disagree_witness :
  fst (get_last_play_date calm_world sample_config (JStr "Skyforest")
         (JStr "Heart of the Forest") warm_state)
    = Ok (Some (mkDatetime 1699000000000000 true))
  /\ fst (get_last_play_date single_object_world sample_config (JStr "Skyforest")
            (JStr "Heart of the Forest") warm_state)
     = Ok (Some (mkDatetime 1699000000000000 false))
  /\ fst (main_loop_cycle single_object_world sample_config warm_state) = Ok Continue
  /\ existsb is_skip_request
       (new_events warm_state (snd (main_loop_cycle single_object_world sample_config warm_state)))
     = false
  /\ existsb is_skip_request
       (new_events warm_state (snd (main_loop_cycle calm_world sample_config warm_state)))
     = true.
Proof.
  split; [|split; [|split; [|split]]].
  - apply (proj1 (history_shapes_disagree calm_world sample_config (JStr "Skyforest")
                    (JStr "Heart of the Forest") warm_state
                    (mkResponse 200 "" (Some (scrobbles_as_list (JStr "1699000000"))))
                    (mkResponse 200 "" (Some (scrobbles_as_dict (JStr "1699000000"))))
                    (JStr "1699000000") 1699000000
                    eq_refl eq_refl eq_refl eq_refl eq_refl eq_refl eq_refl eq_refl)).
    reflexivity.
  - apply (proj1 (proj2 (history_shapes_disagree single_object_world sample_config
                    (JStr "Skyforest") (JStr "Heart of the Forest") warm_state
                    (mkResponse 200 "" (Some (scrobbles_as_list (JStr "1699000000"))))
                    (mkResponse 200 "" (Some (scrobbles_as_dict (JStr "1699000000"))))
                    (JStr "1699000000") 1699000000
                    eq_refl eq_refl eq_refl eq_refl eq_refl eq_refl eq_refl eq_refl))).
    reflexivity.
  - reflexivity.
  - reflexivity.
  - reflexivity.
Defined.

(* ================================================================= *)
(** ** Decision loop: the outer exception boundary *)

(** C6: when the [try] block raises anything but the external stop signal,
    the handler logs it and sleeps a full poll interval, control then falls
    out of the [try] statement into the standard pause of line 670, which
    sleeps a full poll interval again, and the loop continues: two
    intervals, not one. *)
Theorem unexpected_error_sleeps_twice w cfg s e s1 :
  loop_body w cfg s = (Exc e, s1) ->
  e <> KeyboardInterrupt ->
  sleepable w (POLL_INTERVAL_SECONDS cfg) ->
  stop_signal w (tick s1) = false ->
  stop_signal w (S (tick s1)) = false ->
  fst (main_loop_cycle w cfg s) = Ok Continue
  /\ new_events s1 (snd (main_loop_cycle w cfg s))
     = [EvSleep (POLL_INTERVAL_SECONDS cfg); EvSleep (POLL_INTERVAL_SECONDS cfg);
        EvLog (LogUnexpectedError e)].
Proof.
  intros B NotStop Pos Stop1 Stop2.
  assert (R : main_loop_cycle w cfg s
              = bind (print (LogUnexpectedError e))
                  (fun _ => bind (sleep w (POLL_INTERVAL_SECONDS cfg))
                     (fun _ => bind (sleep w (POLL_INTERVAL_SECONDS cfg))
                        (fun _ => ret Continue))) s1).
  { unfold main_loop_cycle. rewrite B. destruct e; try reflexivity. congruence. }
  rewrite R. unfold bind at 1. unfold print, emit, modify. cbv beta iota.
  assert (NonNeg : sleep_error w (POLL_INTERVAL_SECONDS cfg) = None)
    by now apply sleepable_no_error.
  unfold bind. rewrite sleep_run, NonNeg. simpl. rewrite Stop1.
  rewrite sleep_run, NonNeg. simpl. rewrite Stop2. simpl.
  split; [reflexivity|].
  apply new_events_app. reflexivity.
Qed.

Lemma unexpected_error_sleeps_twice_witness :
  loop_body unreachable_player_world sample_config warm_state
    = (Exc RequestException,
       snd (loop_body unreachable_player_world sample_config warm_state))
  /\ new_events (snd (loop_body unreachable_player_world sample_config warm_state))
       (snd (main_loop_cycle unreachable_player_world sample_config warm_state))
     = [EvSleep 120; EvSleep 120; EvLog (LogUnexpectedError RequestException)].
Proof.
  split; [reflexivity|].
  apply (unexpected_error_sleeps_twice unreachable_player_world sample_config warm_state
           RequestException
           (snd (loop_body unreachable_player_world sample_config warm_state))).
  - reflexivity.
  - discriminate.
  - sleepable_here.
  - reflexivity.
  - reflexivity.
Defined.

(* ================================================================= *)
(** ** Decision loop: the skip window *)

Lemma evaluate_track_aware w cfg lp s2 :
  aware lp = true ->
  - TIMEDELTA_MAX_DAYS <= SKIP_WINDOW_DAYS cfg <= TIMEDELTA_MAX_DAYS ->
  datetime_in_range (cutoff_us w cfg s2) = true ->
  evaluate_track w cfg (Some lp) s2
  = if cutoff_us w cfg s2 <? micros lp
    then skip_branch w cfg (days_since_at w s2 lp) (scrobble_logged w s2 lp)
    else (Ok FallThrough,
          set_trace (EvLog LogOlderThanWindow :: trace (scrobble_logged w s2 lp))
                    (scrobble_logged w s2 lp)).
Proof.
  intros Aw Win Rg.
  unfold evaluate_track, now, step, bind, ret, lift, print, emit, modify,
    datetime_sub, datetime_gt, datetime_add, timedelta_us. simpl.
  rewrite Aw. simpl.
  rewrite Z.div_mul by (unfold US_PER_DAY, US_PER_SECOND; lia).
  replace ((-999999999 <=? SKIP_WINDOW_DAYS cfg)
           && (SKIP_WINDOW_DAYS cfg <=? TIMEDELTA_MAX_DAYS)) with true
    by (symmetry; apply andb_true_intro; split; apply Z.leb_le;
        unfold TIMEDELTA_MAX_DAYS in *; lia).
  change (clock w (S (tick s2)) + - (SKIP_WINDOW_DAYS cfg * US_PER_DAY))
    with (cutoff_us w cfg s2).
  rewrite Rg. simpl.
  destruct (cutoff_us w cfg s2 <? micros lp); reflexivity.
Qed.

Lemma rel_grows a f s s' : rel a f s s' -> grows s s'.
Proof. intros [[evs [T _]] _]. now exists evs. Qed.

Lemma keeps_grows {A} a f (m : M A) s : keeps a f m -> grows s (snd (m s)).
Proof. intros K. eapply rel_grows, K. Qed.

Lemma grows_refl s : grows s s.
Proof. now exists []. Qed.

Lemma grows_trans s1 s2 s3 : grows s1 s2 -> grows s2 s3 -> grows s1 s3.
Proof.
  intros [e1 T1] [e2 T2]. exists (e2 ++ e1)%list. rewrite T2, T1. apply app_assoc.
Qed.

Lemma grows_cons s s' e : trace s' = e :: trace s -> grows s s'.
Proof. intros T. now exists [e]. Qed.

Lemma new_events_split s s1 s2 :
  grows s s1 -> grows s1 s2 ->
  new_events s s2 = (new_events s1 s2 ++ new_events s s1)%list.
Proof.
  intros [e1 T1] [e2 T2].
  rewrite (new_events_app _ _ _ T1), (new_events_app _ _ _ T2).
  apply new_events_app. rewrite T2, T1. apply app_assoc.
Qed.

(** An event stays among the new events of every later state. *)
Lemma new_events_later s s1 s2 e :
  grows s s1 -> grows s1 s2 -> In e (new_events s s1) -> In e (new_events s s2).
Proof.
  intros G1 G2 I. rewrite (new_events_split s s1 s2 G1 G2).
  apply in_or_app. now right.
Qed.

Lemma new_events_latest s s0 s1 e :
  grows s s0 -> trace s1 = e :: trace s0 -> In e (new_events s s1).
Proof.
  intros G T. rewrite (new_events_split s s0 s1 G (grows_cons _ _ _ T)).
  apply in_or_app. left.
  rewrite (new_events_app s0 s1 [e]); [now left | exact T].
Qed.

Lemma bind_grows {A B} (m : M A) (k : A -> M B) s :
  (forall a, keeps fp_all false (k a)) -> grows (snd (m s)) (snd (bind m k s)).
Proof. intros K. eapply rel_grows, bind_rel, K. Qed.

Lemma In_existsb {A} (p : A -> bool) l x : In x l -> p x = true -> existsb p l = true.
Proof. intros I P. apply existsb_exists. now exists x. Qed.

(** The skip branch opens with its decision message. *)
Lemma skip_branch_logs_decision w cfg d s :
  In (EvLog (LogAlreadyListened d)) (new_events s (snd (skip_branch w cfg d s))).
Proof.
  assert (G : grows (snd (print (LogAlreadyListened d) s)) (snd (skip_branch w cfg d s)))
    by (unfold skip_branch; apply bind_grows; intro; keeps_walk).
  eapply new_events_later; [| exact G |].
  - eapply grows_cons. reflexivity.
  - eapply new_events_latest; [apply grows_refl | reflexivity].
Qed.

(** Once the pause-state query and the token for the skip call are there,
    the skip command goes out. *)
Lemma skip_branch_issues_skip w cfg d s paused s3 tok s4 :
  is_spotify_paused w cfg (set_trace (EvLog (LogAlreadyListened d) :: trace s) s)
    = (Ok paused, s3) ->
  get_spotify_token w cfg s3 = (Ok tok, s4) ->
  In (EvRequest (ReqNext tok)) (new_events s (snd (skip_branch w cfg d s))).
Proof.
  intros Hq Ht.
  set (s1 := set_trace (EvLog (LogAlreadyListened d) :: trace s) s) in *.
  set (s5 := snd (http_call w (ReqNext tok) s4)).
  assert (G01 : grows s s1) by (eapply grows_cons; reflexivity).
  assert (G13 : grows s1 s3)
    by (eapply rel_grows, (keeps_run _ _ _ _ _ _ (keeps_is_spotify_paused w cfg) Hq)).
  assert (G34 : grows s3 s4)
    by (eapply rel_grows, (keeps_run _ _ _ _ _ _ (keeps_get_spotify_token w cfg) Ht)).
  assert (T5 : trace s5 = EvRequest (ReqNext tok) :: trace s4)
    by apply http_call_trace.
  assert (G5 : grows s5 (snd (skip_branch w cfg d s))).
  { unfold skip_branch. rewrite (bind_Ok _ _ _ _ _ (print_run _ s)).
    fold s1. rewrite (bind_Ok _ _ _ _ _ Hq).
    eapply grows_trans; [|apply bind_grows; intro; keeps_walk].
    unfold skip_current_track.
    eapply grows_trans; [|apply bind_grows; intro; keeps_walk].
    unfold spotify_post. rewrite (bind_Ok _ _ _ _ _ Ht). apply grows_refl. }
  eapply new_events_later; [| exact G5 |].
  - eapply grows_trans; [exact G01|]. eapply grows_trans; [exact G13|].
    eapply grows_trans; [exact G34|]. eapply grows_cons, T5.
  - eapply new_events_latest; [|exact T5].
    eapply grows_trans; [exact G01|]. eapply grows_trans; [exact G13|]. exact G34.
Qed.

Lemma new_events_wider s0 s s' e :
  grows s0 s -> grows s s' -> In e (new_events s s') -> In e (new_events s0 s').
Proof.
  intros G1 G2 I. rewrite (new_events_split s0 s s' G1 G2).
  apply in_or_app. now left.
Qed.

Lemma cycle_grows w cfg s : grows (snd (loop_body w cfg s)) (snd (main_loop_cycle w cfg s)).
Proof. eapply rel_grows. apply (main_loop_cycle_rel w cfg fp_all); reflexivity. Qed.

(** What happened inside the [try] block is part of what the cycle did. *)
Lemma in_cycle w cfg s sx e :
  grows s sx -> grows sx (snd (loop_body w cfg s)) ->
  In e (new_events sx (snd (loop_body w cfg s))) ->
  In e (new_events s (snd (main_loop_cycle w cfg s))).
Proof.
  intros G1 G2 I.
  eapply new_events_later; [eapply grows_trans; eassumption | apply cycle_grows |].
  eapply new_events_wider; eassumption.
Qed.

(** C1, as amended: for a newly observed track whose lookup returned a
    timezone-aware timestamp, and with a window for which now minus the
    window is a representable datetime, the loop decides to skip iff the
    timestamp is strictly after now minus the window (the clock reading
    taken for the cutoff); a timestamp exactly at the cutoff is not skipped
    and no skip command is sent for it.  Having decided to skip, the loop
    sends the skip command as soon as the pause-state query and the token
    acquisition that precede it return without raising. *)
Theorem skip_iff_recent_when_evaluable w cfg s tr s1 lp s2 :
  poll_track w cfg s = (Ok (Some tr), s1) ->
  get_last_play_date w cfg (artist_name tr) (track_name tr) s1 = (Ok (Some lp), s2) ->
  aware lp = true ->
  - TIMEDELTA_MAX_DAYS <= SKIP_WINDOW_DAYS cfg <= TIMEDELTA_MAX_DAYS ->
  datetime_in_range (cutoff_us w cfg s2) = true ->
  (existsb is_skip_decision (new_events s (snd (main_loop_cycle w cfg s))) = true
   <-> cutoff_us w cfg s2 < micros lp)
  /\ (existsb is_skip_request (new_events s (snd (main_loop_cycle w cfg s))) = true ->
      cutoff_us w cfg s2 < micros lp)
  /\ (micros lp = cutoff_us w cfg s2 ->
      existsb is_skip_decision (new_events s (snd (main_loop_cycle w cfg s))) = false
      /\ existsb is_skip_request (new_events s (snd (main_loop_cycle w cfg s))) = false)
  /\ (cutoff_us w cfg s2 < micros lp ->
      forall paused s3 tok s4,
        is_spotify_paused w cfg (skip_branch_entry w s2 lp) = (Ok paused, s3) ->
        get_spotify_token w cfg s3 = (Ok tok, s4) ->
        existsb is_skip_request (new_events s (snd (main_loop_cycle w cfg s))) = true).
Proof.
  intros Hp Hl Aw Win Rg.
  assert (B : loop_body w cfg s = evaluate_track w cfg (Some lp) s2).
  { unfold loop_body. rewrite (bind_Ok _ _ _ _ _ Hp).
    apply (bind_Ok _ _ _ _ _ Hl). }
  rewrite (evaluate_track_aware w cfg lp s2 Aw Win Rg) in B.
  set (sl := scrobble_logged w s2 lp) in *.
  assert (R0 : rel no_skip_event false s sl).
  { eapply rel_trans; [|eapply rel_trans].
    - eapply rel_weaken; [| |exact (keeps_run _ _ _ _ _ _ (keeps_poll_track w cfg) Hp)];
        [fp_incl | trivial].
    - eapply rel_weaken;
        [| |exact (keeps_run _ _ _ _ _ _
                     (keeps_get_last_play_date w cfg (artist_name tr) (track_name tr)) Hl)];
        [fp_incl | trivial].
    - split; [|discriminate].
      exists [EvLog (LogLastScrobble lp (days_since_at w s2 lp))]. split; reflexivity. }
  assert (Old : (cutoff_us w cfg s2 <? micros lp) = false ->
                existsb is_skip_request (new_events s (snd (main_loop_cycle w cfg s))) = false
                /\ existsb is_skip_decision (new_events s (snd (main_loop_cycle w cfg s))) = false).
  { intros C. rewrite C in B.
    apply no_skip_events, cycle_without_skip. rewrite B. simpl.
    eapply rel_trans; [exact R0|]. split; [|discriminate].
    exists [EvLog LogOlderThanWindow]. split; reflexivity. }
  assert (New : (cutoff_us w cfg s2 <? micros lp) = true ->
                snd (loop_body w cfg s)
                = snd (skip_branch w cfg (days_since_at w s2 lp) sl)).
  { intros C. rewrite C in B. now rewrite B. }
  assert (G : grows sl (snd (skip_branch w cfg (days_since_at w s2 lp) sl)))
    by apply (keeps_grows _ _ _ _ (keeps_skip_branch w cfg (days_since_at w s2 lp))).
  split; [|split; [|split]].
  - destruct (cutoff_us w cfg s2 <? micros lp) eqn:C.
    + split; [intros _; now apply Z.ltb_lt|]. intros _.
      eapply In_existsb;
        [eapply (in_cycle w cfg s sl); [eapply rel_grows, R0 | | ];
         rewrite (New eq_refl); [exact G | apply skip_branch_logs_decision]
        | reflexivity].
    + destruct (Old eq_refl) as [_ O]. rewrite O.
      split; [discriminate|]. intros L. apply Z.ltb_ge in C. lia.
  - destruct (cutoff_us w cfg s2 <? micros lp) eqn:C.
    + intros _. now apply Z.ltb_lt.
    + destruct (Old eq_refl) as [O _]. rewrite O. discriminate.
  - intros E.
    assert (C : (cutoff_us w cfg s2 <? micros lp) = false) by (apply Z.ltb_ge; lia).
    destruct (Old C) as [O1 O2]. split; assumption.
  - intros L paused s3 tok s4 Hq Ht.
    assert (C : (cutoff_us w cfg s2 <? micros lp) = true) by now apply Z.ltb_lt.
    eapply In_existsb;
      [eapply (in_cycle w cfg s sl); [eapply rel_grows, R0 | | ];
       rewrite (New C); [exact G | eapply skip_branch_issues_skip; eassumption]
      | reflexivity].
Qed.

Lemma skip_iff_recent_when_evaluable_witness :
  existsb is_skip_decision
    (new_events warm_state (snd (main_loop_cycle calm_world sample_config warm_state)))
  = true
  /\ existsb is_skip_request
       (new_events warm_state (snd (main_loop_cycle calm_world sample_config warm_state)))
     = true.
Proof.
  pose (s1 := snd (poll_track calm_world sample_config warm_state)).
  pose (s2 := snd (get_last_play_date calm_world sample_config
                     (artist_name sample_track) (track_name sample_track) s1)).
  pose (lp := mkDatetime 1699000000000000 true).
  pose (s3 := snd (is_spotify_paused calm_world sample_config
                     (skip_branch_entry calm_world s2 lp))).
  pose (s4 := snd (get_spotify_token calm_world sample_config s3)).
  assert (Hp : poll_track calm_world sample_config warm_state
               = (Ok (Some sample_track), s1)) by (vm_compute; reflexivity).
  assert (Hl : get_last_play_date calm_world sample_config
                 (artist_name sample_track) (track_name sample_track) s1
               = (Ok (Some lp), s2)) by (vm_compute; reflexivity).
  assert (Win : - TIMEDELTA_MAX_DAYS <= SKIP_WINDOW_DAYS sample_config <= TIMEDELTA_MAX_DAYS)
    by (split; discriminate).
  assert (Rg : datetime_in_range (cutoff_us calm_world sample_config s2) = true)
    by (vm_compute; reflexivity).
  assert (Recent : cutoff_us calm_world sample_config s2 < micros lp)
    by (vm_compute; reflexivity).
  assert (Hq : is_spotify_paused calm_world sample_config
                 (skip_branch_entry calm_world s2 lp) = (Ok true, s3))
    by (vm_compute; reflexivity).
  assert (Ht : get_spotify_token calm_world sample_config s3 = (Ok (JStr "BQD-token"), s4))
    by (vm_compute; reflexivity).
  destruct (skip_iff_recent_when_evaluable calm_world sample_config warm_state
              sample_track s1 lp s2 Hp Hl eq_refl Win Rg)
    as (Decide & _ & _ & Send).
  split.
  - apply Decide. exact Recent.
  - exact (Send Recent true s3 (JStr "BQD-token") s4 Hq Ht).
Defined.

(** The claim as stated fails when the pause-state query that precedes the
    skip cannot be reached: the track was scrobbled eleven days ago, well
    inside the sixty-day window, and no skip command is sent. *)
Lemma skip_iff_recent_fails :
  ~ claim_skip_iff_recent pause_query_down_world sample_config warm_state.
Proof.
  intros Claim.
  pose (s1 := snd (poll_track pause_query_down_world sample_config warm_state)).
  pose (s2 := snd (get_last_play_date pause_query_down_world sample_config
                     (artist_name sample_track) (track_name sample_track) s1)).
  pose (lp := mkDatetime 1699000000000000 true).
  assert (Hp : poll_track pause_query_down_world sample_config warm_state
               = (Ok (Some sample_track), s1)) by (vm_compute; reflexivity).
  assert (Hl : get_last_play_date pause_query_down_world sample_config
                 (artist_name sample_track) (track_name sample_track) s1
               = (Ok (Some lp), s2)) by (vm_compute; reflexivity).
  destruct (Claim sample_track s1 lp s2 Hp Hl) as [_ Recent].
  assert (Sent : existsb is_skip_request
                   (new_events warm_state
                      (snd (main_loop_cycle pause_query_down_world sample_config warm_state)))
                 = true)
    by (apply Recent; vm_compute; reflexivity).
  vm_compute in Sent. discriminate Sent.
Qed.

(** The same claim also fails for a window so wide that now minus the
    window falls before year 1: the subtraction of line 626 overflows and
    nothing is skipped. *)
Example skip_missed_for_huge_window :
  ~ claim_skip_iff_recent calm_world forever_config warm_state.
Proof.
  intros Claim.
  pose (s1 := snd (poll_track calm_world forever_config warm_state)).
  pose (s2 := snd (get_last_play_date calm_world forever_config
                     (artist_name sample_track) (track_name sample_track) s1)).
  pose (lp := mkDatetime 1699000000000000 true).
  assert (Hp : poll_track calm_world forever_config warm_state
               = (Ok (Some sample_track), s1)) by (vm_compute; reflexivity).
  assert (Hl : get_last_play_date calm_world forever_config
                 (artist_name sample_track) (track_name sample_track) s1
               = (Ok (Some lp), s2)) by (vm_compute; reflexivity).
  destruct (Claim sample_track s1 lp s2 Hp Hl) as [_ Recent].
  assert (Sent : existsb is_skip_request
                   (new_events warm_state
                      (snd (main_loop_cycle calm_world forever_config warm_state)))
                 = true)
    by (apply Recent; vm_compute; reflexivity).
  vm_compute in Sent. discriminate Sent.
Qed.

(** And it fails for the single-object answer, whose naive timestamp stops
    the decision at line 621. *)
Example skip_missed_for_single_object :
  ~ claim_skip_iff_recent single_object_world sample_config warm_state.
Proof.
  intros Claim.
  pose (s1 := snd (poll_track single_object_world sample_config warm_state)).
  pose (s2 := snd (get_last_play_date single_object_world sample_config
                     (artist_name sample_track) (track_name sample_track) s1)).
  pose (lp := mkDatetime 1699000000000000 false).
  assert (Hp : poll_track single_object_world sample_config warm_state
               = (Ok (Some sample_track), s1)) by (vm_compute; reflexivity).
  assert (Hl : get_last_play_date single_object_world sample_config
                 (artist_name sample_track) (track_name sample_track) s1
               = (Ok (Some lp), s2)) by (vm_compute; reflexivity).
  destruct (Claim sample_track s1 lp s2 Hp Hl) as [_ Recent].
  assert (Sent : existsb is_skip_request
                   (new_events warm_state
                      (snd (main_loop_cycle single_object_world sample_config warm_state)))
                 = true)
    by (apply Recent; vm_compute; reflexivity).
  vm_compute in Sent. discriminate Sent.
Qed.

(* ================================================================= *)
(** ** Decision loop: restoring the paused state after a skip *)

Lemma new_events_cons s s0 s1 e :
  grows s s0 -> trace s1 = e :: trace s0 -> new_events s s1 = e :: new_events s s0.
Proof.
  intros G T. rewrite (new_events_split s s0 s1 G (grows_cons _ _ _ T)).
  rewrite (new_events_app s0 s1 [e]); [reflexivity | exact T].
Qed.

(** A skip call that returns has sent its command. *)
Lemma skip_current_track_sent w cfg s u s' :
  skip_current_track w cfg s = (Ok u, s') ->
  exists tok sx sy,
    grows s sx /\ trace sy = EvRequest (ReqNext tok) :: trace sx /\ grows sy s'.
Proof.
  intros H. unfold skip_current_track in H. bind_inv H.
  unfold spotify_post in E. bind_inv E.
  exists a0, s1, s0. split; [|split].
  - eapply rel_grows, (keeps_run _ _ _ _ _ _ (keeps_get_spotify_token w cfg) E0).
  - pose proof (http_call_trace w (ReqNext a0) s1) as T. now rewrite E in T.
  - assert (K : keeps fp_all false
                  (if negb (status_ok (status_code a))
                   then print (LogSkipFailed (status_code a)) else ret tt))
      by keeps_walk.
    eapply rel_grows, (keeps_run _ _ _ _ _ _ K H).
Qed.

(** C8, as amended: in the skip branch a pause command is sent only if
    playback was observed paused just before the skip; observed not paused,
    the branch sends no pause command at all; observed paused, the pause
    command is sent after the skip command once the skip command, the
    one-second wait and the token acquisition for the pause have returned
    without raising. *)
Theorem repause_only_when_paused w cfg d s paused s1 :
  bind (print (LogAlreadyListened d)) (fun _ => is_spotify_paused w cfg) s
    = (Ok paused, s1) ->
  (existsb is_pause_request (new_events s (snd (skip_branch w cfg d s))) = true ->
   paused = true)
  /\ (paused = false ->
      existsb is_pause_request (new_events s (snd (skip_branch w cfg d s))) = false)
  /\ (paused = true ->
      forall tok s3,
        bind (skip_current_track w cfg)
             (fun _ => bind (sleep w 1) (fun _ => get_spotify_token w cfg)) s1
          = (Ok tok, s3) ->
        exists tok' later between earlier,
          new_events s (snd (skip_branch w cfg d s))
          = (later ++ EvRequest (ReqPause tok)
               :: between ++ EvRequest (ReqNext tok') :: earlier)%list).
Proof.
  intros Hq. rewrite (bind_Ok _ _ _ _ _ (print_run _ s)) in Hq.
  set (s0 := set_trace (EvLog (LogAlreadyListened d) :: trace s) s) in *.
  assert (G0 : grows s s0) by (eapply grows_cons; reflexivity).
  assert (Branch : skip_branch w cfg d s
                   = bind (skip_current_track w cfg)
                       (fun _ =>
                          bind (if paused
                                then bind (sleep w 1)
                                          (fun _ => pause_spotify_playback w cfg)
                                else ret tt)
                            (fun _ =>
                               bind (track_skip_pattern w cfg d)
                                 (fun _ =>
                                    bind (sleep w 5)
                                      (fun _ =>
                                         bind (print LogCheckingNext)
                                           (fun _ => ret ViaContinue))))) s1).
  { unfold skip_branch. rewrite (bind_Ok _ _ _ _ _ (print_run _ s)). fold s0.
    rewrite (bind_Ok _ _ _ _ _ Hq). reflexivity. }
  assert (Quiet : paused = false ->
            existsb is_pause_request (new_events s (snd (skip_branch w cfg d s))) = false).
  { intros ->. apply existsb_none.
    apply (rel_new_events not_pause false).
    apply (rel_trans _ _ s s0); [|apply (rel_trans _ _ s0 s1)].
    - split; [|discriminate].
      exists [EvLog (LogAlreadyListened d)]. split; reflexivity.
    - eapply rel_weaken;
        [| |exact (keeps_run _ _ _ _ _ _ (keeps_is_spotify_paused w cfg) Hq)];
        [fp_incl | trivial].
    - rewrite Branch.
      assert (K : keeps not_pause false
                    (bind (skip_current_track w cfg)
                       (fun _ =>
                          bind (ret tt)
                            (fun _ =>
                               bind (track_skip_pattern w cfg d)
                                 (fun _ =>
                                    bind (sleep w 5)
                                      (fun _ =>
                                         bind (print LogCheckingNext)
                                           (fun _ => ret ViaContinue)))))))
        by keeps_walk.
      apply K. }
  split; [|split].
  - intros Sent. destruct paused; [reflexivity|].
    rewrite (Quiet eq_refl) in Sent. discriminate.
  - exact Quiet.
  - intros -> tok s3 Steps.
    bind_inv Steps. bind_inv Steps. rename Steps into Htok.
    rename E into Hskip, E0 into Hsleep, s2 into sa, s4 into sb.
    destruct (skip_current_track_sent w cfg s1 a sa Hskip)
      as (tok' & sx & sy & G1x & Ty & Gya).
    set (sp := snd (http_call w (ReqPause tok) s3)).
    assert (Tp : trace sp = EvRequest (ReqPause tok) :: trace s3)
      by apply http_call_trace.
    assert (G1 : grows s0 s1)
      by (eapply rel_grows, (keeps_run _ _ _ _ _ _ (keeps_is_spotify_paused w cfg) Hq)).
    assert (Gab : grows sa sb).
    { assert (K : keeps fp_all false (sleep w 1)) by keeps_walk.
      eapply rel_grows, (keeps_run _ _ _ _ _ _ K Hsleep). }
    assert (Gb3 : grows sb s3)
      by (eapply rel_grows, (keeps_run _ _ _ _ _ _ (keeps_get_spotify_token w cfg) Htok)).
    assert (Gp : grows sp (snd (skip_branch w cfg d s))).
    { rewrite Branch. rewrite (bind_Ok _ _ _ _ _ Hskip).
      eapply grows_trans; [|apply bind_grows; intro; keeps_walk].
      rewrite (bind_Ok _ _ _ _ _ Hsleep). unfold pause_spotify_playback.
      rewrite (bind_Ok _ _ _ _ _ Htok).
      apply bind_grows. intro. keeps_walk. }
    assert (Gsx : grows s sx)
      by (eapply grows_trans; [exact G0 | eapply grows_trans; [exact G1 | exact G1x]]).
    assert (Gy3 : grows sy s3)
      by (eapply grows_trans; [exact Gya | eapply grows_trans; [exact Gab | exact Gb3]]).
    assert (Gsy : grows s sy)
      by (eapply grows_trans; [exact Gsx | eapply grows_cons, Ty]).
    assert (Gs3 : grows s s3) by (eapply grows_trans; [exact Gsy | exact Gy3]).
    exists tok', (new_events sp (snd (skip_branch w cfg d s))),
           (new_events sy s3), (new_events s sx).
    rewrite (new_events_split s sp _ (grows_trans _ _ _ Gs3 (grows_cons _ _ _ Tp)) Gp).
    rewrite (new_events_cons s s3 sp _ Gs3 Tp).
    rewrite (new_events_split s sy s3 Gsy Gy3).
    rewrite (new_events_cons s sx sy _ Gsx Ty).
    reflexivity.
Qed.

Lemma repause_only_when_paused_witness :
  existsb is_pause_request
    (new_events warm_state (snd (skip_branch calm_world sample_config 11 warm_state)))
  = true.
Proof.
  pose (s1 := snd (bind (print (LogAlreadyListened 11))
                     (fun _ => is_spotify_paused calm_world sample_config) warm_state)).
  pose (s3 := snd (bind (skip_current_track calm_world sample_config)
                     (fun _ => bind (sleep calm_world 1)
                                 (fun _ => get_spotify_token calm_world sample_config)) s1)).
  destruct (repause_only_when_paused calm_world sample_config 11 warm_state true s1 eq_refl)
    as (_ & _ & Sent).
  destruct (Sent eq_refl (JStr "BQD-token") s3 eq_refl)
    as (tok' & later & between & earlier & E).
  rewrite E. rewrite existsb_app. simpl. apply orb_true_r.
Defined.

(** The claim as stated fails when the skip command itself times out:
    playback was observed paused, and no pause command follows. *)
Lemma repause_iff_paused_fails :
  ~ claim_repause_iff_paused skip_times_out_world sample_config 11 warm_state.
Proof.
  intros Claim.
  pose (s1 := snd (bind (print (LogAlreadyListened 11))
                     (fun _ => is_spotify_paused skip_times_out_world sample_config)
                     warm_state)).
  specialize (Claim true s1 eq_refl).
  destruct Claim as [_ Paused].
  specialize (Paused eq_refl).
  vm_compute in Paused. discriminate Paused.
Qed.

(* ================================================================= *)
(** ** Which exceptions a function can raise *)

Lemma ro_ret ok {A} (a : A) : raises_only ok (ret a).
Proof. intros s e s' H. discriminate. Qed.

Lemma ro_raise ok {A} e : ok e = true -> raises_only ok (@raise A e).
Proof. intros H s e' s' E. inversion E; subst. exact H. Qed.

Lemma ro_lift ok {A} (r : res A) : pure_ok ok r -> raises_only ok (lift r).
Proof. intros H s e s' E. inversion E; subst. now apply H. Qed.

Lemma ro_gets ok {A} (f : St -> A) : raises_only ok (gets f).
Proof. intros s e s' H. discriminate. Qed.

Lemma ro_modify ok f : raises_only ok (modify f).
Proof. intros s e s' H. discriminate. Qed.

Lemma ro_print ok m : raises_only ok (print m).
Proof. intros s e s' H. discriminate. Qed.

Lemma ro_bind ok {A B} (m : M A) (k : A -> M B) :
  raises_only ok m -> (forall a, raises_only ok (k a)) -> raises_only ok (bind m k).
Proof.
  intros Hm Hk s e s' E. unfold bind in E.
  destruct (m s) as [[a|e0] s1] eqn:Em.
  - eapply Hk, E.
  - inversion E; subst. eapply Hm, Em.
Qed.

Lemma ro_try_except ok {A} (m : M A) caught (h : exn -> M A) :
  raises_only (fun e => caught e || ok e) m ->
  (forall e, raises_only ok (h e)) ->
  raises_only ok (try_except m caught h).
Proof.
  intros Hm Hh s e s' E. unfold try_except in E.
  destruct (m s) as [[a|e0] s1] eqn:Em; [discriminate|].
  destruct (caught e0) eqn:C.
  - eapply Hh, E.
  - inversion E; subst. pose proof (Hm _ _ _ Em) as O. simpl in O.
    now rewrite C in O.
Qed.

Lemma ro_weaken ok1 ok2 {A} (m : M A) :
  raises_only ok1 m -> (forall e, ok1 e = true -> ok2 e = true) -> raises_only ok2 m.
Proof. intros H W s e s' E. eapply W, H, E. Qed.

Lemma ro_now ok w : raises_only ok (now w).
Proof. intros s e s' H. discriminate. Qed.

Lemma ro_resp_json ok r : ok JSONDecodeError = true -> raises_only ok (resp_json r).
Proof.
  intros H. unfold resp_json. destruct (json_body r); [apply ro_ret | now apply ro_raise].
Qed.

Lemma ro_http_call w req : never_stopped w -> raises_only is_Exception (http_call w req).
Proof.
  intros (Hh & _ & _) s e s' E. rewrite http_call_run in E.
  destruct (http w (tick s) req) eqn:F; inversion E; subst; try reflexivity.
  exfalso. eapply Hh, F.
Qed.

Lemma ro_sleep w n : never_stopped w -> raises_only is_Exception (sleep w n).
Proof.
  intros (_ & Hs & _) s e s' E. rewrite sleep_run in E.
  destruct (sleep_error w n) as [e0|] eqn:Err.
  - inversion E; subst. exact (sleep_error_Exception w n e Err).
  - rewrite Hs in E. discriminate.
Qed.

Lemma ro_fromtimestamp w ts tz :
  never_stopped w -> raises_only is_Exception (fromtimestamp w ts tz).
Proof.
  intros (_ & _ & Hg) s e s' E. unfold fromtimestamp in E.
  destruct (gmtime_fail w ts) as [e0|] eqn:G.
  - inversion E; subst. destruct e; try reflexivity. exfalso. eapply Hg, G.
  - destruct (datetime_in_range _); inversion E. reflexivity.
Qed.

(** The pure helpers raise ordinary exceptions only. *)
Ltac pure_ok_tac :=
  let e := fresh "e" in
  let H := fresh "H" in
  intros e H;
  repeat match type of H with
         | context [match ?x with _ => _ end] => destruct x
         | context [if ?x then _ else _] => destruct x
         end;
  solve [discriminate H | inversion H; reflexivity].

Lemma pure_ok_py_get d k v : pure_ok is_Exception (py_get d k v).
Proof. unfold py_get. pure_ok_tac. Qed.
Lemma pure_ok_py_contains d k : pure_ok is_Exception (py_contains d k).
Proof. unfold py_contains. pure_ok_tac. Qed.
Lemma pure_ok_py_index0 v : pure_ok is_Exception (py_index0 v).
Proof. unfold py_index0. pure_ok_tac. Qed.
Lemma pure_ok_py_getitem v k : pure_ok is_Exception (py_getitem v k).
Proof. unfold py_getitem. pure_ok_tac. Qed.
Lemma pure_ok_py_int v : pure_ok is_Exception (py_int v).
Proof. unfold py_int. pure_ok_tac. Qed.
Lemma pure_ok_timedelta_us us : pure_ok is_Exception (timedelta_us us).
Proof. unfold timedelta_us. pure_ok_tac. Qed.
Lemma pure_ok_datetime_add d td : pure_ok is_Exception (datetime_add d td).
Proof. unfold datetime_add. pure_ok_tac. Qed.
Lemma pure_ok_datetime_sub a b : pure_ok is_Exception (datetime_sub a b).
Proof. unfold datetime_sub. pure_ok_tac. Qed.
Lemma pure_ok_datetime_gt a b : pure_ok is_Exception (datetime_gt a b).
Proof. unfold datetime_gt. pure_ok_tac. Qed.
Lemma pure_ok_is_repeating cfg l : pure_ok is_Exception (is_repeating cfg l).
Proof.
  unfold is_repeating, spread. intros e H.
  destruct (_ =? _); [destruct l|]; solve [discriminate H | inversion H; reflexivity].
Qed.

Create HintDb ro.
#[local] Hint Resolve pure_ok_py_get pure_ok_py_contains pure_ok_py_index0
  pure_ok_py_getitem pure_ok_py_int pure_ok_timedelta_us pure_ok_datetime_add
  pure_ok_datetime_sub pure_ok_datetime_gt pure_ok_is_repeating : ro.

Ltac ro_walk :=
  repeat
    match goal with
    | |- raises_only _ (ret _) => apply ro_ret
    | |- raises_only _ (raise _) => apply ro_raise; reflexivity
    | |- raises_only _ (lift _) => apply ro_lift; solve [eauto with ro]
    | |- raises_only _ (gets _) => apply ro_gets
    | |- raises_only _ (modify _) => apply ro_modify
    | |- raises_only _ (print _) => apply ro_print
    | |- raises_only _ (bind _ _) => apply ro_bind; [| intro]
    | |- raises_only _ (try_except _ _ _) =>
        apply ro_try_except;
        [apply (ro_weaken is_Exception);
         [| let Hok := fresh in intros ? Hok; rewrite Hok; apply orb_true_r]
        | intro]
    | |- raises_only _ (now _) => apply ro_now
    | |- raises_only _ (resp_json _) => apply ro_resp_json; reflexivity
    | |- raises_only _ (http_call _ _) => apply ro_http_call; assumption
    | |- raises_only _ (sleep _ _) => apply ro_sleep; assumption
    | |- raises_only _ (fromtimestamp _ _ _) => apply ro_fromtimestamp; assumption
    | |- raises_only _ (if ?b then _ else _) => destruct b
    | |- raises_only _ (match ?x with _ => _ end) => destruct x
    | |- raises_only _ _ => progress cbv zeta
    | |- raises_only _ _ => solve [eauto with ro]
    end.

Section NeverStopped.
Variable w : World.
Variable cfg : Config.
Hypothesis Quiet : never_stopped w.

Lemma ro_refresh_access_token : raises_only is_Exception (refresh_access_token w cfg).
Proof. unfold refresh_access_token. ro_walk. Qed.
Hint Resolve ro_refresh_access_token : ro.

Lemma ro_get_spotify_token : raises_only is_Exception (get_spotify_token w cfg).
Proof. unfold get_spotify_token. ro_walk. Qed.
Hint Resolve ro_get_spotify_token : ro.

Lemma ro_get_current_track : raises_only is_Exception (get_current_track w cfg).
Proof. unfold get_current_track, spotify_get. ro_walk. Qed.
Hint Resolve ro_get_current_track : ro.

Lemma ro_skip_current_track : raises_only is_Exception (skip_current_track w cfg).
Proof. unfold skip_current_track, spotify_post. ro_walk. Qed.
Hint Resolve ro_skip_current_track : ro.

Lemma ro_is_spotify_paused : raises_only is_Exception (is_spotify_paused w cfg).
Proof. unfold is_spotify_paused, spotify_get. ro_walk. Qed.
Hint Resolve ro_is_spotify_paused : ro.

Lemma ro_pause_spotify_playback : raises_only is_Exception (pause_spotify_playback w cfg).
Proof. unfold pause_spotify_playback. ro_walk. Qed.
Hint Resolve ro_pause_spotify_playback : ro.

Lemma ro_restart_playlist : raises_only is_Exception (restart_playlist w cfg).
Proof. unfold restart_playlist, spotify_get, spotify_put. ro_walk. Qed.
Hint Resolve ro_restart_playlist : ro.

Lemma ro_is_skipping_enabled : raises_only is_Exception (is_skipping_enabled w cfg).
Proof. unfold is_skipping_enabled. ro_walk. Qed.
Hint Resolve ro_is_skipping_enabled : ro.

Lemma ro_get_last_play_date artist track :
  raises_only is_Exception (get_last_play_date w cfg artist track).
Proof.
  unfold get_last_play_date, parse_uts, datetime_fromtimestamp_utc,
    datetime_utcfromtimestamp.
  ro_walk.
Qed.
Hint Resolve ro_get_last_play_date : ro.

Lemma ro_poll_track : raises_only is_Exception (poll_track w cfg).
Proof. unfold poll_track. ro_walk. Qed.
Hint Resolve ro_poll_track : ro.

Lemma ro_track_skip_pattern d : raises_only is_Exception (track_skip_pattern w cfg d).
Proof. unfold track_skip_pattern. ro_walk. Qed.
Hint Resolve ro_track_skip_pattern : ro.

Lemma ro_skip_branch d : raises_only is_Exception (skip_branch w cfg d).
Proof. unfold skip_branch. ro_walk. Qed.
Hint Resolve ro_skip_branch : ro.

Lemma ro_evaluate_track lp : raises_only is_Exception (evaluate_track w cfg lp).
Proof. unfold evaluate_track. ro_walk. Qed.
Hint Resolve ro_evaluate_track : ro.


End NeverStopped.

(* ================================================================= *)
(** ** State properties the functions keep *)

Section Invariant.
Variable P : St -> Prop.
Hypothesis P_trace : forall t s, P s -> P (set_trace t s).
Hypothesis P_tick : forall n s, P s -> P (set_tick n s).

Lemma inv_ret {A} (a : A) : inv P (ret a).
Proof. intros s H. exact H. Qed.

Lemma inv_raise {A} e : inv P (@raise A e).
Proof. intros s H. exact H. Qed.

Lemma inv_lift {A} (r : res A) : inv P (lift r).
Proof. intros s H. exact H. Qed.

Lemma inv_gets {A} (f : St -> A) : inv P (gets f).
Proof. intros s H. exact H. Qed.

Lemma inv_modify f : (forall s, P s -> P (f s)) -> inv P (modify f).
Proof. intros Hf s H. apply Hf, H. Qed.

Lemma inv_bind {A B} (m : M A) (k : A -> M B) :
  inv P m -> (forall a, inv P (k a)) -> inv P (bind m k).
Proof.
  intros Hm Hk s H. unfold bind. specialize (Hm s H).
  destruct (m s) as [[a|e] s1]; simpl in *; [apply Hk, Hm | exact Hm].
Qed.

Lemma inv_try_except {A} (m : M A) caught (h : exn -> M A) :
  inv P m -> (forall e, inv P (h e)) -> inv P (try_except m caught h).
Proof.
  intros Hm Hh s H. unfold try_except. specialize (Hm s H).
  destruct (m s) as [[a|e] s1]; simpl in *; [exact Hm|].
  destruct (caught e); [apply Hh, Hm | exact Hm].
Qed.

Lemma inv_print m : inv P (print m).
Proof. intros s H. apply P_trace, H. Qed.

Lemma inv_now w : inv P (now w).
Proof. intros s H. apply P_tick, H. Qed.

Lemma inv_http_call w req : inv P (http_call w req).
Proof. intros s H. rewrite http_call_run. apply P_tick, P_trace, H. Qed.

Lemma inv_sleep w n : inv P (sleep w n).
Proof.
  intros s H. rewrite sleep_run.
  destruct (sleep_error w n); [apply P_trace, H | apply P_tick, P_trace, H].
Qed.

Lemma inv_resp_json r : inv P (resp_json r).
Proof. intros s H. unfold resp_json. destruct (json_body r); exact H. Qed.

Lemma inv_fromtimestamp w ts tz : inv P (fromtimestamp w ts tz).
Proof.
  intros s H. unfold fromtimestamp.
  destruct (gmtime_fail w ts); [exact H|]. destruct (datetime_in_range _); exact H.
Qed.

Ltac inv_walk :=
  repeat
    match goal with
    | |- inv _ (ret _) => apply inv_ret
    | |- inv _ (raise _) => apply inv_raise
    | |- inv _ (lift _) => apply inv_lift
    | |- inv _ (gets _) => apply inv_gets
    | |- inv _ (modify _) => apply inv_modify; solve [auto]
    | |- inv _ (print _) => apply inv_print
    | |- inv _ (bind _ _) => apply inv_bind; [| intro]
    | |- inv _ (try_except _ _ _) => apply inv_try_except; [| intro]
    | |- inv _ (now _) => apply inv_now
    | |- inv _ (resp_json _) => apply inv_resp_json
    | |- inv _ (http_call _ _) => apply inv_http_call
    | |- inv _ (sleep _ _) => apply inv_sleep
    | |- inv _ (fromtimestamp _ _ _) => apply inv_fromtimestamp
    | |- inv _ (if ?b then _ else _) => destruct b
    | |- inv _ (match ?x with _ => _ end) => destruct x
    | |- inv _ _ => progress cbv zeta
    | |- inv _ _ => solve [auto]
    end.

Variable w : World.
Variable cfg : Config.

(** The history client and the remote gate write no global at all. *)
Lemma inv_get_last_play_date artist track : inv P (get_last_play_date w cfg artist track).
Proof.
  unfold get_last_play_date, parse_uts, datetime_fromtimestamp_utc,
    datetime_utcfromtimestamp.
  inv_walk.
Qed.

Lemma inv_is_skipping_enabled : inv P (is_skipping_enabled w cfg).
Proof. unfold is_skipping_enabled. inv_walk. Qed.

(** The playback client writes only the token cache. *)
Hypothesis P_token : forall v s, P s -> P (set_SPOTIFY_TOKEN v s).
Hypothesis P_expiry : forall d s, P s -> P (set_TOKEN_EXPIRES_AT d s).

Lemma inv_refresh_access_token : inv P (refresh_access_token w cfg).
Proof. unfold refresh_access_token. inv_walk. Qed.
Hint Resolve inv_refresh_access_token : core.

Lemma inv_get_spotify_token : inv P (get_spotify_token w cfg).
Proof. unfold get_spotify_token. inv_walk. Qed.
Hint Resolve inv_get_spotify_token : core.

Lemma inv_get_current_track : inv P (get_current_track w cfg).
Proof. unfold get_current_track, spotify_get. inv_walk. Qed.

Lemma inv_skip_current_track : inv P (skip_current_track w cfg).
Proof. unfold skip_current_track, spotify_post. inv_walk. Qed.

Lemma inv_is_spotify_paused : inv P (is_spotify_paused w cfg).
Proof. unfold is_spotify_paused, spotify_get. inv_walk. Qed.

Lemma inv_pause_spotify_playback : inv P (pause_spotify_playback w cfg).
Proof. unfold pause_spotify_playback. inv_walk. Qed.

Lemma inv_restart_playlist : inv P (restart_playlist w cfg).
Proof. unfold restart_playlist, spotify_get, spotify_put. inv_walk. Qed.

Hint Resolve inv_get_last_play_date inv_is_skipping_enabled inv_get_current_track
  inv_skip_current_track inv_is_spotify_paused inv_pause_spotify_playback
  inv_restart_playlist : core.

(** The decision on a looked-up track writes the ledger and nothing else:
    given that recording a skip keeps [P], the whole decision does. *)
Hypothesis P_pattern : forall d, inv P (track_skip_pattern w cfg d).

Lemma inv_skip_branch d : inv P (skip_branch w cfg d).
Proof. unfold skip_branch. inv_walk. Qed.
Hint Resolve inv_skip_branch : core.

Lemma inv_evaluate_track lp : inv P (evaluate_track w cfg lp).
Proof. unfold evaluate_track. inv_walk. Qed.
Hint Resolve inv_evaluate_track : core.

(** The handlers and the standard pause. *)
Lemma inv_handlers s : P (snd (loop_body w cfg s)) -> P (snd (main_loop_cycle w cfg s)).
Proof.
  intros H. unfold main_loop_cycle.
  destruct (loop_body w cfg s) as [[[]|e] s1]; simpl in *.
  - exact H.
  - assert (K : inv P (bind (sleep w (POLL_INTERVAL_SECONDS cfg)) (fun _ => ret Continue)))
      by inv_walk.
    apply K, H.
  - assert (K1 : inv P (bind (print LogStoppedByUser) (fun _ => ret Break)))
      by inv_walk.
    assert (K2 : inv P (bind (print (LogUnexpectedError e))
                          (fun _ => bind (sleep w (POLL_INTERVAL_SECONDS cfg))
                             (fun _ => bind (sleep w (POLL_INTERVAL_SECONDS cfg))
                                (fun _ => ret Continue)))))
      by inv_walk.
    destruct e; first [apply K1, H | apply K2, H].
Qed.

(** Observing a track writes the last-checked pair and the temporary
    pause mark. *)
Hypothesis P_last_id : forall v s, P s -> P (set_last_checked_track_id v s).
Hypothesis P_last_ts : forall d s, P s -> P (set_last_checked_timestamp d s).
Hypothesis P_temp : forall v s, P s -> P (set_temp_pause_track_id v s).

Lemma inv_poll_track : inv P (poll_track w cfg).
Proof. unfold poll_track. inv_walk. Qed.
Hint Resolve inv_poll_track : core.

Lemma inv_loop_body : inv P (loop_body w cfg).
Proof. unfold loop_body. inv_walk. Qed.

Lemma inv_main_loop_cycle : inv P (main_loop_cycle w cfg).
Proof. intros s H. apply inv_handlers, inv_loop_body, H. Qed.

Lemma inv_run_cycles n : inv P (run_cycles w cfg n).
Proof.
  induction n as [|n IH]; simpl; [apply inv_ret|].
  apply inv_bind; [apply inv_main_loop_cycle|].
  intros []; [exact IH | apply inv_ret].
Qed.

End Invariant.

(* ================================================================= *)
(** ** The gates of the decision loop *)

(** A cycle that ends in "log, sleep a full interval, continue". *)
Lemma early_exit w cfg s s' m :
  poll_track w cfg s
  = bind (print m)
      (fun _ => bind (sleep w (POLL_INTERVAL_SECONDS cfg)) (fun _ => ret None)) s' ->
  trace (snd (loop_body w cfg s))
    = EvSleep (POLL_INTERVAL_SECONDS cfg) :: EvLog m :: trace s'
  /\ decision (snd (main_loop_cycle w cfg s)) = decision s'
  /\ token_cache (snd (main_loop_cycle w cfg s)) = token_cache s'
  /\ grows s' (snd (main_loop_cycle w cfg s))
  /\ forallb (fun e => negb (is_http_request e))
       (new_events s' (snd (main_loop_cycle w cfg s))) = true
  /\ (sleepable w (POLL_INTERVAL_SECONDS cfg) -> stop_signal w (tick s') = false ->
      main_loop_cycle w cfg s = (Ok Continue, snd (loop_body w cfg s))).
Proof.
  intros P.
  set (s3 := set_trace (EvLog m :: trace s') s').
  assert (B : loop_body w cfg s
              = match sleep w (POLL_INTERVAL_SECONDS cfg) s3 with
                | (Ok _, s4) => (Ok ViaContinue, s4)
                | (Exc e, s4) => (Exc e, s4)
                end).
  { unfold loop_body. unfold bind at 1. rewrite P.
    unfold bind, print, emit, modify, ret. fold s3.
    destruct (sleep w (POLL_INTERVAL_SECONDS cfg) s3) as [[[]|e] s4]; reflexivity. }
  assert (S4 : snd (loop_body w cfg s) = snd (sleep w (POLL_INTERVAL_SECONDS cfg) s3)).
  { rewrite B. destruct (sleep w (POLL_INTERVAL_SECONDS cfg) s3) as [[[]|e] s4]; reflexivity. }
  assert (T : trace (snd (loop_body w cfg s))
              = EvSleep (POLL_INTERVAL_SECONDS cfg) :: EvLog m :: trace s').
  { rewrite S4, sleep_trace. reflexivity. }
  assert (R : rel (fun e => negb (is_http_request e)) false s'
                  (snd (main_loop_cycle w cfg s))).
  { eapply rel_trans; [|apply main_loop_cycle_rel; reflexivity].
    split; [|discriminate].
    exists [EvSleep (POLL_INTERVAL_SECONDS cfg); EvLog m]. split; [exact T | reflexivity]. }
  split; [exact T|]. split; [|split; [|split; [|split]]].
  - apply (inv_handlers (fun x => decision x = decision s')); try (intros; assumption).
    rewrite S4, sleep_decision. reflexivity.
  - apply (inv_handlers (fun x => token_cache x = token_cache s')); try (intros; assumption).
    rewrite S4, sleep_run. destruct (sleep_error _ _); reflexivity.
  - eapply rel_grows, R.
  - eapply rel_new_events, R.
  - intros Pos Stop. unfold main_loop_cycle. rewrite B, sleep_run.
    rewrite (sleepable_no_error _ _ Pos).
    change (tick s3) with (tick s'). rewrite Stop. reflexivity.
Qed.

(** X1 (lines 569-573): while the tray has paused skipping, a cycle only
    logs and sleeps one poll interval: it sends no HTTP request at all, not
    even the remote-control check, and leaves the decision state and the
    token cache as they were. *)
Theorem manual_pause_sends_nothing w cfg s :
  skipping_paused s = true ->
  new_events s (snd (loop_body w cfg s))
    = [EvSleep (POLL_INTERVAL_SECONDS cfg); EvLog LogManuallyPaused]
  /\ existsb is_http_request (new_events s (snd (main_loop_cycle w cfg s))) = false
  /\ decision (snd (main_loop_cycle w cfg s)) = decision s
  /\ token_cache (snd (main_loop_cycle w cfg s)) = token_cache s
  /\ (sleepable w (POLL_INTERVAL_SECONDS cfg) -> stop_signal w (tick s) = false ->
      fst (main_loop_cycle w cfg s) = Ok Continue).
Proof.
  intros Hp.
  assert (P : poll_track w cfg s
              = bind (print LogManuallyPaused)
                  (fun _ => bind (sleep w (POLL_INTERVAL_SECONDS cfg)) (fun _ => ret None)) s).
  { unfold poll_track. unfold bind at 1. unfold gets at 1. rewrite Hp. reflexivity. }
  destruct (early_exit w cfg s s LogManuallyPaused P) as (T & D & C & G & F & R).
  split; [apply new_events_app; exact T|]. split; [|split; [|split]].
  - apply existsb_none. exact F.
  - exact D.
  - exact C.
  - intros Pos Stop. now rewrite (R Pos Stop).
Qed.

Lemma manual_pause_sends_nothing_witness :
  new_events manually_paused_state (snd (loop_body calm_world sample_config manually_paused_state))
    = [EvSleep 120; EvLog LogManuallyPaused]
  /\ fst (main_loop_cycle calm_world sample_config manually_paused_state) = Ok Continue.
Proof.
  destruct (manual_pause_sends_nothing calm_world sample_config manually_paused_state eq_refl)
    as (E & _ & _ & _ & R).
  split; [exact E|]. apply R; [sleepable_here | reflexivity].
Defined.

(** X2 (lines 575-579): when the remote-control gate answers "disabled",
    the cycle contacts neither the playback API nor Last.fm: it logs,
    sleeps one poll interval and leaves the decision state and the token
    cache as they were. *)
Theorem remote_off_contacts_no_service w cfg s s1 :
  skipping_paused s = false ->
  is_skipping_enabled w cfg s = (Ok false, s1) ->
  trace (snd (loop_body w cfg s))
    = EvSleep (POLL_INTERVAL_SECONDS cfg) :: EvLog LogRemoteDisabled :: trace s1
  /\ existsb is_service_request (new_events s (snd (main_loop_cycle w cfg s))) = false
  /\ decision (snd (main_loop_cycle w cfg s)) = decision s
  /\ token_cache (snd (main_loop_cycle w cfg s)) = token_cache s
  /\ (sleepable w (POLL_INTERVAL_SECONDS cfg) -> stop_signal w (tick s1) = false ->
      fst (main_loop_cycle w cfg s) = Ok Continue).
Proof.
  intros Hp He.
  assert (P : poll_track w cfg s
              = bind (print LogRemoteDisabled)
                  (fun _ => bind (sleep w (POLL_INTERVAL_SECONDS cfg)) (fun _ => ret None)) s1).
  { unfold poll_track. unfold bind at 1. unfold gets at 1. rewrite Hp.
    rewrite (bind_Ok _ _ _ _ _ He). reflexivity. }
  destruct (early_exit w cfg s s1 LogRemoteDisabled P) as (T & D & C & G & F & R).
  pose proof (keeps_run _ _ _ _ _ _ (keeps_is_skipping_enabled w cfg) He) as K.
  split; [exact T|]. split; [|split; [|split]].
  - rewrite (new_events_split s s1 _ (rel_grows _ _ _ _ K) G), existsb_app.
    apply orb_false_iff. split.
    + apply existsb_none. rewrite forallb_forall in *. intros e I.
      specialize (F e I). destruct e as [[]| |]; simpl in *; congruence.
    + apply existsb_none. apply rel_new_events in K. rewrite forallb_forall in *.
      intros e I. specialize (K e I). destruct e as [[]| |]; simpl in *; congruence.
  - rewrite D. destruct K as [_ K]. apply K. reflexivity.
  - rewrite C.
    pose proof (inv_is_skipping_enabled (fun x => token_cache x = token_cache s)
                  (fun _ _ H => H) (fun _ _ H => H) w cfg s eq_refl) as I.
    now rewrite He in I.
  - intros Pos Stop. now rewrite (R Pos Stop).
Qed.

Lemma remote_off_contacts_no_service_witness :
  existsb is_service_request
    (new_events warm_state (snd (main_loop_cycle remote_off_world sample_config warm_state)))
  = false
  /\ fst (main_loop_cycle remote_off_world sample_config warm_state) = Ok Continue.
Proof.
  pose (s1 := snd (is_skipping_enabled remote_off_world sample_config warm_state)).
  assert (He : is_skipping_enabled remote_off_world sample_config warm_state = (Ok false, s1))
    by (vm_compute; reflexivity).
  destruct (remote_off_contacts_no_service remote_off_world sample_config warm_state s1
              eq_refl He) as (_ & N & _ & _ & R).
  split; [exact N|]. apply R; [sleepable_here | reflexivity].
Defined.

(** X3 (lines 581-587): when [get_current_track] reports nothing playing,
    the cycle logs, sleeps one poll interval and stops there: no history
    lookup, no playback command, decision state unchanged. *)
Theorem nothing_playing_only_sleeps w cfg s s1 s2 :
  skipping_paused s = false ->
  is_skipping_enabled w cfg s = (Ok true, s1) ->
  get_current_track w cfg s1 = (Ok None, s2) ->
  trace (snd (loop_body w cfg s))
    = EvSleep (POLL_INTERVAL_SECONDS cfg) :: EvLog LogNothingPlaying :: trace s2
  /\ existsb is_lookup_request (new_events s (snd (main_loop_cycle w cfg s))) = false
  /\ existsb is_playback_command (new_events s (snd (main_loop_cycle w cfg s))) = false
  /\ decision (snd (main_loop_cycle w cfg s)) = decision s
  /\ (sleepable w (POLL_INTERVAL_SECONDS cfg) -> stop_signal w (tick s2) = false ->
      fst (main_loop_cycle w cfg s) = Ok Continue).
Proof.
  intros Hp He Ht.
  assert (P : poll_track w cfg s
              = bind (print LogNothingPlaying)
                  (fun _ => bind (sleep w (POLL_INTERVAL_SECONDS cfg)) (fun _ => ret None)) s2).
  { unfold poll_track. unfold bind at 1. unfold gets at 1. rewrite Hp.
    rewrite (bind_Ok _ _ _ _ _ He). change (negb true) with false. cbv iota.
    rewrite (bind_Ok _ _ _ _ _ Ht). reflexivity. }
  destruct (early_exit w cfg s s2 LogNothingPlaying P) as (T & D & C & G & F & R).
  pose proof (keeps_run _ _ _ _ _ _ (keeps_is_skipping_enabled w cfg) He) as K1.
  pose proof (keeps_run _ _ _ _ _ _ (keeps_get_current_track w cfg) Ht) as K2.
  assert (G02 : grows s s2)
    by (eapply grows_trans; eapply rel_grows; eassumption).
  assert (Q : forall p : event -> bool,
             (forall e, p e = true -> is_http_request e = true) ->
             (forall e, p e = true -> fp_remote e = false) ->
             (forall e, p e = true -> fp_current_track e = false) ->
             existsb p (new_events s (snd (main_loop_cycle w cfg s))) = false).
  { intros p H1 H2 H3.
    rewrite (new_events_split s s2 _ G02 G), existsb_app.
    rewrite (new_events_split s s1 s2 (rel_grows _ _ _ _ K1) (rel_grows _ _ _ _ K2)),
      existsb_app.
    apply rel_new_events in K1. apply rel_new_events in K2.
    rewrite forallb_forall in *.
    apply orb_false_iff. split; [|apply orb_false_iff; split];
      apply existsb_none, forallb_forall; intros e I;
      destruct (p e) eqn:Pe; try reflexivity; exfalso.
    - specialize (F e I). rewrite (H1 e Pe) in F. discriminate.
    - specialize (K2 e I). rewrite (H3 e Pe) in K2. discriminate.
    - specialize (K1 e I). rewrite (H2 e Pe) in K1. discriminate. }
  split; [exact T|]. split; [|split; [|split]].
  - apply Q; intros [[]| |] H; simpl in H |- *;
      solve [reflexivity | discriminate H].
  - apply Q; intros [[]| |] H; simpl in H |- *;
      solve [reflexivity | discriminate H].
  - rewrite D. destruct K1 as [_ K1]. destruct K2 as [_ K2].
    rewrite (K2 eq_refl). apply K1. reflexivity.
  - intros Pos Stop. now rewrite (R Pos Stop).
Qed.

Lemma nothing_playing_only_sleeps_witness :
  existsb is_lookup_request
    (new_events warm_state (snd (main_loop_cycle silent_world sample_config warm_state)))
  = false
  /\ fst (main_loop_cycle silent_world sample_config warm_state) = Ok Continue.
Proof.
  pose (s1 := snd (is_skipping_enabled silent_world sample_config warm_state)).
  pose (s2 := snd (get_current_track silent_world sample_config s1)).
  assert (He : is_skipping_enabled silent_world sample_config warm_state = (Ok true, s1))
    by (vm_compute; reflexivity).
  assert (Ht : get_current_track silent_world sample_config s1 = (Ok None, s2))
    by (vm_compute; reflexivity).
  destruct (nothing_playing_only_sleeps silent_world sample_config warm_state s1 s2
              eq_refl He Ht) as (_ & N & _ & _ & R).
  split; [exact N|]. apply R; [sleepable_here | reflexivity].
Defined.

(* ================================================================= *)
(** ** Observing a new track *)

Ltac bind_inv_as H a s E :=
  apply bind_inv_Ok in H; destruct H as (a & s & E & H).

Ltac dead_end H :=
  repeat (let a := fresh "a" in let s := fresh "s" in let E := fresh "E" in
          bind_inv_as H a s E);
  apply ret_inv in H as [? _]; discriminate.

(** What a poll that goes on to the lookup has established. *)
Lemma poll_track_new w cfg s tr s1 :
  poll_track w cfg s = (Ok (Some tr), s1) ->
  skipping_paused s = false
  /\ last_checked_track_id s1 = track_id tr
  /\ py_eq (temp_pause_track_id s1) (track_id tr) = false.
Proof.
  intros H. unfold poll_track in H.
  bind_inv_as H paused s0 Ep. unfold gets in Ep. inversion Ep; subst; clear Ep.
  destruct (skipping_paused s0) eqn:Hp; [dead_end H|].
  split; [reflexivity|].
  bind_inv_as H en sa Ee. destruct (negb en); [dead_end H|].
  bind_inv_as H t sb Et. destruct (nothing_playing t); [dead_end H|].
  destruct t as [tr0|]; [|discriminate].
  destruct (invalid_track tr0); [dead_end H|].
  bind_inv_as H lastid sc El. destruct (py_eq (track_id tr0) lastid); [dead_end H|].
  bind_inv_as H u1 sd E1. bind_inv_as H n se E2. bind_inv_as H u2 sf E3.
  bind_inv_as H tp sg E4. bind_inv_as H u3 sh E5. bind_inv_as H u4 si E6.
  bind_inv_as H tp' sj E7.
  destruct (py_eq tp' (track_id tr0)) eqn:Mark; [dead_end H|].
  apply ret_inv in H as [H ?]. inversion H; subst. clear H.
  unfold gets in E7. inversion E7; subst; clear E7.
  split; [|exact Mark].
  unfold modify in E1. inversion E1; subst; clear E1.
  unfold now, step, bind, ret in E2. inversion E2; subst; clear E2.
  unfold modify in E3. inversion E3; subst; clear E3.
  unfold gets in E4. inversion E4; subst; clear E4.
  unfold print, emit, modify in E6. inversion E6; subst; clear E6.
  simpl.
  match type of E5 with
  | (if ?c then _ else _) _ = _ => destruct c
  end.
  - unfold bind, print, emit, modify in E5. inversion E5; subst. reflexivity.
  - apply ret_inv in E5 as [_ <-]. reflexivity.
Qed.

Section LedgerWriters.
Variable P : St -> Prop.
Hypothesis P_trace : forall t s, P s -> P (set_trace t s).
Hypothesis P_tick : forall n s, P s -> P (set_tick n s).
Hypothesis P_token : forall v s, P s -> P (set_SPOTIFY_TOKEN v s).
Hypothesis P_expiry : forall d s, P s -> P (set_TOKEN_EXPIRES_AT d s).
Hypothesis P_ledger : forall l s, P s -> P (set_recent_skip_days l s).

Lemma inv_track_skip_pattern w cfg d : inv P (track_skip_pattern w cfg d).
Proof.
  unfold track_skip_pattern.
  destruct (ENABLE_RESTART_PATTERN cfg); [|apply inv_ret].
  apply inv_bind; [apply inv_modify; intros; now apply P_ledger | intro].
  apply inv_bind; [apply inv_gets | intro].
  apply inv_bind; [apply inv_lift | intros []]; [|apply inv_ret].
  apply inv_bind; [now apply inv_print | intro].
  apply inv_bind; [now apply inv_restart_playlist | intro].
  apply inv_modify. intros. now apply P_ledger.
Qed.

(** Everything after the poll keeps a property that the ledger, the token
    cache, the trace and the effect counter do not bear on. *)
Lemma inv_after_poll w cfg s tr s1 :
  poll_track w cfg s = (Ok (Some tr), s1) ->
  P s1 -> P (snd (main_loop_cycle w cfg s)).
Proof.
  intros Hp H1. apply inv_handlers; try assumption.
  unfold loop_body. rewrite (bind_Ok _ _ _ _ _ Hp).
  assert (K : inv P (bind (get_last_play_date w cfg (artist_name tr) (track_name tr))
                          (evaluate_track w cfg))).
  { apply inv_bind; [now apply inv_get_last_play_date | intro].
    apply inv_evaluate_track; try assumption.
    intro. apply inv_track_skip_pattern. }
  apply K, H1.
Qed.
End LedgerWriters.

(** A cycle that stops at "same song as last time" sends nothing to
    Last.fm and no playback command. *)
Lemma same_song_cycle w cfg s s1 s2 tr :
  skipping_paused s = false ->
  is_skipping_enabled w cfg s = (Ok true, s1) ->
  get_current_track w cfg s1 = (Ok (Some tr), s2) ->
  py_eq (track_id tr) (last_checked_track_id s) = true ->
  existsb is_lookup_request (new_events s (snd (main_loop_cycle w cfg s))) = false
  /\ existsb is_playback_command (new_events s (snd (main_loop_cycle w cfg s))) = false.
Proof.
  intros Hp He Ht Hsame.
  destruct (poll_track_same_song w cfg s s1 s2 tr Hp He Ht Hsame) as [_ P].
  destruct (early_exit w cfg s s2 _ P) as (T & D & C & G & F & R).
  pose proof (keeps_run _ _ _ _ _ _ (keeps_is_skipping_enabled w cfg) He) as K1.
  pose proof (keeps_run _ _ _ _ _ _ (keeps_get_current_track w cfg) Ht) as K2.
  assert (G02 : grows s s2)
    by (eapply grows_trans; eapply rel_grows; eassumption).
  assert (Q : forall p : event -> bool,
             (forall e, p e = true -> is_http_request e = true) ->
             (forall e, p e = true -> fp_remote e = false) ->
             (forall e, p e = true -> fp_current_track e = false) ->
             existsb p (new_events s (snd (main_loop_cycle w cfg s))) = false).
  { intros p H1 H2 H3.
    rewrite (new_events_split s s2 _ G02 G), existsb_app.
    rewrite (new_events_split s s1 s2 (rel_grows _ _ _ _ K1) (rel_grows _ _ _ _ K2)),
      existsb_app.
    apply rel_new_events in K1. apply rel_new_events in K2.
    rewrite forallb_forall in *.
    apply orb_false_iff. split; [|apply orb_false_iff; split];
      apply existsb_none, forallb_forall; intros e I;
      destruct (p e) eqn:Pe; try reflexivity; exfalso.
    - specialize (F e I). rewrite (H1 e Pe) in F. discriminate.
    - specialize (K2 e I). rewrite (H3 e Pe) in K2. discriminate.
    - specialize (K1 e I). rewrite (H2 e Pe) in K1. discriminate. }
  split; apply Q; intros [[]| |] H; simpl in H |- *;
    solve [reflexivity | discriminate H].
Qed.

(** X4 (lines 600-602, 594-598): a newly observed track is recorded as
    last checked before its history is looked up, and stays recorded
    whatever the lookup and the decision do, an exception included.  So if
    the next poll finds the same track still playing, that track is not
    looked up again: a lookup that failed is not retried for it. *)
Theorem new_track_recorded_before_lookup w cfg s tr s1 :
  poll_track w cfg s = (Ok (Some tr), s1) ->
  last_checked_track_id s1 = track_id tr
  /\ last_checked_track_id (snd (main_loop_cycle w cfg s)) = track_id tr
  /\ (forall sa sb tr',
        is_skipping_enabled w cfg (snd (main_loop_cycle w cfg s)) = (Ok true, sa) ->
        get_current_track w cfg sa = (Ok (Some tr'), sb) ->
        py_eq (track_id tr') (track_id tr) = true ->
        existsb is_lookup_request
          (new_events (snd (main_loop_cycle w cfg s))
             (snd (main_loop_cycle w cfg (snd (main_loop_cycle w cfg s))))) = false).
Proof.
  intros Hp. destruct (poll_track_new w cfg s tr s1 Hp) as (Unpaused & L1 & _).
  assert (L2 : last_checked_track_id (snd (main_loop_cycle w cfg s)) = track_id tr).
  { apply (inv_after_poll (fun x => last_checked_track_id x = track_id tr)) with (tr := tr) (s1 := s1);
      try (intros; assumption). }
  split; [exact L1|]. split; [exact L2|].
  intros sa sb tr' He Ht Same.
  assert (U : skipping_paused (snd (main_loop_cycle w cfg s)) = false).
  { rewrite <- Unpaused.
    apply (inv_main_loop_cycle (fun x => skipping_paused x = skipping_paused s));
      try (intros; assumption); [|reflexivity].
    intro. apply inv_track_skip_pattern; intros; assumption. }
  rewrite <- L2 in Same.
  apply (same_song_cycle w cfg _ sa sb tr' U He Ht Same).
Qed.

Lemma new_track_recorded_before_lookup_witness :
  last_checked_track_id (snd (main_loop_cycle single_object_world sample_config warm_state))
    = JStr "6HD0bX8N8Yd7Ij3mAjI93y"
  /\ existsb is_lookup_request
       (new_events (snd (main_loop_cycle single_object_world sample_config warm_state))
          (snd (main_loop_cycle single_object_world sample_config
                  (snd (main_loop_cycle single_object_world sample_config warm_state)))))
     = false.
Proof.
  pose (s1 := snd (poll_track single_object_world sample_config warm_state)).
  assert (Hp : poll_track single_object_world sample_config warm_state
               = (Ok (Some sample_track), s1)) by (vm_compute; reflexivity).
  destruct (new_track_recorded_before_lookup single_object_world sample_config
              warm_state sample_track s1 Hp) as (_ & L & Next).
  split; [exact L|].
  pose (s' := snd (main_loop_cycle single_object_world sample_config warm_state)).
  pose (sa := snd (is_skipping_enabled single_object_world sample_config s')).
  pose (sb := snd (get_current_track single_object_world sample_config sa)).
  apply (Next sa sb sample_track).
  - vm_compute. reflexivity.
  - vm_compute. reflexivity.
  - vm_compute. reflexivity.
Defined.

(* ================================================================= *)
(** ** The temporary pause mark *)

(** The poll of a track that is not the last checked one, up to line 609. *)
Lemma poll_track_observed w cfg s s1 s2 tr :
  skipping_paused s = false ->
  is_skipping_enabled w cfg s = (Ok true, s1) ->
  get_current_track w cfg s1 = (Ok (Some tr), s2) ->
  py_eq (track_id tr) (last_checked_track_id s) = false ->
  temp_pause_track_id s2 = temp_pause_track_id s
  /\ poll_track w cfg s
     = bind (if truthy (temp_pause_track_id s)
                && negb (py_eq (temp_pause_track_id s) (track_id tr))
             then bind (print LogClearingTemporaryPause)
                       (fun _ => modify (set_temp_pause_track_id JNull))
             else ret tt)
         (fun _ =>
            bind (print (LogCurrentlyPlaying (artist_name tr) (track_name tr)))
              (fun _ =>
                 bind (gets temp_pause_track_id)
                   (fun tp' =>
                      if py_eq tp' (track_id tr)
                      then bind (print LogTemporarilyPaused)
                             (fun _ => bind (sleep w (POLL_INTERVAL_SECONDS cfg))
                                         (fun _ => ret None))
                      else ret (Some tr))))
         (recorded w tr s2).
Proof.
  intros Hp He Ht Hnew.
  assert (D : decision s2 = decision s).
  { destruct (keeps_run _ _ _ _ _ _ (keeps_is_skipping_enabled w cfg) He) as [_ D1].
    destruct (keeps_run _ _ _ _ _ _ (keeps_get_current_track w cfg) Ht) as [_ D2].
    rewrite (D2 eq_refl). apply (D1 eq_refl). }
  assert (Tp : temp_pause_track_id s2 = temp_pause_track_id s)
    by (unfold decision in D; congruence).
  assert (L : last_checked_track_id s2 = last_checked_track_id s)
    by (unfold decision in D; congruence).
  split; [exact Tp|].
  destruct (get_current_track_truthy w cfg s1 tr s2 Ht) as (T1 & _ & T3).
  destruct (truthy_track_passes tr T1 T3) as [N V].
  unfold poll_track. unfold bind at 1. unfold gets at 1. rewrite Hp.
  rewrite (bind_Ok _ _ _ _ _ He). change (negb true) with false. cbv iota.
  rewrite (bind_Ok _ _ _ _ _ Ht). rewrite N, V.
  unfold bind at 1. unfold gets at 1. rewrite L, Hnew.
  unfold bind at 1. unfold modify at 1.
  unfold bind at 1. unfold now at 1. unfold bind at 1. unfold step, ret at 1.
  cbv beta iota.
  unfold bind at 1. unfold modify at 1.
  unfold bind at 1. unfold gets at 1.
  change (temp_pause_track_id
            (set_last_checked_timestamp
               {| micros := clock w (tick (set_last_checked_track_id (track_id tr) s2));
                  aware := true |}
               (set_tick (S (tick (set_last_checked_track_id (track_id tr) s2)))
                  (set_last_checked_track_id (track_id tr) s2))))
    with (temp_pause_track_id s2).
  rewrite Tp. reflexivity.
Qed.

(** X5 (lines 609-615): when the newly observed track is the one carrying
    the temporary pause mark, the cycle records it as last checked, prints
    the "currently playing" and the "temporarily paused" lines, sleeps one
    poll interval and ends there: nothing else happens after the poll, no
    history lookup and no playback command is sent, and the mark stays in
    place. *)
Theorem marked_track_is_left_alone w cfg s s1 s2 tr :
  skipping_paused s = false ->
  is_skipping_enabled w cfg s = (Ok true, s1) ->
  get_current_track w cfg s1 = (Ok (Some tr), s2) ->
  py_eq (track_id tr) (last_checked_track_id s) = false ->
  py_eq (temp_pause_track_id s) (track_id tr) = true ->
  trace (snd (loop_body w cfg s))
    = EvSleep (POLL_INTERVAL_SECONDS cfg)
        :: EvLog LogTemporarilyPaused
        :: EvLog (LogCurrentlyPlaying (artist_name tr) (track_name tr))
        :: trace s2
  /\ existsb is_lookup_request (new_events s (snd (main_loop_cycle w cfg s))) = false
  /\ existsb is_playback_command (new_events s (snd (main_loop_cycle w cfg s))) = false
  /\ temp_pause_track_id (snd (main_loop_cycle w cfg s)) = temp_pause_track_id s
  /\ last_checked_track_id (snd (main_loop_cycle w cfg s)) = track_id tr
  /\ (sleepable w (POLL_INTERVAL_SECONDS cfg) -> stop_signal w (S (tick s2)) = false ->
      fst (main_loop_cycle w cfg s) = Ok Continue).
Proof.
  intros Hp He Ht Hnew Hmark.
  destruct (poll_track_observed w cfg s s1 s2 tr Hp He Ht Hnew) as [Tp P].
  rewrite Hmark in P. rewrite andb_false_r in P.
  set (s3 := set_trace (EvLog (LogCurrentlyPlaying (artist_name tr) (track_name tr))
                          :: trace s2) (recorded w tr s2)).
  assert (P' : poll_track w cfg s
               = bind (print LogTemporarilyPaused)
                   (fun _ => bind (sleep w (POLL_INTERVAL_SECONDS cfg))
                               (fun _ => ret None)) s3).
  { rewrite P. unfold bind at 1. unfold ret at 1. cbv beta iota.
    unfold bind at 1. unfold print at 1, emit at 1, modify at 1. cbv beta iota.
    unfold bind at 1. unfold gets at 1. cbv beta iota.
    change (temp_pause_track_id
              (set_trace (EvLog (LogCurrentlyPlaying (artist_name tr) (track_name tr))
                            :: trace (recorded w tr s2)) (recorded w tr s2)))
      with (temp_pause_track_id s2).
    rewrite Tp, Hmark. reflexivity. }
  destruct (early_exit w cfg s s3 _ P') as (T & D & C & G & F & R).
  pose proof (keeps_run _ _ _ _ _ _ (keeps_is_skipping_enabled w cfg) He) as K1.
  pose proof (keeps_run _ _ _ _ _ _ (keeps_get_current_track w cfg) Ht) as K2.
  assert (G23 : grows s2 s3) by (eapply grows_cons; reflexivity).
  assert (N23 : new_events s2 s3
                = [EvLog (LogCurrentlyPlaying (artist_name tr) (track_name tr))])
    by (apply new_events_app; reflexivity).
  assert (G02 : grows s s2)
    by (eapply grows_trans; eapply rel_grows; eassumption).
  assert (Q : forall p : event -> bool,
             (forall e, p e = true -> is_http_request e = true) ->
             (forall e, p e = true -> fp_remote e = false) ->
             (forall e, p e = true -> fp_current_track e = false) ->
             existsb p (new_events s (snd (main_loop_cycle w cfg s))) = false).
  { intros p H1 H2 H3.
    rewrite (new_events_split s s3 _ (grows_trans _ _ _ G02 G23) G), existsb_app.
    rewrite (new_events_split s s2 s3 G02 G23), existsb_app, N23.
    rewrite (new_events_split s s1 s2 (rel_grows _ _ _ _ K1) (rel_grows _ _ _ _ K2)),
      existsb_app.
    apply rel_new_events in K1. apply rel_new_events in K2.
    rewrite forallb_forall in *.
    apply orb_false_iff. split; [|apply orb_false_iff; split;
                                   [|apply orb_false_iff; split]].
    - apply existsb_none, forallb_forall; intros e I.
      destruct (p e) eqn:Pe; try reflexivity; exfalso.
      specialize (F e I). rewrite (H1 e Pe) in F. discriminate.
    - simpl. destruct (p (EvLog _)) eqn:Pe; [|reflexivity].
      specialize (H1 _ Pe). discriminate.
    - apply existsb_none, forallb_forall; intros e I.
      destruct (p e) eqn:Pe; try reflexivity; exfalso.
      specialize (K2 e I). rewrite (H3 e Pe) in K2. discriminate.
    - apply existsb_none, forallb_forall; intros e I.
      destruct (p e) eqn:Pe; try reflexivity; exfalso.
      specialize (K1 e I). rewrite (H2 e Pe) in K1. discriminate. }
  split; [exact T|].
  split; [|split; [|split; [|split]]].
  - apply Q; intros [[]| |] H; simpl in H |- *; solve [reflexivity | discriminate H].
  - apply Q; intros [[]| |] H; simpl in H |- *; solve [reflexivity | discriminate H].
  - unfold decision in D. inversion D as [[Dp Dt Dl Dts Dr]].
    rewrite Dt. exact Tp.
  - unfold decision in D. inversion D as [[Dp Dt Dl Dts Dr]].
    rewrite Dl. reflexivity.
  - intros Pos Stop. rewrite (R Pos Stop). reflexivity.
Qed.

Lemma marked_track_is_left_alone_witness :
  existsb is_lookup_request
    (new_events marked_state (snd (main_loop_cycle calm_world sample_config marked_state)))
  = false
  /\ temp_pause_track_id (snd (main_loop_cycle calm_world sample_config marked_state))
     = JStr "6HD0bX8N8Yd7Ij3mAjI93y"
  /\ new_events marked_state (snd (loop_body calm_world sample_config marked_state))
     = [EvSleep 120; EvLog LogTemporarilyPaused;
        EvLog (LogCurrentlyPlaying (JStr "Skyforest") (JStr "Heart of the Forest"));
        EvRequest (ReqCurrentlyPlaying (JStr "BQD-token"));
        EvRequest (ReqRemoteControl "https://example.org/remote_control.txt")].
Proof.
  pose (s1 := snd (is_skipping_enabled calm_world sample_config marked_state)).
  pose (s2 := snd (get_current_track calm_world sample_config s1)).
  assert (He : is_skipping_enabled calm_world sample_config marked_state = (Ok true, s1))
    by (vm_compute; reflexivity).
  assert (Ht : get_current_track calm_world sample_config s1 = (Ok (Some sample_track), s2))
    by (vm_compute; reflexivity).
  destruct (marked_track_is_left_alone calm_world sample_config marked_state s1 s2
              sample_track eq_refl He Ht eq_refl eq_refl) as (T & N & _ & M & _).
  split; [exact N | split; [exact M|]].
  apply new_events_app. rewrite T. vm_compute. reflexivity.
Defined.

(** X6 (lines 604-607): when a track other than the marked one is newly
    observed, the temporary pause mark is cleared before the lookup, and
    the track goes on to the history lookup as usual. *)
Theorem stale_mark_is_cleared w cfg s s1 s2 tr :
  skipping_paused s = false ->
  is_skipping_enabled w cfg s = (Ok true, s1) ->
  get_current_track w cfg s1 = (Ok (Some tr), s2) ->
  py_eq (track_id tr) (last_checked_track_id s) = false ->
  truthy (temp_pause_track_id s) = true ->
  py_eq (temp_pause_track_id s) (track_id tr) = false ->
  fst (poll_track w cfg s) = Ok (Some tr)
  /\ temp_pause_track_id (snd (poll_track w cfg s)) = JNull
  /\ new_events s2 (snd (poll_track w cfg s))
     = [EvLog (LogCurrentlyPlaying (artist_name tr) (track_name tr));
        EvLog LogClearingTemporaryPause]
  /\ temp_pause_track_id (snd (main_loop_cycle w cfg s)) = JNull.
Proof.
  intros Hp He Ht Hnew Hset Hother.
  destruct (poll_track_observed w cfg s s1 s2 tr Hp He Ht Hnew) as [Tp P].
  rewrite Hset, Hother in P. simpl in P.
  destruct (get_current_track_truthy w cfg s1 tr s2 Ht) as (T1 & _ & _).
  assert (E : poll_track w cfg s
              = (Ok (Some tr),
                 set_trace (EvLog (LogCurrentlyPlaying (artist_name tr) (track_name tr))
                              :: EvLog LogClearingTemporaryPause :: trace s2)
                   (set_temp_pause_track_id JNull (recorded w tr s2)))).
  { rewrite P. unfold bind, print, emit, modify, gets, ret. simpl.
    destruct (track_id tr); simpl in T1; try discriminate T1; reflexivity. }
  rewrite E. simpl. split; [reflexivity|]. split; [reflexivity|]. split.
  - apply new_events_app. reflexivity.
  - apply (inv_after_poll (fun x => temp_pause_track_id x = JNull)) with (tr := tr)
      (s1 := snd (poll_track w cfg s)); try (intros; assumption).
    + rewrite E. reflexivity.
    + rewrite E. reflexivity.
Qed.

Lemma stale_mark_is_cleared_witness :
  temp_pause_track_id (snd (poll_track calm_world sample_config stale_mark_state)) = JNull
  /\ fst (poll_track calm_world sample_config stale_mark_state) = Ok (Some sample_track).
Proof.
  pose (s1 := snd (is_skipping_enabled calm_world sample_config stale_mark_state)).
  pose (s2 := snd (get_current_track calm_world sample_config s1)).
  assert (He : is_skipping_enabled calm_world sample_config stale_mark_state = (Ok true, s1))
    by (vm_compute; reflexivity).
  assert (Ht : get_current_track calm_world sample_config s1 = (Ok (Some sample_track), s2))
    by (vm_compute; reflexivity).
  destruct (stale_mark_is_cleared calm_world sample_config stale_mark_state s1 s2
              sample_track eq_refl He Ht eq_refl eq_refl eq_refl) as (R & M & _).
  split; [exact M | exact R].
Defined.

(* ================================================================= *)
(** ** The loop over many cycles *)

Lemma ledger_push_bounded cfg l d :
  Z.of_nat (List.length l) <= RESTART_PATTERN_SONG_COUNT cfg ->
  Z.of_nat (List.length (ledger_push cfg l d)) <= RESTART_PATTERN_SONG_COUNT cfg.
Proof.
  intros H. unfold ledger_push.
  destruct (Z.of_nat (List.length (l ++ [d])) >? RESTART_PATTERN_SONG_COUNT cfg) eqn:G.
  - rewrite length_app in *. simpl in *.
    destruct l as [|x l]; simpl in *; [lia|]. rewrite length_app. simpl. lia.
  - rewrite Z.gtb_ltb in G. apply Z.ltb_ge in G. exact G.
Qed.

Lemma inv_ledger_bounded_pattern w cfg d :
  0 <= RESTART_PATTERN_SONG_COUNT cfg ->
  inv (ledger_bounded cfg) (track_skip_pattern w cfg d).
Proof.
  intros Pos. unfold track_skip_pattern.
  destruct (ENABLE_RESTART_PATTERN cfg); [|apply inv_ret].
  apply inv_bind;
    [apply inv_modify; intros s H; now apply ledger_push_bounded | intro].
  apply inv_bind; [apply inv_gets | intro].
  apply inv_bind; [apply inv_lift | intros []]; [|apply inv_ret].
  apply inv_bind; [apply inv_print; intros; assumption | intro].
  apply inv_bind; [apply inv_restart_playlist; intros; assumption | intro].
  apply inv_modify. intros s _. exact Pos.
Qed.

(** X7 (lines 562, 636-648): the skip ledger never holds more than
    [RESTART_PATTERN_SONG_COUNT] entries: every cycle keeps that bound, and
    [main_loop], which starts from the empty ledger, has it after any
    number of cycles. *)
Theorem ledger_never_exceeds_capacity w cfg :
  0 <= RESTART_PATTERN_SONG_COUNT cfg ->
  (forall s, ledger_bounded cfg s -> ledger_bounded cfg (snd (main_loop_cycle w cfg s)))
  /\ (forall n s, ledger_bounded cfg (snd (main_loop w cfg n s))).
Proof.
  intros Pos.
  assert (C : forall n, inv (ledger_bounded cfg) (run_cycles w cfg n)).
  { intro n. apply inv_run_cycles; try (intros; assumption).
    intro. now apply inv_ledger_bounded_pattern. }
  split.
  - apply inv_main_loop_cycle; try (intros; assumption).
    intro. now apply inv_ledger_bounded_pattern.
  - intros n s. unfold main_loop, bind, modify, print, emit. simpl.
    apply C. exact Pos.
Qed.

Lemma ledger_never_exceeds_capacity_witness :
  ledger_bounded sample_config (snd (main_loop calm_world sample_config 3 warm_state)).
Proof.
  apply (proj2 (ledger_never_exceeds_capacity calm_world sample_config ltac:(discriminate))).
Defined.

(** X8 (lines 570, 636): the decision loop only reads the manual pause
    flag, it never writes it; and with the pattern restart disabled it
    never writes the skip ledger either. *)
Theorem loop_leaves_flag_and_disabled_ledger w cfg n s :
  skipping_paused (snd (run_cycles w cfg n s)) = skipping_paused s
  /\ (ENABLE_RESTART_PATTERN cfg = false ->
      recent_skip_days (snd (run_cycles w cfg n s)) = recent_skip_days s).
Proof.
  split.
  - apply (inv_run_cycles (fun x => skipping_paused x = skipping_paused s));
      try (intros; assumption); [|reflexivity].
    intro. apply inv_track_skip_pattern; intros; assumption.
  - intros Off.
    apply (inv_run_cycles (fun x => recent_skip_days x = recent_skip_days s));
      try (intros; assumption); [|reflexivity].
    intros d s0 H. unfold track_skip_pattern. rewrite Off. exact H.
Qed.

Lemma loop_leaves_flag_and_disabled_ledger_witness :
  recent_skip_days (snd (run_cycles calm_world no_pattern_config 2 nearly_full_state))
  = [3; 4; 5; 4].
Proof.
  apply (proj2 (loop_leaves_flag_and_disabled_ledger calm_world no_pattern_config 2
                  nearly_full_state)).
  reflexivity.
Defined.





(** With an interval that [time.sleep] does not take, the first failure
    ends the loop: the wait inside the [try] block raises, the handler
    logs it, and the handler's own wait raises again, outside the [try]
    block this time. *)
Lemma oversized_interval_ends_loop :
  fst (main_loop_cycle calm_world oversized_poll_config after_first_poll)
  = Exc OverflowError
  /\ new_events after_first_poll
       (snd (main_loop_cycle calm_world oversized_poll_config after_first_poll))
     = [EvSleep 10000000000; EvLog (LogUnexpectedError OverflowError);
        EvSleep 10000000000; EvLog (LogSameSong (JStr "Heart of the Forest"));
        EvRequest (ReqCurrentlyPlaying (JStr "BQD-token"));
        EvRequest (ReqRemoteControl "https://example.org/remote_control.txt")].
Proof. split; vm_compute; reflexivity. Qed.

(** X10 (lines 660-670): the loop leaves through [break] exactly when the
    [try] block itself raised [KeyboardInterrupt].  A stop signal that
    arrives during the standard pause of line 670, which lies outside the
    [try] statement, is not handled: it leaves [main_loop] as an exception
    and the farewell message is not printed. *)
Theorem break_only_on_interrupt_inside_try w cfg s :
  (fst (main_loop_cycle w cfg s) = Ok Break
   <-> fst (loop_body w cfg s) = Exc KeyboardInterrupt)
  /\ (forall s1,
        loop_body w cfg s = (Ok FallThrough, s1) ->
        sleepable w (POLL_INTERVAL_SECONDS cfg) ->
        stop_signal w (tick s1) = true ->
        fst (main_loop_cycle w cfg s) = Exc KeyboardInterrupt
        /\ new_events s1 (snd (main_loop_cycle w cfg s))
           = [EvSleep (POLL_INTERVAL_SECONDS cfg)]).
Proof.
  split.
  - unfold main_loop_cycle.
    destruct (loop_body w cfg s) as [[[]|e] s1]; simpl.
    + split; discriminate.
    + unfold bind. destruct (sleep w (POLL_INTERVAL_SECONDS cfg) s1) as [[[]|e] s2];
        simpl; split; discriminate.
    + destruct e; simpl;
        try (split; [|discriminate];
             unfold bind; rewrite print_run;
             match goal with
             | |- context [sleep w ?n ?x] =>
                 destruct (sleep w n x) as [[[]|e1] s2]; [|simpl; discriminate]
             end;
             match goal with
             | |- context [sleep w ?n ?x] =>
                 destruct (sleep w n x) as [[[]|e2] s3]; simpl; discriminate
             end).
      split; reflexivity.
  - intros s1 B Pos Stop.
    assert (NonNeg : sleep_error w (POLL_INTERVAL_SECONDS cfg) = None)
    by now apply sleepable_no_error.
    unfold main_loop_cycle. rewrite B. unfold bind.
    rewrite sleep_run, NonNeg, Stop. simpl. split; [reflexivity|].
    apply new_events_app. reflexivity.
Qed.

Lemma break_only_on_interrupt_inside_try_witness :
  fst (main_loop_cycle stop_while_asleep_world sample_config after_first_poll) = Ok Break
  /\ fst (main_loop_cycle stop_while_asleep_world sample_config warm_state)
     = Exc KeyboardInterrupt.
Proof.
  split.
  - apply (proj1 (break_only_on_interrupt_inside_try stop_while_asleep_world sample_config
                    after_first_poll)).
    vm_compute. reflexivity.
  - pose (s1 := snd (loop_body stop_while_asleep_world sample_config warm_state)).
    assert (B : loop_body stop_while_asleep_world sample_config warm_state
                = (Ok FallThrough, s1)) by (vm_compute; reflexivity).
    apply (proj2 (break_only_on_interrupt_inside_try stop_while_asleep_world sample_config
                    warm_state) s1 B).
    + sleepable_here.
    + reflexivity.
Defined.

(* ================================================================= *)
(** ** Playback client: how responses are read *)

(** X11 (lines 411-420, 429-436): the skip and the pause command send one
    request each and never raise on an HTTP error status: a status outside
    200/202/204 is logged and the call returns normally. *)
Theorem playback_commands_swallow_statuses w cfg s tok s1 :
  get_spotify_token w cfg s = (Ok tok, s1) ->
  (forall r,
      http w (tick s1) (ReqNext tok) = Resp r ->
      fst (skip_current_track w cfg s) = Ok tt
      /\ new_events s1 (snd (skip_current_track w cfg s))
         = if status_ok (status_code r) then [EvRequest (ReqNext tok)]
           else [EvLog (LogSkipFailed (status_code r)); EvRequest (ReqNext tok)])
  /\ (forall r,
        http w (tick s1) (ReqPause tok) = Resp r ->
        fst (pause_spotify_playback w cfg s) = Ok tt
        /\ new_events s1 (snd (pause_spotify_playback w cfg s))
           = if status_ok (status_code r) then [EvRequest (ReqPause tok)]
             else [EvLog (LogPauseFailed (status_code r)); EvRequest (ReqPause tok)]).
Proof.
  intros Ht. split; intros r F.
  - assert (E : skip_current_track w cfg s
                = (if negb (status_ok (status_code r))
                   then print (LogSkipFailed (status_code r)) else ret tt)
                    (set_tick (S (tick s1))
                       (set_trace (EvRequest (ReqNext tok) :: trace s1) s1))).
    { unfold skip_current_track, spotify_post. unfold bind at 1.
      rewrite (spotify_call_run w cfg ReqNext s tok s1 Ht), F. reflexivity. }
    rewrite E.
    destruct (status_ok (status_code r)); simpl;
      (split; [reflexivity | apply new_events_app; reflexivity]).
  - assert (E : pause_spotify_playback w cfg s
                = (if negb (status_ok (status_code r))
                   then print (LogPauseFailed (status_code r)) else ret tt)
                    (set_tick (S (tick s1))
                       (set_trace (EvRequest (ReqPause tok) :: trace s1) s1))).
    { unfold pause_spotify_playback.
      rewrite (bind_Ok _ _ _ _ _ Ht). unfold bind. rewrite http_call_run, F.
      reflexivity. }
    rewrite E.
    destruct (status_ok (status_code r)); simpl;
      (split; [reflexivity | apply new_events_app; reflexivity]).
Qed.

Lemma playback_commands_swallow_statuses_witness :
  fst (skip_current_track forbidden_skip_world sample_config warm_state) = Ok tt
  /\ new_events (snd (get_spotify_token forbidden_skip_world sample_config warm_state))
       (snd (skip_current_track forbidden_skip_world sample_config warm_state))
     = [EvLog (LogSkipFailed 403); EvRequest (ReqNext (JStr "BQD-token"))].
Proof.
  pose (s1 := snd (get_spotify_token forbidden_skip_world sample_config warm_state)).
  assert (Ht : get_spotify_token forbidden_skip_world sample_config warm_state
               = (Ok (JStr "BQD-token"), s1)) by (vm_compute; reflexivity).
  exact (proj1 (playback_commands_swallow_statuses forbidden_skip_world sample_config
                  warm_state (JStr "BQD-token") s1 Ht)
           (mkResponse 403 "Premium required" None) eq_refl).
Defined.

(** X12 (lines 422-427): the pause-state query reports "paused" only on a
    200 answer whose [is_playing] is present and falsy.  Any other status,
    an empty body and a missing [is_playing] all count as "playing", so
    nothing is re-paused on their account. *)
Theorem paused_only_when_told w cfg s tok s1 r :
  get_spotify_token w cfg s = (Ok tok, s1) ->
  http w (tick s1) (ReqPlayer tok) = Resp r ->
  (status_code r <> 200 -> fst (is_spotify_paused w cfg s) = Ok false)
  /\ (forall j, status_code r = 200 -> json_body r = Some j -> truthy j = false ->
                fst (is_spotify_paused w cfg s) = Ok false)
  /\ (forall m, status_code r = 200 -> json_body r = Some (JObj m) ->
                fst (is_spotify_paused w cfg s)
                = Ok (match assoc "is_playing" m with
                      | Some v => negb (truthy v)
                      | None => false
                      end)).
Proof.
  intros Ht F.
  assert (E : is_spotify_paused w cfg s
              = (fun r0 =>
                   if negb (status_code r0 =? 200) then ret false
                   else bind (resp_json r0)
                          (fun j => bind (lift (py_get (py_or j (JObj [])) "is_playing"
                                                  (JBool true)))
                                      (fun playing => ret (negb (truthy playing))))) r
                  (set_tick (S (tick s1))
                     (set_trace (EvRequest (ReqPlayer tok) :: trace s1) s1))).
  { unfold is_spotify_paused, spotify_get. unfold bind at 1.
    rewrite (spotify_call_run w cfg ReqPlayer s tok s1 Ht), F. reflexivity. }
  rewrite E. cbv beta. split; [|split].
  - intros St. replace (status_code r =? 200) with false
      by (symmetry; now apply Z.eqb_neq). reflexivity.
  - intros j St J Tj. rewrite St. simpl. unfold resp_json. rewrite J.
    unfold bind, ret, lift, py_or. rewrite Tj. reflexivity.
  - intros m St J. rewrite St. simpl. unfold resp_json. rewrite J.
    unfold bind, ret, lift, py_or. destruct m as [|p m']; [reflexivity|].
    simpl truthy. cbv iota. unfold py_get.
    destruct (assoc "is_playing" (p :: m')); reflexivity.
Qed.

Lemma paused_only_when_told_witness :
  fst (is_spotify_paused no_device_world sample_config warm_state) = Ok false
  /\ fst (is_spotify_paused calm_world sample_config warm_state) = Ok true.
Proof.
  pose (s1 := snd (get_spotify_token no_device_world sample_config warm_state)).
  assert (Ht : get_spotify_token no_device_world sample_config warm_state
               = (Ok (JStr "BQD-token"), s1)) by (vm_compute; reflexivity).
  pose (s1' := snd (get_spotify_token calm_world sample_config warm_state)).
  assert (Ht' : get_spotify_token calm_world sample_config warm_state
                = (Ok (JStr "BQD-token"), s1')) by (vm_compute; reflexivity).
  split.
  - apply (proj1 (paused_only_when_told no_device_world sample_config warm_state
                    (JStr "BQD-token") s1 (mkResponse 204 "" None) Ht eq_refl)).
    discriminate.
  - exact (proj2 (proj2 (paused_only_when_told calm_world sample_config warm_state
                    (JStr "BQD-token") s1'
                    (mkResponse 200 "" (Some (JObj [("is_playing", JBool false)])))
                    Ht' eq_refl))
             [("is_playing", JBool false)] eq_refl eq_refl).
Defined.

(** X13 (lines 373-408): [get_current_track] answers "nothing playing" on a
    204 without logging, and on every other status than 200 with a log
    line, never raising for a status; on a 200 it returns the id and the
    name of the item together with the name of the first listed artist
    only. *)
Theorem current_track_reads_first_artist w cfg s tok s1 r :
  get_spotify_token w cfg s = (Ok tok, s1) ->
  http w (tick s1) (ReqCurrentlyPlaying tok) = Resp r ->
  (status_code r = 204 ->
   fst (get_current_track w cfg s) = Ok None
   /\ new_events s1 (snd (get_current_track w cfg s))
      = [EvRequest (ReqCurrentlyPlaying tok)])
  /\ (status_code r <> 204 -> status_code r <> 200 ->
      fst (get_current_track w cfg s) = Ok None
      /\ new_events s1 (snd (get_current_track w cfg s))
         = [EvLog (LogSpotifyUnexpectedStatus (status_code r));
            EvRequest (ReqCurrentlyPlaying tok)])
  /\ (forall m item first others artist name id,
        status_code r = 200 ->
        json_body r = Some (JObj m) ->
        assoc "item" m = Some (JObj item) ->
        assoc "artists" item = Some (JList (JObj first :: others)) ->
        assoc "name" first = Some artist ->
        assoc "name" item = Some name ->
        assoc "id" item = Some id ->
        truthy id = true -> truthy artist = true -> truthy name = true ->
        fst (get_current_track w cfg s) = Ok (Some (mkTrack id name artist))).
Proof.
  intros Ht F.
  assert (E : forall k : response -> M (option track),
             bind (spotify_get w cfg ReqCurrentlyPlaying) k s
             = k r (set_tick (S (tick s1))
                      (set_trace (EvRequest (ReqCurrentlyPlaying tok) :: trace s1) s1))).
  { intro k. unfold spotify_get. unfold bind at 1.
    rewrite (spotify_call_run w cfg ReqCurrentlyPlaying s tok s1 Ht), F. reflexivity. }
  unfold get_current_track. rewrite !E. split; [|split].
  - intros St. rewrite St. simpl. split; [reflexivity|].
    apply new_events_app. reflexivity.
  - intros N204 N200.
    replace (status_code r =? 204) with false by (symmetry; now apply Z.eqb_neq).
    replace (status_code r =? 200) with false by (symmetry; now apply Z.eqb_neq).
    simpl. split; [reflexivity|]. apply new_events_app. reflexivity.
  - intros m item first others artist name id St J Hitem Hartists Hfirst Hname Hid
           Tid Tartist Tname.
    rewrite St. simpl. unfold resp_json. rewrite J.
    assert (Tm : truthy (JObj m) = true) by (destruct m; [discriminate|reflexivity]).
    assert (Ti : truthy (JObj item) = true) by (destruct item; [discriminate|reflexivity]).
    unfold bind, ret, lift, py_or, py_get. rewrite Tm, Hitem, Ti.
    cbn [negb]. rewrite Hartists. cbn [truthy py_index0 py_getitem].
    rewrite Hfirst, Hname, Hid, Tid, Tartist, Tname. reflexivity.
Qed.

Lemma current_track_reads_first_artist_witness :
  fst (get_current_track duet_world sample_config warm_state) = Ok (Some sample_track)
  /\ fst (get_current_track silent_world sample_config warm_state) = Ok None.
Proof.
  pose (s1 := snd (get_spotify_token duet_world sample_config warm_state)).
  assert (Ht : get_spotify_token duet_world sample_config warm_state
               = (Ok (JStr "BQD-token"), s1)) by (vm_compute; reflexivity).
  pose (s1' := snd (get_spotify_token silent_world sample_config warm_state)).
  assert (Ht' : get_spotify_token silent_world sample_config warm_state
                = (Ok (JStr "BQD-token"), s1')) by (vm_compute; reflexivity).
  split.
  - refine (proj2 (proj2 (current_track_reads_first_artist duet_world sample_config
                            warm_state (JStr "BQD-token") s1
                            (mkResponse 200 "" (Some duet_playing)) Ht eq_refl))
              _ _ _ _ _ _ _ eq_refl eq_refl eq_refl eq_refl eq_refl eq_refl eq_refl
              eq_refl eq_refl eq_refl).
  - apply (proj1 (current_track_reads_first_artist silent_world sample_config warm_state
                    (JStr "BQD-token") s1' (mkResponse 204 "" None) Ht' eq_refl)).
    reflexivity.
Defined.

(* ================================================================= *)
(** ** Token manager: what a refresh leaves behind *)

Lemma refresh_access_token_run w cfg s :
  refresh_access_token w cfg s
  = match http w (tick s) (ReqToken (REFRESH_TOKEN cfg)) with
    | Resp r =>
        (fun r =>
           if negb (status_code r =? 200) then raise RuntimeError
           else
             data <- resp_json r ;;
             has <- lift (py_contains data "access_token") ;;
             if negb has then raise RuntimeError
             else
               tok <- lift (py_getitem data "access_token") ;;
               modify (set_SPOTIFY_TOKEN tok) ;;
               e <- lift (py_get data "expires_in" (JNum 3600)) ;;
               expires_in <- lift (py_int e) ;;
               n <- now w ;;
               td <- lift (timedelta_us (Z.max 0 (expires_in - 100) * US_PER_SECOND)) ;;
               exp <- lift (datetime_add n td) ;;
               modify (set_TOKEN_EXPIRES_AT (micros exp)) ;;
               print LogTokenRefreshed) r
          (set_tick (S (tick s))
             (set_trace (EvRequest (ReqToken (REFRESH_TOKEN cfg)) :: trace s) s))
    | NetFail =>
        (Exc RequestException,
         set_tick (S (tick s))
           (set_trace (EvRequest (ReqToken (REFRESH_TOKEN cfg)) :: trace s) s))
    | Interrupted =>
        (Exc KeyboardInterrupt,
         set_tick (S (tick s))
           (set_trace (EvRequest (ReqToken (REFRESH_TOKEN cfg)) :: trace s) s))
    end.
Proof.
  unfold refresh_access_token. unfold bind at 1. rewrite http_call_run.
  destruct (http w (tick s) (ReqToken (REFRESH_TOKEN cfg))); reflexivity.
Qed.

(** X14 (lines 298-303, 322-324): a refresh that is rejected (transport
    failure, status other than 200, or an answer without [access_token])
    raises and leaves the cached token and its expiry untouched; and when
    the token cannot be obtained, the API call that asked for it is not
    sent. *)
Theorem failed_refresh_keeps_cache w cfg s :
  (http w (tick s) (ReqToken (REFRESH_TOKEN cfg)) = NetFail ->
   fst (refresh_access_token w cfg s) = Exc RequestException
   /\ token_cache (snd (refresh_access_token w cfg s)) = token_cache s)
  /\ (forall r,
        http w (tick s) (ReqToken (REFRESH_TOKEN cfg)) = Resp r ->
        status_code r <> 200 ->
        fst (refresh_access_token w cfg s) = Exc RuntimeError
        /\ token_cache (snd (refresh_access_token w cfg s)) = token_cache s)
  /\ (forall r m,
        http w (tick s) (ReqToken (REFRESH_TOKEN cfg)) = Resp r ->
        status_code r = 200 ->
        json_body r = Some (JObj m) ->
        assoc "access_token" m = None ->
        fst (refresh_access_token w cfg s) = Exc RuntimeError
        /\ token_cache (snd (refresh_access_token w cfg s)) = token_cache s)
  /\ (forall e s1 endpoint,
        get_spotify_token w cfg s = (Exc e, s1) ->
        spotify_get w cfg endpoint s = (Exc e, s1)
        /\ spotify_post w cfg endpoint s = (Exc e, s1)
        /\ spotify_put w cfg endpoint s = (Exc e, s1)).
Proof.
  split; [|split; [|split]].
  - intros F. rewrite refresh_access_token_run, F. split; reflexivity.
  - intros r F St. rewrite refresh_access_token_run, F. cbv beta.
    replace (status_code r =? 200) with false by (symmetry; now apply Z.eqb_neq).
    split; reflexivity.
  - intros r m F St J A. rewrite refresh_access_token_run, F. cbv beta.
    rewrite St. change (negb (200 =? 200)) with false. cbv iota.
    unfold resp_json. rewrite J.
    unfold bind, ret, lift, py_contains. rewrite A. split; reflexivity.
  - intros e s1 endpoint H. unfold spotify_get, spotify_post, spotify_put.
    rewrite (bind_Exc _ _ _ _ _ H). auto.
Qed.

Lemma failed_refresh_keeps_cache_witness :
  fst (refresh_access_token revoked_world sample_config warm_state) = Exc RuntimeError
  /\ token_cache (snd (refresh_access_token revoked_world sample_config warm_state))
     = token_cache warm_state.
Proof.
  apply (proj1 (proj2 (failed_refresh_keeps_cache revoked_world sample_config warm_state))
           (mkResponse 400 "invalid_grant" None)).
  - reflexivity.
  - discriminate.
Defined.

(** X15 (lines 305-310): a successful refresh stores the new token and
    sets the expiry to the moment of the refresh plus the server's lifetime
    cut by 100 seconds, never less than zero; a missing [expires_in] counts
    as 3600.  So the cached expiry is never before the refresh and, for
    lifetimes of 100 s or more, exactly 100 s before the server's own. *)
Theorem refresh_cuts_lifetime_by_100s w cfg s r m tok z :
  http w (tick s) (ReqToken (REFRESH_TOKEN cfg)) = Resp r ->
  status_code r = 200 ->
  json_body r = Some (JObj m) ->
  assoc "access_token" m = Some tok ->
  py_int (lifetime_field m) = Ok z ->
  Z.max 0 (z - 100) * US_PER_SECOND / US_PER_DAY <= TIMEDELTA_MAX_DAYS ->
  datetime_in_range (clock w (S (tick s)) + Z.max 0 (z - 100) * US_PER_SECOND) = true ->
  fst (refresh_access_token w cfg s) = Ok tt
  /\ SPOTIFY_TOKEN (snd (refresh_access_token w cfg s)) = tok
  /\ TOKEN_EXPIRES_AT (snd (refresh_access_token w cfg s))
     = clock w (S (tick s)) + Z.max 0 (z - 100) * US_PER_SECOND
  /\ clock w (S (tick s)) <= TOKEN_EXPIRES_AT (snd (refresh_access_token w cfg s))
  /\ (100 <= z ->
      TOKEN_EXPIRES_AT (snd (refresh_access_token w cfg s))
      = clock w (S (tick s)) + z * US_PER_SECOND - 100 * US_PER_SECOND).
Proof.
  intros F St J A L Td Rg.
  assert (E : refresh_access_token w cfg s
              = (Ok tt,
                 set_trace (EvLog LogTokenRefreshed
                              :: EvRequest (ReqToken (REFRESH_TOKEN cfg)) :: trace s)
                   (set_TOKEN_EXPIRES_AT
                      (clock w (S (tick s)) + Z.max 0 (z - 100) * US_PER_SECOND)
                      (set_tick (S (S (tick s))) (set_SPOTIFY_TOKEN tok s))))).
  { rewrite refresh_access_token_run, F. cbv beta.
    rewrite St. change (negb (200 =? 200)) with false. cbv iota.
    unfold resp_json. rewrite J. unfold now.
    unfold bind, ret, lift, py_contains, py_getitem, py_get, modify, step,
      print, emit. rewrite A. cbn [negb].
    unfold lifetime_field in L. rewrite L.
    unfold timedelta_us, datetime_add. cbn [tick set_tick set_trace set_SPOTIFY_TOKEN micros].
    assert (Low : (- TIMEDELTA_MAX_DAYS <=? Z.max 0 (z - 100) * US_PER_SECOND / US_PER_DAY)
                  = true).
    { apply Z.leb_le. unfold TIMEDELTA_MAX_DAYS.
      assert (0 <= Z.max 0 (z - 100) * US_PER_SECOND / US_PER_DAY).
      { apply Z.div_pos; unfold US_PER_DAY, US_PER_SECOND; lia. }
      lia. }
    rewrite Low. replace (_ <=? TIMEDELTA_MAX_DAYS) with true
      by (symmetry; now apply Z.leb_le).
    cbn [andb]. rewrite Rg. reflexivity. }
  rewrite E. cbn [fst snd]. split; [reflexivity|]. split; [reflexivity|].
  split; [reflexivity|]. split.
  - cbn. unfold US_PER_SECOND. lia.
  - intros H. cbn. unfold US_PER_SECOND. lia.
Qed.

Lemma refresh_cuts_lifetime_by_100s_witness :
  TOKEN_EXPIRES_AT (snd (refresh_access_token no_lifetime_world sample_config fresh_state))
  = SAMPLE_NOW + 3500 * US_PER_SECOND
  /\ SPOTIFY_TOKEN (snd (refresh_access_token no_lifetime_world sample_config fresh_state))
     = JStr "BQD-new".
Proof.
  destruct (refresh_cuts_lifetime_by_100s no_lifetime_world sample_config fresh_state
              (mkResponse 200 "" (Some (JObj [("access_token", JStr "BQD-new")])))
              [("access_token", JStr "BQD-new")] (JStr "BQD-new") 3600
              eq_refl eq_refl eq_refl eq_refl eq_refl)
    as (_ & T & E & _).
  - vm_compute. discriminate.
  - vm_compute. reflexivity.
  - split; [rewrite E; reflexivity | exact T].
Defined.

(** X16 (lines 305-308): the token is stored before the lifetime is read.
    When [expires_in] cannot be converted to an integer, the refresh raises
    with the new token already cached and the old expiry still in place. *)
Theorem bad_lifetime_half_updates_cache w cfg s r m tok e :
  http w (tick s) (ReqToken (REFRESH_TOKEN cfg)) = Resp r ->
  status_code r = 200 ->
  json_body r = Some (JObj m) ->
  assoc "access_token" m = Some tok ->
  py_int (lifetime_field m) = Exc e ->
  fst (refresh_access_token w cfg s) = Exc e
  /\ SPOTIFY_TOKEN (snd (refresh_access_token w cfg s)) = tok
  /\ TOKEN_EXPIRES_AT (snd (refresh_access_token w cfg s)) = TOKEN_EXPIRES_AT s.
Proof.
  intros F St J A L.
  rewrite refresh_access_token_run, F. cbv beta.
  rewrite St. change (negb (200 =? 200)) with false. cbv iota.
  unfold resp_json. rewrite J.
  unfold bind, ret, lift, py_contains, py_getitem, py_get, modify. rewrite A. cbn [negb].
  unfold lifetime_field in L. rewrite L. repeat split.
Qed.

Lemma bad_lifetime_half_updates_cache_witness :
  fst (refresh_access_token bad_lifetime_world sample_config warm_state) = Exc TypeError
  /\ token_cache (snd (refresh_access_token bad_lifetime_world sample_config warm_state))
     = (JStr "BQD-new", SAMPLE_NOW + 3500 * US_PER_SECOND).
Proof.
  destruct (bad_lifetime_half_updates_cache bad_lifetime_world sample_config warm_state
              (mkResponse 200 ""
                 (Some (JObj [("access_token", JStr "BQD-new"); ("expires_in", JNull)])))
              [("access_token", JStr "BQD-new"); ("expires_in", JNull)]
              (JStr "BQD-new") TypeError eq_refl eq_refl eq_refl eq_refl eq_refl)
    as (R & T & X).
  split; [exact R|]. unfold token_cache. rewrite T, X. reflexivity.
Defined.

(* ================================================================= *)
(** ** Remote-control gate: what it accepts *)

Lemma lower_char_o c : lower_char c = "o"%char -> c = "o"%char \/ c = "O"%char.
Proof.
  destruct c as [[] [] [] [] [] [] [] []]; vm_compute; intros H;
    solve [discriminate H | left; reflexivity | right; reflexivity].
Qed.

Lemma lower_char_n c : lower_char c = "n"%char -> c = "n"%char \/ c = "N"%char.
Proof.
  destruct c as [[] [] [] [] [] [] [] []]; vm_compute; intros H;
    solve [discriminate H | left; reflexivity | right; reflexivity].
Qed.

Lemma list_ascii_eqb_eq a b : list_ascii_eqb a b = true <-> a = b.
Proof.
  unfold list_ascii_eqb. rewrite String.eqb_eq. split.
  - intros H. rewrite <- (list_ascii_of_string_of_list_ascii a),
      <- (list_ascii_of_string_of_list_ascii b). now rewrite H.
  - now intros ->.
Qed.

Lemma lowers_to_on line :
  list_ascii_eqb (py_lower line) (chars "on") = true <-> spells_on line.
Proof.
  rewrite list_ascii_eqb_eq. unfold spells_on, py_lower, chars. simpl. split.
  - destruct line as [|a [|b [|c l]]]; simpl; intros H; try discriminate H.
    inversion H as [[Ha Hb]].
    destruct (lower_char_o a Ha), (lower_char_n b Hb); subst; auto.
  - intros [H|[H|[H|H]]]; subst; reflexivity.
Qed.

(** X17 (lines 469-480): the remote gate never raises an exception of its
    own and fails open: without a configured URL it answers "enabled"
    without sending anything, and once a body has arrived it answers
    "enabled" exactly when the body has no non-empty line or its first
    non-empty line is one of [on], [On], [oN], [ON]. *)
Theorem remote_gate_fails_open w cfg s :
  (REMOTE_CONTROL_URL cfg = "" ->
   fst (is_skipping_enabled w cfg s) = Ok true
   /\ new_events s (snd (is_skipping_enabled w cfg s)) = [EvLog LogNoRemoteControlUrl])
  /\ (forall e, fst (is_skipping_enabled w cfg s) = Exc e ->
                e = KeyboardInterrupt
                /\ http w (tick s) (ReqRemoteControl (REMOTE_CONTROL_URL cfg)) = Interrupted)
  /\ (forall r,
        REMOTE_CONTROL_URL cfg <> "" ->
        http w (tick s) (ReqRemoteControl (REMOTE_CONTROL_URL cfg)) = Resp r ->
        (fst (is_skipping_enabled w cfg s) = Ok true
         <-> first_nonempty_line (chars (text r)) = None
             \/ exists line, first_nonempty_line (chars (text r)) = Some line
                             /\ spells_on line)).
Proof.
  split; [|split].
  - intros U. unfold is_skipping_enabled. rewrite U. simpl.
    split; [reflexivity | apply new_events_app; reflexivity].
  - intros e. unfold is_skipping_enabled.
    destruct (String.eqb (REMOTE_CONTROL_URL cfg) ""); [discriminate|].
    unfold try_except, bind. rewrite http_call_run.
    destruct (http w (tick s) (ReqRemoteControl (REMOTE_CONTROL_URL cfg))) as [r| |].
    + destruct (splitlines (py_strip (chars (text r)))); simpl; discriminate.
    + simpl. discriminate.
    + simpl. intros H. inversion H. auto.
  - intros r Url F.
    assert (U : String.eqb (REMOTE_CONTROL_URL cfg) "" = false).
    { destruct (String.eqb (REMOTE_CONTROL_URL cfg) "") eqn:E; [|reflexivity].
      apply String.eqb_eq in E. contradiction. }
    unfold is_skipping_enabled. rewrite U.
    unfold try_except, bind. rewrite http_call_run, F.
    pose proof (gate_line_refines (chars (text r))) as G.
    destruct (splitlines (py_strip (chars (text r)))) as [|line rest].
    + rewrite G. split; [auto | reflexivity].
    + rewrite G. unfold ret. cbn [fst]. split.
      * intros H. right. exists (py_strip line). split; [reflexivity|].
        apply lowers_to_on. congruence.
      * intros [H|(l & H & S)]; [discriminate|].
        inversion H; subst. f_equal. now apply lowers_to_on.
Qed.

Lemma remote_gate_fails_open_witness :
  fst (is_skipping_enabled calm_world no_remote_config warm_state) = Ok true
  /\ new_events warm_state (snd (is_skipping_enabled calm_world no_remote_config warm_state))
     = [EvLog LogNoRemoteControlUrl].
Proof.
  apply (proj1 (remote_gate_fails_open calm_world no_remote_config warm_state)).
  reflexivity.
Defined.

(* ================================================================= *)
(** ** History client: which record and which timestamps count *)

(** X18 (lines 525-534): of a list of scrobbles only the first record is
    read, whatever follows it; and a timestamp that the platform converts
    but that lies outside the years 1 to 9999 makes the lookup come back
    absent instead of raising, in either response shape. *)
Theorem lookup_reads_first_record w cfg artist track s r uts ts :
  http w (tick s) (ReqLastfm (LASTFM_USER cfg) artist track) = Resp r ->
  status_code r = 200 ->
  truthy uts = true ->
  py_int uts = Ok ts ->
  gmtime_fail w ts = None ->
  (forall rest,
      json_body r
      = Some (JObj [("trackscrobbles",
                     JObj [("track", JList (scrobble_record uts :: rest))])]) ->
      fst (get_last_play_date w cfg artist track s)
      = if datetime_in_range (ts * US_PER_SECOND)
        then Ok (Some (mkDatetime (ts * US_PER_SECOND) true))
        else Ok None)
  /\ (json_body r = Some (scrobbles_as_dict uts) ->
      datetime_in_range (ts * US_PER_SECOND) = false ->
      fst (get_last_play_date w cfg artist track s) = Ok None).
Proof.
  intros F St Tu Pi Gm.
  split; [intros rest J | intros J Rg];
    unfold get_last_play_date, try_except; unfold bind at 1 2;
    rewrite http_call_run, F; unfold ret at 1; cbv beta iota;
    rewrite St; change (negb (200 =? 200)) with false; cbv iota;
    unfold resp_json, parse_uts, try_except, datetime_fromtimestamp_utc,
      datetime_utcfromtimestamp, fromtimestamp;
    rewrite J; unfold bind, ret, lift; simpl;
    rewrite Tu, Pi, Gm.
  - destruct (datetime_in_range (ts * US_PER_SECOND)); reflexivity.
  - rewrite Rg. reflexivity.
Qed.

Lemma lookup_reads_first_record_witness :
  fst (get_last_play_date two_scrobbles_world sample_config (JStr "Skyforest")
         (JStr "Heart of the Forest") warm_state)
    = Ok (Some (mkDatetime 1699000000000000 true))
  /\ fst (get_last_play_date far_future_world sample_config (JStr "Skyforest")
            (JStr "Heart of the Forest") warm_state)
     = Ok None.
Proof.
  split.
  - exact (proj1 (lookup_reads_first_record two_scrobbles_world sample_config
                    (JStr "Skyforest") (JStr "Heart of the Forest") warm_state
                    (mkResponse 200 "" (Some two_scrobbles)) (JStr "1699000000") 1699000000
                    eq_refl eq_refl eq_refl eq_refl eq_refl)
             [scrobble_record (JStr "1500000000")] eq_refl).
  - exact (proj1 (lookup_reads_first_record far_future_world sample_config
                    (JStr "Skyforest") (JStr "Heart of the Forest") warm_state
                    (mkResponse 200 "" (Some (scrobbles_as_list (JStr "1000000000000"))))
                    (JStr "1000000000000") 1000000000000
                    eq_refl eq_refl eq_refl eq_refl eq_refl)
             [] eq_refl).
Defined.

(* ================================================================= *)
(** ** Restarting the playlist *)

(** X19 (lines 438-467): [restart_playlist] catches every exception of
    its own steps: it returns normally unless the external stop signal
    arrives, and it leaves the decision state as it was. *)
Theorem restart_swallows_every_failure w cfg s :
  (fst (restart_playlist w cfg s) = Ok tt
   \/ fst (restart_playlist w cfg s) = Exc KeyboardInterrupt)
  /\ decision (snd (restart_playlist w cfg s)) = decision s
  /\ (never_stopped w -> fst (restart_playlist w cfg s) = Ok tt).
Proof.
  split; [|split].
  - destruct (restart_playlist w cfg s) as [[[]|e] s1] eqn:R; [now left|].
    right. simpl. f_equal. eapply restart_playlist_raises, R.
  - destruct (keeps_restart_playlist w cfg s) as [_ D]. now apply D.
  - intros Quiet.
    destruct (restart_playlist w cfg s) as [[[]|e] s1] eqn:R; [reflexivity|].
    pose proof (ro_restart_playlist w cfg Quiet s e s1 R) as Ex.
    pose proof (restart_playlist_raises w cfg s e s1 R) as Ki.
    subst e. discriminate Ex.
Qed.

Lemma restart_playlist_read w cfg s tok s1 r :
  get_spotify_token w cfg s = (Ok tok, s1) ->
  http w (tick s1) (ReqCurrentlyPlaying tok) = Resp r ->
  (status_code r <> 200 ->
   restart_playlist w cfg s
   = (Ok tt,
      set_trace (EvLog (LogNoPlaybackContext (status_code r))
                   :: EvRequest (ReqCurrentlyPlaying tok) :: trace s1)
        (set_tick (S (tick s1)) s1)))
  /\ (forall m, status_code r = 200 -> json_body r = Some (JObj m) ->
        (forall e,
            (context <- lift (py_get (JObj m) "context" (JObj [])) ;;
             lift (py_get context "uri" JNull))
              (set_tick (S (tick s1))
                 (set_trace (EvRequest (ReqCurrentlyPlaying tok) :: trace s1) s1))
            = (Exc e, set_tick (S (tick s1))
                        (set_trace (EvRequest (ReqCurrentlyPlaying tok) :: trace s1) s1)) ->
            is_Exception e = true ->
            restart_playlist w cfg s
            = (Ok tt,
               set_trace (EvLog (LogRestartFailed e)
                            :: EvRequest (ReqCurrentlyPlaying tok) :: trace s1)
                 (set_tick (S (tick s1)) s1)))
        /\ (forall uri,
               (context <- lift (py_get (JObj m) "context" (JObj [])) ;;
                lift (py_get context "uri" JNull))
                 (set_tick (S (tick s1))
                    (set_trace (EvRequest (ReqCurrentlyPlaying tok) :: trace s1) s1))
               = (Ok uri, set_tick (S (tick s1))
                            (set_trace (EvRequest (ReqCurrentlyPlaying tok) :: trace s1) s1)) ->
               truthy uri = false ->
               restart_playlist w cfg s
               = (Ok tt,
                  set_trace (EvLog LogNoPlaylistContext
                               :: EvRequest (ReqCurrentlyPlaying tok) :: trace s1)
                    (set_tick (S (tick s1)) s1)))).
Proof.
  intros Ht F.
  assert (E : forall k : response -> M unit,
             bind (spotify_get w cfg ReqCurrentlyPlaying) k s
             = k r (set_tick (S (tick s1))
                      (set_trace (EvRequest (ReqCurrentlyPlaying tok) :: trace s1) s1))).
  { intro k. unfold spotify_get. unfold bind at 1.
    rewrite (spotify_call_run w cfg ReqCurrentlyPlaying s tok s1 Ht), F. reflexivity. }
  unfold restart_playlist, try_except. rewrite E. split.
  - intros St. replace (status_code r =? 200) with false
      by (symmetry; now apply Z.eqb_neq). reflexivity.
  - intros m St J. rewrite St. change (negb (200 =? 200)) with false. cbv iota.
    unfold resp_json. rewrite J. split.
    + intros e Hc Ex. unfold bind in *. unfold ret at 1. cbv beta iota.
      unfold lift at 1 in Hc. unfold lift at 1.
      destruct (py_get (JObj m) "context" (JObj [])) as [c|e0].
      * unfold lift at 1 in Hc. unfold lift at 1.
        destruct (py_get c "uri" JNull) as [u|e1]; [discriminate Hc|].
        inversion Hc; subst. rewrite Ex. reflexivity.
      * inversion Hc; subst. rewrite Ex. reflexivity.
    + intros uri Hc Tu. unfold bind in *. unfold ret at 1. cbv beta iota.
      unfold lift at 1 in Hc. unfold lift at 1.
      destruct (py_get (JObj m) "context" (JObj [])) as [c|e0]; [|discriminate Hc].
      unfold lift at 1 in Hc. unfold lift at 1.
      destruct (py_get c "uri" JNull) as [u|e1]; [|discriminate Hc].
      inversion Hc; subst. rewrite Tu. reflexivity.
Qed.

(** X20 (lines 442-451): without a readable playlist context nothing is
    restarted.  When the currently-playing query is not answered with 200,
    when the answer carries no context or a context without a URI, and when
    the context is [null] (which makes the lookup of its URI raise), the
    function logs and returns, having sent no playback command. *)
Theorem restart_needs_a_context w cfg s tok s1 r :
  get_spotify_token w cfg s = (Ok tok, s1) ->
  http w (tick s1) (ReqCurrentlyPlaying tok) = Resp r ->
  (status_code r <> 200 ->
   fst (restart_playlist w cfg s) = Ok tt
   /\ new_events s1 (snd (restart_playlist w cfg s))
      = [EvLog (LogNoPlaybackContext (status_code r)); EvRequest (ReqCurrentlyPlaying tok)])
  /\ (forall m,
        status_code r = 200 -> json_body r = Some (JObj m) ->
        assoc "context" m = None
        \/ (exists c, assoc "context" m = Some (JObj c)
                      /\ match assoc "uri" c with
                         | Some u => truthy u = false
                         | None => True
                         end) ->
        fst (restart_playlist w cfg s) = Ok tt
        /\ new_events s1 (snd (restart_playlist w cfg s))
           = [EvLog LogNoPlaylistContext; EvRequest (ReqCurrentlyPlaying tok)])
  /\ (forall m,
        status_code r = 200 -> json_body r = Some (JObj m) ->
        assoc "context" m = Some JNull ->
        fst (restart_playlist w cfg s) = Ok tt
        /\ new_events s1 (snd (restart_playlist w cfg s))
           = [EvLog (LogRestartFailed AttributeError);
              EvRequest (ReqCurrentlyPlaying tok)]).
Proof.
  intros Ht F. destruct (restart_playlist_read w cfg s tok s1 r Ht F) as [Bad Good].
  split; [|split].
  - intros St. rewrite (Bad St). split; [reflexivity | apply new_events_app; reflexivity].
  - intros m St J Ctx. destruct (Good m St J) as [_ NoUri].
    assert (U : exists uri,
               py_get (match assoc "context" m with Some c => c | None => JObj [] end)
                 "uri" JNull = Ok uri /\ truthy uri = false).
    { destruct Ctx as [N | (c & C & U)].
      - rewrite N. exists JNull. split; reflexivity.
      - rewrite C. simpl. destruct (assoc "uri" c) as [u|].
        + exists u. split; [reflexivity | exact U].
        + exists JNull. split; reflexivity. }
    destruct U as (uri & Hu & Tu).
    rewrite (NoUri uri); [split; [reflexivity | apply new_events_app; reflexivity] | | exact Tu].
    unfold bind, lift. simpl py_get at 1. cbv beta iota. rewrite Hu. reflexivity.
  - intros m St J Ctx. destruct (Good m St J) as [Raises _].
    rewrite (Raises AttributeError);
      [split; [reflexivity | apply new_events_app; reflexivity] | | reflexivity].
    unfold bind, lift. simpl. rewrite Ctx. reflexivity.
Qed.

Lemma restart_needs_a_context_witness :
  fst (restart_playlist no_context_world sample_config warm_state) = Ok tt
  /\ new_events (snd (get_spotify_token no_context_world sample_config warm_state))
       (snd (restart_playlist no_context_world sample_config warm_state))
     = [EvLog (LogRestartFailed AttributeError);
        EvRequest (ReqCurrentlyPlaying (JStr "BQD-token"))].
Proof.
  pose (s1 := snd (get_spotify_token no_context_world sample_config warm_state)).
  assert (Ht : get_spotify_token no_context_world sample_config warm_state
               = (Ok (JStr "BQD-token"), s1)) by (vm_compute; reflexivity).
  exact (proj2 (proj2 (restart_needs_a_context no_context_world sample_config warm_state
                         (JStr "BQD-token") s1
                         (mkResponse 200 "" (Some (JObj [("context", JNull); ("item", JNull)])))
                         Ht eq_refl))
           [("context", JNull); ("item", JNull)] eq_refl eq_refl eq_refl).
Defined.

Lemma get_spotify_token_warm w cfg s :
  token_warm w s ->
  get_spotify_token w cfg s = (Ok (SPOTIFY_TOKEN s), set_tick (S (tick s)) s).
Proof.
  intros [Hn Hc]. unfold get_spotify_token, bind, gets, now, step, ret; simpl.
  rewrite Hn. simpl.
  replace (TOKEN_EXPIRES_AT s <=? clock w (tick s)) with false
    by (symmetry; apply Z.leb_gt; apply Hc).
  reflexivity.
Qed.

Lemma warm_call w cfg (endpoint : json -> request) s r :
  token_warm w s ->
  http w (S (tick s)) (endpoint (SPOTIFY_TOKEN s)) = Resp r ->
  bind (get_spotify_token w cfg) (fun token => http_call w (endpoint token)) s
  = (Ok r, set_tick (S (S (tick s)))
             (set_trace (EvRequest (endpoint (SPOTIFY_TOKEN s)) :: trace s) s)).
Proof.
  intros W F. rewrite (bind_Ok _ _ _ _ _ (get_spotify_token_warm w cfg s W)).
  rewrite http_call_run. simpl. rewrite F. reflexivity.
Qed.

Ltac token_step W :=
  match goal with
  | |- context [bind (get_spotify_token ?w ?cfg) ?k ?X] =>
      rewrite (bind_Ok (get_spotify_token w cfg) k X _ _
                 (get_spotify_token_warm w cfg X W))
  end.

Ltac response_step Rsp :=
  match goal with
  | |- context [http ?w ?n ?q] =>
      let r := fresh "r" in
      let F := fresh "F" in
      destruct (Rsp n q) as [r F]; rewrite F; cbv beta iota
  end.

Ltac sleep_step Sl Stop :=
  rewrite sleep_run, (sleepable_no_error _ _ Sl); cbv iota;
  rewrite Stop; cbv beta iota.

(** X21 (lines 453-465): with a token in hand, a playlist context, no
    interruption and the one-second waits taking place, the restart plays
    the filler playlist, waits a second, switches shuffle on, waits a
    second and plays the original context again, in this order, and then
    reports success.  It does so whatever the three commands are answered:
    their statuses are not looked at. *)
Theorem restart_sequence w cfg s r m c uri :
  token_warm w s ->
  responsive w ->
  sleepable w 1 ->
  (forall n, stop_signal w n = false) ->
  http w (S (tick s)) (ReqCurrentlyPlaying (SPOTIFY_TOKEN s)) = Resp r ->
  status_code r = 200 ->
  json_body r = Some (JObj m) ->
  assoc "context" m = Some (JObj c) ->
  assoc "uri" c = Some uri ->
  truthy uri = true ->
  fst (restart_playlist w cfg s) = Ok tt
  /\ new_events s (snd (restart_playlist w cfg s))
     = [EvLog LogPlaylistRestarted;
        EvRequest (ReqPlay (SPOTIFY_TOKEN s) uri);
        EvSleep 1;
        EvRequest (ReqShuffle (SPOTIFY_TOKEN s));
        EvSleep 1;
        EvRequest (ReqPlay (SPOTIFY_TOKEN s)
                     (JStr ("spotify:playlist:" ++ DUMMY_PLAYLIST_ID cfg)));
        EvLog (LogRestartingPlaylist uri);
        EvRequest (ReqCurrentlyPlaying (SPOTIFY_TOKEN s))].
Proof.
  intros W Rsp Sl Stop F St J Hc Hu Tu.
  assert (E : restart_playlist w cfg s
              = (Ok tt,
                 set_tick (10 + tick s)
                   (set_trace
                      (EvLog LogPlaylistRestarted
                       :: EvRequest (ReqPlay (SPOTIFY_TOKEN s) uri)
                       :: EvSleep 1
                       :: EvRequest (ReqShuffle (SPOTIFY_TOKEN s))
                       :: EvSleep 1
                       :: EvRequest (ReqPlay (SPOTIFY_TOKEN s)
                                       (JStr ("spotify:playlist:" ++ DUMMY_PLAYLIST_ID cfg)))
                       :: EvLog (LogRestartingPlaylist uri)
                       :: EvRequest (ReqCurrentlyPlaying (SPOTIFY_TOKEN s))
                       :: trace s) s))).
  { unfold restart_playlist, try_except, spotify_get, spotify_put.
    unfold bind at 1.
    rewrite (warm_call w cfg ReqCurrentlyPlaying s r W F).
    rewrite St. change (negb (200 =? 200)) with false. cbv iota.
    unfold resp_json. rewrite J.
    unfold bind at 1. unfold ret at 1. cbv beta iota.
    unfold bind at 1. unfold lift at 1. unfold py_get at 1. rewrite Hc. cbv beta iota.
    unfold bind at 1. unfold lift at 1. unfold py_get at 1. rewrite Hu. cbv beta iota.
    rewrite Tu. change (negb true) with false. cbv iota.
    unfold bind at 1. rewrite print_run. cbv beta iota.
    unfold bind at 1. token_step W. rewrite http_call_run. response_step Rsp.
    unfold bind at 1. sleep_step Sl Stop.
    unfold bind at 1. token_step W. rewrite http_call_run. response_step Rsp.
    unfold bind at 1. sleep_step Sl Stop.
    unfold bind at 1. token_step W. rewrite http_call_run. response_step Rsp.
    rewrite print_run. reflexivity. }
  rewrite E. split; [reflexivity|]. apply new_events_app. reflexivity.
Qed.

Lemma restart_sequence_witness :
  new_events warm_state (snd (restart_playlist refusing_world sample_config warm_state))
  = [EvLog LogPlaylistRestarted;
     EvRequest (ReqPlay (JStr "BQD-token") (JStr "spotify:playlist:5ABHKGoOzxkaa28ttQV9sE"));
     EvSleep 1;
     EvRequest (ReqShuffle (JStr "BQD-token"));
     EvSleep 1;
     EvRequest (ReqPlay (JStr "BQD-token") (JStr "spotify:playlist:37i9dQZF1DX0XUsuxWHRQd"));
     EvLog (LogRestartingPlaylist (JStr "spotify:playlist:5ABHKGoOzxkaa28ttQV9sE"));
     EvRequest (ReqCurrentlyPlaying (JStr "BQD-token"))].
Proof.
  assert (W : token_warm refusing_world warm_state)
    by (split; [reflexivity | intro; reflexivity]).
  assert (R : responsive refusing_world)
    by (intros n []; eexists; reflexivity).
  assert (Sl : sleepable refusing_world 1) by sleepable_here.
  exact (proj2 (restart_sequence refusing_world sample_config warm_state
                  (mkResponse 200 "" (Some playlist_playing))
                  _ _ (JStr "spotify:playlist:5ABHKGoOzxkaa28ttQV9sE")
                  W R Sl (fun _ => eq_refl) eq_refl eq_refl eq_refl eq_refl eq_refl eq_refl)).
Defined.
